(** * Solana dormant-token spike detector: state engine, detection, retry

    A shallow embedding of the TypeScript sources
      - [src/data/TokenState.ts]             ([TokenStateManager], in its
                                              revision with [source])
      - [src/detector/SpikeDetector.ts]      ([SpikeDetector])
      - [src/detector/TokenUniverseManager.ts]
      - [src/services/DexScreenerService.ts] ([getTokenSource])
      - [src/services/SpikeDetectionService.ts] (the two managers it owns)
      - [src/utils/Config.ts], [src/utils/ErrorHandler.ts]
    together with the properties of the specification that concern them.

    Conventions of the embedding.
      - A JavaScript [number] that carries market data (price, volume,
        liquidity, percentage, threshold) is an IEEE-754 binary64 value:
        Rocq's primitive [float], whose operations are the same ones the
        JavaScript engine performs.
      - A [number] that carries a clock reading or a duration in
        milliseconds ([Date.now()], [alertCooldownMs], ...) is an integer
        and is embedded in [Z]; additions and subtractions of such values
        are exact on binary64 below 2^53.
      - [Map<string, TokenState>] is [gmap string TokenState],
        [Set<string>] is [gset string].
      - Every [Date.now()] of the source is an explicit argument, so two
        readings inside one call may differ. *)

From Stdlib Require Import ZArith List Floats Ascii String Bool Lia Sorted.
From stdpp Require Import gmap strings.

Set Warnings "-inexact-float,-clear-no-such-hyp".
Local Open Scope Z_scope.

(** ** JavaScript values *)

Module Js.

(** [x || 0] on a number: the falsy numbers are [NaN], [0] and [-0]. *)
Definition orZero (x : float) : float :=
  if PrimFloat.is_nan x then 0%float
  else if PrimFloat.is_zero x then 0%float
  else x.

(** [v || 0] where [v] may be [undefined]. *)
Definition optOrZero (v : option float) : float :=
  match v with
  | None => 0%float
  | Some x => orZero x
  end.

(** Truthiness of an optional integer ([undefined] and [0] are falsy). *)
Definition truthyZ (v : option Z) : bool :=
  match v with
  | None => false
  | Some z => negb (z =? 0)
  end.

(** A binary64 value holding the integer [z]; exact for [|z| < 2^53]. *)
Definition ofZ (z : Z) : float :=
  if z <? 0 then PrimFloat.opp (PrimFloat.of_uint63 (Uint63.of_Z (- z)))
  else PrimFloat.of_uint63 (Uint63.of_Z z).

(** [String.prototype.toLowerCase] on the ASCII range. *)
Definition lowerAscii (c : ascii) : ascii :=
  let n := nat_of_ascii c in
  if ((65 <=? n) && (n <=? 90))%nat then ascii_of_nat (n + 32) else c.

Fixpoint toLowerCase (s : string) : string :=
  match s with
  | EmptyString => EmptyString
  | String c t => String (lowerAscii c) (toLowerCase t)
  end.

(** [hay.includes(needle)] *)
Fixpoint includes (hay needle : string) : bool :=
  String.prefix needle hay ||
  match hay with
  | EmptyString => false
  | String _ t => includes t needle
  end.

End Js.

(** ** Data model *)

Inductive Source := pumpfun | bonk.
Inductive Tier := tier25 | tier50.

#[global] Instance Source_eq_dec : EqDecision Source.
Proof. solve_decision. Defined.
#[global] Instance Tier_eq_dec : EqDecision Tier.
Proof. solve_decision. Defined.

(** [interface TokenSnapshot] *)
Record TokenSnapshot := {
  timestamp : Z;
  price : float;
  marketCap : float;
  volume5m : float;
  volume24h : float;
  liquidity : float;
  priceChange5m : float;
  priceChange24h : float;
}.

(** The [Pair] record of the provider SDK, restricted to the members the
    sources read.  Optional members are [option]s; the nested optional
    objects [volume], [priceChange] and [liquidity] are flattened, an
    absent object giving [None] for each of its members. *)
Record BaseToken := {
  address : string;
  symbol : string;
  name : string;
}.

Record TokenPair := {
  chainId : string;
  dexId : option string;
  pairAddress : string;
  baseToken : BaseToken;
  priceUsd : option string;
  fdv : option float;
  volume_m5 : option float;
  volume_h24 : option float;
  priceChange_m5 : option float;
  priceChange_h24 : option float;
  liquidity_usd : option float;
  pairCreatedAt : option Z;
}.

(** [lastAlertTimestamp: { tier25?: number; tier50?: number }] *)
Record AlertStamps := {
  stamp25 : option Z;
  stamp50 : option Z;
}.

Definition noStamps : AlertStamps := {| stamp25 := None; stamp50 := None |}.

Definition getStamp (a : AlertStamps) (t : Tier) : option Z :=
  match t with
  | tier25 => stamp25 a
  | tier50 => stamp50 a
  end.

Definition setStamp (a : AlertStamps) (t : Tier) (now : Z) : AlertStamps :=
  match t with
  | tier25 => {| stamp25 := Some now; stamp50 := stamp50 a |}
  | tier50 => {| stamp25 := stamp25 a; stamp50 := Some now |}
  end.

(** [interface TokenState] (second revision, with [source]) *)
Record TokenState := {
  tokenAddress : string;
  baseTokenSymbol : string;
  baseTokenName : string;
  statePairAddress : string;
  source : option Source;
  createdAt : option Z;
  firstSeen : Z;
  snapshots : list TokenSnapshot;
  lastAlertTimestamp : AlertStamps;
  lastSeenActive : Z;
  currentPair : option TokenPair;
}.

(** [interface BotConfig].  [minLiquidityUsd] is read by the detector and
    by the universe manager as [this.config.minLiquidityUsd]; the revision
    of [Config.ts] at hand does not declare it, so it is a member here
    whose value is left to the caller. *)
Record BotConfig := {
  alertThreshold25 : bool;
  alertThreshold50 : bool;
  minTokenAgeHours : float;
  maxMarketCap : float;
  minLiquidityUsd : float;
  isPaused : bool;
  pollingIntervalMs : Z;
  dormantVolatilityThreshold : float;
  dormantVolumeThreshold : float;
  baselinePeriodMinutes : Z;
  alertCooldownMs : Z;
}.

(** ** DexScreenerService *)

Definition getTokenSource (pair : TokenPair) : option Source :=
  let dex := Js.toLowerCase (default EmptyString (dexId pair)) in
  if Js.includes dex "pump" then Some pumpfun
  else if Js.includes dex "bonk" then Some bonk
  else None.

Definition isFromPumpOrBonk (pair : TokenPair) : bool :=
  match getTokenSource pair with
  | Some _ => true
  | None => false
  end.

(** ** TokenStateManager

    The private member [tokens : Map<string, TokenState>] is the state
    that every method below receives and, when it mutates, returns.  A
    [TokenState] object mutated in place is written back under its key. *)

Definition maxSnapshotsPerToken : nat := 144.

Definition getTokenState (tokens : gmap string TokenState) (tokenAddress : string)
  : option TokenState :=
  tokens !! tokenAddress.

(** [state.snapshots.push(snapshot)] followed by the capacity check
    [if (state.snapshots.length > this.maxSnapshotsPerToken) state.snapshots.shift()]. *)
Definition pushSnapshot (l : list TokenSnapshot) (snapshot : TokenSnapshot)
  : list TokenSnapshot :=
  let pushed := l ++ [snapshot] in
  if (maxSnapshotsPerToken <? length pushed)%nat then tl pushed else pushed.

(** [snapshot.volume5m > 0 || Math.abs(snapshot.priceChange5m) > 1] *)
Definition showsActivity (snapshot : TokenSnapshot) : bool :=
  (0 <? volume5m snapshot)%float || (1 <? PrimFloat.abs (priceChange5m snapshot))%float.

Definition withSource (st : TokenState) (s : option Source) : TokenState :=
  {| tokenAddress := tokenAddress st; baseTokenSymbol := baseTokenSymbol st;
     baseTokenName := baseTokenName st; statePairAddress := statePairAddress st;
     source := s; createdAt := createdAt st; firstSeen := firstSeen st;
     snapshots := snapshots st; lastAlertTimestamp := lastAlertTimestamp st;
     lastSeenActive := lastSeenActive st; currentPair := currentPair st |}.

Definition withCurrentPair (st : TokenState) (p : TokenPair) : TokenState :=
  {| tokenAddress := tokenAddress st; baseTokenSymbol := baseTokenSymbol st;
     baseTokenName := baseTokenName st; statePairAddress := statePairAddress st;
     source := source st; createdAt := createdAt st; firstSeen := firstSeen st;
     snapshots := snapshots st; lastAlertTimestamp := lastAlertTimestamp st;
     lastSeenActive := lastSeenActive st; currentPair := Some p |}.

Definition withSnapshots (st : TokenState) (l : list TokenSnapshot) : TokenState :=
  {| tokenAddress := tokenAddress st; baseTokenSymbol := baseTokenSymbol st;
     baseTokenName := baseTokenName st; statePairAddress := statePairAddress st;
     source := source st; createdAt := createdAt st; firstSeen := firstSeen st;
     snapshots := l; lastAlertTimestamp := lastAlertTimestamp st;
     lastSeenActive := lastSeenActive st; currentPair := currentPair st |}.

Definition withLastSeenActive (st : TokenState) (t : Z) : TokenState :=
  {| tokenAddress := tokenAddress st; baseTokenSymbol := baseTokenSymbol st;
     baseTokenName := baseTokenName st; statePairAddress := statePairAddress st;
     source := source st; createdAt := createdAt st; firstSeen := firstSeen st;
     snapshots := snapshots st; lastAlertTimestamp := lastAlertTimestamp st;
     lastSeenActive := t; currentPair := currentPair st |}.

Definition withLastAlert (st : TokenState) (a : AlertStamps) : TokenState :=
  {| tokenAddress := tokenAddress st; baseTokenSymbol := baseTokenSymbol st;
     baseTokenName := baseTokenName st; statePairAddress := statePairAddress st;
     source := source st; createdAt := createdAt st; firstSeen := firstSeen st;
     snapshots := snapshots st; lastAlertTimestamp := a;
     lastSeenActive := lastSeenActive st; currentPair := currentPair st |}.

(** The state a first observation creates ([if (!state) { state = {...} }]).
    The two [Date.now()] readings are [nowFirstSeen] and [nowActive]. *)
Definition freshState (nowFirstSeen nowActive : Z) (tokenAddress : string)
    (pair : TokenPair) (src : option Source) : TokenState :=
  {| tokenAddress := tokenAddress;
     baseTokenSymbol := symbol (baseToken pair);
     baseTokenName := name (baseToken pair);
     statePairAddress := pairAddress pair;
     source := src;
     createdAt := pairCreatedAt pair;
     firstSeen := nowFirstSeen;
     snapshots := [];
     lastAlertTimestamp := noStamps;
     lastSeenActive := nowActive;
     currentPair := Some pair |}.

(** The branch [else { if (!state.source && source) state.source = source }]. *)
Definition backfillSource (st : TokenState) (src : option Source) : TokenState :=
  match source st, src with
  | None, Some s => withSource st (Some s)
  | _, _ => st
  end.

(** The state [updateTokenState] goes on with after its first
    [if (!state) { ... } else { ... }]. *)
Definition priorState (nowFirstSeen nowActive : Z)
    (tokens : gmap string TokenState) (tokenAddress : string)
    (pair : TokenPair) (src : option Source) : TokenState :=
  match tokens !! tokenAddress with
  | None => freshState nowFirstSeen nowActive tokenAddress pair src
  | Some st => backfillSource st src
  end.

Definition updateTokenState (nowFirstSeen nowActive : Z)
    (tokens : gmap string TokenState) (tokenAddress : string)
    (pair : TokenPair) (snapshot : TokenSnapshot) (src : option Source)
  : gmap string TokenState :=
  let state := priorState nowFirstSeen nowActive tokens tokenAddress pair src in
  let state := withCurrentPair state pair in
  let state := withSnapshots state (pushSnapshot (snapshots state) snapshot) in
  let state :=
    if showsActivity snapshot
    then withLastSeenActive state (timestamp snapshot)
    else state in
  <[tokenAddress := state]> tokens.

Definition getSnapshotsInWindow (now : Z) (tokens : gmap string TokenState)
    (tokenAddress : string) (windowMinutes : Z) : list TokenSnapshot :=
  match tokens !! tokenAddress with
  | None => []
  | Some state =>
      let cutoffTime := now - windowMinutes * 60 * 1000 in
      List.filter (fun snapshot => cutoffTime <=? timestamp snapshot) (snapshots state)
  end.

(** [snapshots[0]] and [snapshots[snapshots.length - 1]]; the callers have
    checked the length, the default is never reached. *)
Definition nullSnapshot : TokenSnapshot :=
  {| timestamp := 0; price := nan; marketCap := nan; volume5m := nan;
     volume24h := nan; liquidity := nan; priceChange5m := nan;
     priceChange24h := nan |}.

Definition firstOf (l : list TokenSnapshot) : TokenSnapshot := hd nullSnapshot l.
Definition lastOf (l : list TokenSnapshot) : TokenSnapshot := List.last l nullSnapshot.

(** [snapshots.reduce((sum, s) => sum + s.volume5m, 0)] *)
Definition totalVolume (l : list TokenSnapshot) : float :=
  fold_left (fun sum s => (sum + volume5m s)%float) l 0%float.

(** [firstPrice > 0 ? Math.abs((lastPrice - firstPrice) / firstPrice) * 100 : 0] *)
Definition priceChange1h (l : list TokenSnapshot) : float :=
  let firstPrice := price (firstOf l) in
  let lastPrice := price (lastOf l) in
  if (0 <? firstPrice)%float
  then (PrimFloat.abs ((lastPrice - firstPrice) / firstPrice) * 100)%float
  else 0%float.

(** [prevPrice > 0 ? ((currPrice - prevPrice) / prevPrice) * 100 : 0] *)
Definition candleChange (prev curr : TokenSnapshot) : float :=
  let prevPrice := price prev in
  let currPrice := price curr in
  if (0 <? prevPrice)%float
  then ((currPrice - prevPrice) / prevPrice * 100)%float
  else 0%float.

(** The loop [for (let i = 1; i < snapshots.length; i++)] with its early
    [return false]: [true] when the loop runs to its end. *)
Fixpoint noCandleAbove10 (l : list TokenSnapshot) : bool :=
  match l with
  | prev :: (curr :: _) as rest =>
      if (10 <? candleChange prev curr)%float then false
      else noCandleAbove10 rest
  | _ => true
  end.

Definition isDormant (now : Z) (tokens : gmap string TokenState)
    (tokenAddress : string) (volatilityThreshold volumeThreshold : float)
    (baselineMinutes : Z) : bool :=
  let snapshots := getSnapshotsInWindow now tokens tokenAddress baselineMinutes in
  if (length snapshots <? 3)%nat then false
  else if (volumeThreshold <=? totalVolume snapshots)%float then false
  else if (volatilityThreshold <=? priceChange1h snapshots)%float then false
  else noCandleAbove10 snapshots.

Definition recordAlert (now : Z) (tokens : gmap string TokenState)
    (tokenAddress : string) (tier : Tier) : gmap string TokenState :=
  match tokens !! tokenAddress with
  | Some state =>
      <[tokenAddress := withLastAlert state (setStamp (lastAlertTimestamp state) tier now)]> tokens
  | None => tokens
  end.

Definition isInCooldown (now : Z) (tokens : gmap string TokenState)
    (tokenAddress : string) (tier : Tier) (cooldownMs : Z) : bool :=
  match tokens !! tokenAddress with
  | None => false
  | Some state =>
      if negb (Js.truthyZ (getStamp (lastAlertTimestamp state) tier)) then false
      else
        let timeSinceLastAlert := now - default 0 (getStamp (lastAlertTimestamp state) tier) in
        timeSinceLastAlert <? cooldownMs
  end.

Definition cleanupOldTokens (now : Z) (tokens : gmap string TokenState)
    (maxAgeHours : Z) : gmap string TokenState :=
  let cutoffTime := now - maxAgeHours * 60 * 60 * 1000 in
  filter (fun kv => ¬ (lastSeenActive kv.2 < cutoffTime)) tokens.

Definition getTokenCount (tokens : gmap string TokenState) : nat := size tokens.

(** ** SpikeDetector and TokenUniverseManager

    [parseFloat] is the JavaScript built-in; the development holds for
    any function of that type. *)

(** The [Date.now()] readings of one [checkForSpike] call, in program
    order.  [isInCooldown] is reached at most once per call (its two call
    sites are guarded by [priceChange5m >= 50] and [priceChange5m < 50]),
    hence the single [clkCooldown]. *)
Record Clock := {
  clkSnapshot : Z;
  clkFirstSeen : Z;
  clkActive : Z;
  clkWindow : Z;
  clkCooldown : Z;
  clkRecord : Z;
  clkAge : Z;
}.

(** All readings of a call taken at the same instant. *)
Definition atInstant (t : Z) : Clock :=
  {| clkSnapshot := t; clkFirstSeen := t; clkActive := t; clkWindow := t;
     clkCooldown := t; clkRecord := t; clkAge := t |}.

(** [interface SpikeAlert] *)
Record SpikeAlert := {
  alertTokenAddress : string;
  alertTokenSymbol : string;
  alertTokenName : string;
  alertPair : TokenPair;
  alertSource : Source;
  tokenAgeHours : float;
  alertPriceChange5m : float;
  alertTier : Tier;
  currentPrice : float;
  alertMarketCap : float;
  alertVolume5m : float;
  alertLiquidity : float;
  alertTimestamp : Z;
}.

Section Detector.

Variable parseFloat : string -> float.

(** [parseFloat(v)] where [v] may be [undefined]. *)
Definition parseFloatOpt (v : option string) : float :=
  match v with
  | None => nan
  | Some s => parseFloat s
  end.

(** Truthiness of an optional string. *)
Definition truthyStr (v : option string) : bool :=
  match v with
  | None | Some EmptyString => false
  | Some _ => true
  end.

(** [v || '0'] *)
Definition strOr0 (v : option string) : string :=
  match v with
  | None | Some EmptyString => "0"
  | Some s => s
  end.

(** The snapshot [checkForSpike] builds from the pair. *)
Definition snapshotOf (now : Z) (pair : TokenPair) : TokenSnapshot :=
  {| timestamp := now;
     price := Js.orZero (parseFloatOpt (priceUsd pair));
     marketCap := Js.optOrZero (fdv pair);
     volume5m := Js.optOrZero (volume_m5 pair);
     volume24h := Js.optOrZero (volume_h24 pair);
     liquidity := Js.optOrZero (liquidity_usd pair);
     priceChange5m := Js.optOrZero (priceChange_m5 pair);
     priceChange24h := Js.optOrZero (priceChange_h24 pair) |}.

Definition meetsBasicCriteria (cfg : BotConfig) (pair : TokenPair) : bool :=
  let marketCap := Js.optOrZero (fdv pair) in
  if (maxMarketCap cfg <=? marketCap)%float || (marketCap =? 0)%float then false
  else
    let price := parseFloat (strOr0 (priceUsd pair)) in
    if (price <=? 0)%float then false
    else
      let liquidity := Js.optOrZero (liquidity_usd pair) in
      if (liquidity <? minLiquidityUsd cfg)%float then false
      else true.

(** The [if / else if] chain that picks the tier. *)
Definition selectTier (cfg : BotConfig) (now : Z) (tokens : gmap string TokenState)
    (tokenAddress : string) (priceChange5m : float) : option Tier :=
  if alertThreshold50 cfg
     && (50 <=? priceChange5m)%float
     && negb (isInCooldown now tokens tokenAddress tier50 (alertCooldownMs cfg))
  then Some tier50
  else if alertThreshold25 cfg
     && (25 <=? priceChange5m)%float
     && (priceChange5m <? 50)%float
     && negb (isInCooldown now tokens tokenAddress tier25 (alertCooldownMs cfg))
  then Some tier25
  else None.

(** [pair.pairCreatedAt ? (Date.now() - pair.pairCreatedAt) / (1000 * 60 * 60) : 0] *)
Definition ageHoursOf (now : Z) (pair : TokenPair) : float :=
  if Js.truthyZ (pairCreatedAt pair)
  then
    let ageMs := now - default 0 (pairCreatedAt pair) in
    (Js.ofZ ageMs / 3600000)%float
  else 0%float.

Definition checkForSpike (cfg : BotConfig) (clk : Clock) (pair : TokenPair)
    (tokens : gmap string TokenState)
  : gmap string TokenState * option SpikeAlert :=
  let tokenAddress := address (baseToken pair) in
  match getTokenSource pair with
  | None => (tokens, None)
  | Some src =>
      let snapshot := snapshotOf (clkSnapshot clk) pair in
      let tokens :=
        updateTokenState (clkFirstSeen clk) (clkActive clk)
          tokens tokenAddress pair snapshot (Some src) in
      if negb (meetsBasicCriteria cfg pair) then (tokens, None)
      else
        let wasDormant :=
          isDormant (clkWindow clk) tokens tokenAddress
            (dormantVolatilityThreshold cfg) (dormantVolumeThreshold cfg)
            (baselinePeriodMinutes cfg) in
        if negb wasDormant then (tokens, None)
        else
          let priceChange5m := priceChange5m snapshot in
          match selectTier cfg (clkCooldown clk) tokens tokenAddress priceChange5m with
          | None => (tokens, None)
          | Some tier =>
              let tokens := recordAlert (clkRecord clk) tokens tokenAddress tier in
              (tokens,
               Some {| alertTokenAddress := tokenAddress;
                       alertTokenSymbol := symbol (baseToken pair);
                       alertTokenName := name (baseToken pair);
                       alertPair := pair;
                       alertSource := src;
                       tokenAgeHours := ageHoursOf (clkAge clk) pair;
                       alertPriceChange5m := priceChange5m;
                       alertTier := tier;
                       currentPrice := price snapshot;
                       alertMarketCap := marketCap snapshot;
                       alertVolume5m := volume5m snapshot;
                       alertLiquidity := liquidity snapshot;
                       alertTimestamp := timestamp snapshot |})
          end
  end.

(** The store as the gates of [checkForSpike] read it: the snapshot of
    the call is already recorded. *)
Definition storeAtGates (clk : Clock) (pair : TokenPair)
    (tokens : gmap string TokenState) : gmap string TokenState :=
  updateTokenState (clkFirstSeen clk) (clkActive clk) tokens
    (address (baseToken pair)) pair (snapshotOf (clkSnapshot clk) pair)
    (getTokenSource pair).

(** The dormancy gate as [checkForSpike] evaluates it. *)
Definition dormancyGate (cfg : BotConfig) (clk : Clock) (pair : TokenPair)
    (tokens : gmap string TokenState) : bool :=
  isDormant (clkWindow clk) (storeAtGates clk pair tokens)
    (address (baseToken pair))
    (dormantVolatilityThreshold cfg) (dormantVolumeThreshold cfg)
    (baselinePeriodMinutes cfg).

(** The tier the chain selects in [checkForSpike]. *)
Definition tierGate (cfg : BotConfig) (clk : Clock) (pair : TokenPair)
    (tokens : gmap string TokenState) : option Tier :=
  selectTier cfg (clkCooldown clk) (storeAtGates clk pair tokens)
    (address (baseToken pair))
    (priceChange5m (snapshotOf (clkSnapshot clk) pair)).

(** [checkMultiplePairs]: the pairs are evaluated in order, each with its
    own clock readings; the alerts are collected in order. *)
Fixpoint checkMultiplePairs (cfg : BotConfig) (pairs : list (Clock * TokenPair))
    (tokens : gmap string TokenState)
  : gmap string TokenState * list SpikeAlert :=
  match pairs with
  | [] => (tokens, [])
  | (clk, p) :: rest =>
      let '(tokens, alert) := checkForSpike cfg clk p tokens in
      let '(tokens, alerts) := checkMultiplePairs cfg rest tokens in
      (tokens, match alert with Some a => a :: alerts | None => alerts end)
  end.

(** *** TokenUniverseManager *)

(** The predicate of [filterEligiblePairs] (revision with the liquidity
    floor and the source restriction). *)
Definition eligible (cfg : BotConfig) (now : Z) (pair : TokenPair) : bool :=
  let marketCap := Js.optOrZero (fdv pair) in
  if (maxMarketCap cfg <=? marketCap)%float || (marketCap =? 0)%float then false
  else if negb (isFromPumpOrBonk pair) then false
  else if negb (truthyStr (priceUsd pair))
          || (parseFloatOpt (priceUsd pair) <=? 0)%float then false
  else
    let liquidity := Js.optOrZero (liquidity_usd pair) in
    if (liquidity <? minLiquidityUsd cfg)%float then false
    else if Js.truthyZ (pairCreatedAt pair)
    then
      let ageMs := now - default 0 (pairCreatedAt pair) in
      let ageHours := (Js.ofZ ageMs / 3600000)%float in
      if (ageHours <? minTokenAgeHours cfg)%float then false else true
    else true.

Definition filterEligiblePairs (cfg : BotConfig) (now : Z) (pairs : list TokenPair)
  : list TokenPair :=
  List.filter (eligible cfg now) pairs.

Definition addToken (trackedTokens : gset string) (tokenAddress : string) : gset string :=
  {[ tokenAddress ]} ∪ trackedTokens.

Definition removeToken (trackedTokens : gset string) (tokenAddress : string) : gset string :=
  trackedTokens ∖ {[ tokenAddress ]}.

Definition isTracked (trackedTokens : gset string) (tokenAddress : string) : bool :=
  bool_decide (tokenAddress ∈ trackedTokens).

(** [updateTokenEligibility].  [fetched] is the outcome of
    [await this.dexScreenerService.getTokenPairs(tokenAddress)]:
    [None] when the call throws (the [catch] branch), the pairs
    otherwise. *)
Definition updateTokenEligibility (cfg : BotConfig) (now : Z)
    (fetched : option (list TokenPair)) (tokenAddress : string)
    (trackedTokens : gset string) : gset string * bool :=
  match fetched with
  | Some pairs =>
      let eligiblePairs := filterEligiblePairs cfg now pairs in
      if (0 <? length eligiblePairs)%nat
      then
        (if isTracked trackedTokens tokenAddress then trackedTokens
         else addToken trackedTokens tokenAddress, true)
      else (removeToken trackedTokens tokenAddress, false)
  | None => (trackedTokens, false)
  end.

End Detector.

(** ** Concrete data for the examples *)

Module Sample.

Definition digitOf (c : ascii) : option Z :=
  let n := nat_of_ascii c in
  if ((48 <=? n) && (n <=? 57))%nat then Some (Z.of_nat (n - 48)) else None.

Fixpoint readDigits (s : string) (acc : Z) (count : nat) : Z * nat * string :=
  match s with
  | String c t =>
      match digitOf c with
      | Some d => readDigits t (acc * 10 + d) (S count)
      | None => (acc, count, s)
      end
  | EmptyString => (acc, count, s)
  end.

(** A reader of plain decimal numerals (sign, digits, fraction).  The
    quotient of two exactly represented integers is correctly rounded,
    so on numerals of at most 15 significant digits this is the value
    [parseFloat] returns; text without a leading numeral gives [NaN]. *)
Definition parseDecimal (s : string) : float :=
  let '(neg, s1) :=
    match s with
    | String "-" t => (true, t)
    | String "+" t => (false, t)
    | _ => (false, s)
    end in
  let '(ip, n1, r1) := readDigits s1 0 0 in
  let '(m, n2, _) :=
    match r1 with
    | String "." t => readDigits t ip 0
    | _ => (ip, 0%nat, r1)
    end in
  if (n1 + n2 =? 0)%nat then nan
  else
    let v := (Js.ofZ m / Js.ofZ (10 ^ Z.of_nat n2))%float in
    if neg then (- v)%float else v.

(** The defaults of [Config]'s constructor; the liquidity floor is the
    $2,000 of the requirements. *)
Definition config : BotConfig :=
  {| alertThreshold25 := true;
     alertThreshold50 := true;
     minTokenAgeHours := 1%float;
     maxMarketCap := 100000000%float;
     minLiquidityUsd := 2000%float;
     isPaused := false;
     pollingIntervalMs := 10000;
     dormantVolatilityThreshold := 5%float;
     dormantVolumeThreshold := 1000%float;
     baselinePeriodMinutes := 60;
     alertCooldownMs := 30 * 60 * 1000 |}.

Definition token : BaseToken :=
  {| address := "So1anaMint"; symbol := "BAG"; name := "Bag Coin" |}.

(** A pair of [token] on venue [dex] quoting [priceText], with 5-minute
    change [change], 5-minute volume [vol] and liquidity [liq]. *)
Definition pairOn (dex : string) (priceText : string) (change vol liq : float)
  : TokenPair :=
  {| chainId := "solana";
     dexId := Some dex;
     pairAddress := "PairAddr";
     baseToken := token;
     priceUsd := Some priceText;
     fdv := Some 40000%float;
     volume_m5 := Some vol;
     volume_h24 := Some vol;
     priceChange_m5 := Some change;
     priceChange_h24 := Some change;
     liquidity_usd := Some liq;
     pairCreatedAt := Some 1700000000000 |}.

Definition quietSnapshot (t : Z) (p : float) : TokenSnapshot :=
  {| timestamp := t; price := p; marketCap := 40000%float;
     volume5m := 0%float; volume24h := 0%float; liquidity := 5000%float;
     priceChange5m := 0%float; priceChange24h := 0%float |}.

(** The state of [token] holding the snapshots [l]. *)
Definition stateWith (l : list TokenSnapshot) (stamps : AlertStamps) : TokenState :=
  {| tokenAddress := address token;
     baseTokenSymbol := symbol token;
     baseTokenName := name token;
     statePairAddress := "PairAddr";
     source := Some pumpfun;
     createdAt := Some 1700000000000;
     firstSeen := 1760000000000;
     snapshots := l;
     lastAlertTimestamp := stamps;
     lastSeenActive := 1760000000000;
     currentPair := None |}.

Definition storeWith (l : list TokenSnapshot) (stamps : AlertStamps)
  : gmap string TokenState :=
  {[ address token := stateWith l stamps ]}.

Definition t0 : Z := 1760000000000.

(** The history of scenarios A and E: three quiet snapshots at price 1
    inside the baseline window. *)
Definition quietHistory : gmap string TokenState :=
  storeWith
    [quietSnapshot (t0 - 600000) 1;
     quietSnapshot (t0 - 400000) 1;
     quietSnapshot (t0 - 200000) 1]
    noStamps.

End Sample.

(** ** The service that owns both managers

    [SpikeDetectionService] holds the [TokenUniverseManager] (the tracked
    set) and the [TokenStateManager] (the per-token states) as two
    separate members. *)

Record Service := {
  universe : gset string;
  stateManager : gmap string TokenState;
}.

Section ServiceOps.

Variable parseFloat : string -> float.

(** One [await this.tokenUniverseManager.updateTokenEligibility(tokenAddress)]
    of the discovery cycle, seen from the service. *)
Definition revalidate (cfg : BotConfig) (now : Z) (fetched : option (list TokenPair))
    (tokenAddress : string) (svc : Service) : Service * bool :=
  let '(tracked, stillEligible) :=
    updateTokenEligibility parseFloat cfg now fetched tokenAddress (universe svc) in
  ({| universe := tracked; stateManager := stateManager svc |}, stillEligible).

(** What the cycles do to the [TokenStateManager]: the monitor cycle
    evaluates a pair, the cleanup cycle drops idle states. *)
Inductive Op :=
| Evaluate (clk : Clock) (pair : TokenPair)
| Cleanup (now : Z) (maxAgeHours : Z).

Definition step (cfg : BotConfig) (op : Op) (tokens : gmap string TokenState)
  : gmap string TokenState * option SpikeAlert :=
  match op with
  | Evaluate clk p => checkForSpike parseFloat cfg clk p tokens
  | Cleanup now maxAgeHours => (cleanupOldTokens now tokens maxAgeHours, None)
  end.

(** The operations [ops] in order; the alerts they return, in order. *)
Fixpoint run (cfg : BotConfig) (ops : list Op) (tokens : gmap string TokenState)
  : gmap string TokenState * list SpikeAlert :=
  match ops with
  | [] => (tokens, [])
  | op :: rest =>
      let '(tokens, alert) := step cfg op tokens in
      let '(tokens, alerts) := run cfg rest tokens in
      (tokens, match alert with Some a => a :: alerts | None => alerts end)
  end.

(** An operation that takes place while the alert stamped at [T] is
    cooling down: an evaluation reads the clock before [T + cooldown]
    for its cooldown check and stamps its snapshot no earlier than
    [L]; a cleanup pass has its idle cutoff no later than [L]. *)
Definition inCooldownWindow (cfg : BotConfig) (T L : Z) (op : Op) : Prop :=
  match op with
  | Evaluate clk _ => clkCooldown clk < T + alertCooldownMs cfg /\ L <= clkSnapshot clk
  | Cleanup now maxAgeHours => now - maxAgeHours * 60 * 60 * 1000 <= L
  end.

(** The pair [(a, tier)] is cooling down since [T], and the state of [a]
    was active no earlier than [L]. *)
Definition cooling (a : string) (tier : Tier) (T L : Z)
    (tokens : gmap string TokenState) : Prop :=
  exists st, tokens !! a = Some st
    /\ getStamp (lastAlertTimestamp st) tier = Some T
    /\ L <= lastSeenActive st.

(** The stores the service can hold: it starts empty and is only ever
    changed by [step]. *)
Inductive Observed (cfg : BotConfig) : gmap string TokenState -> Prop :=
| observed_start : Observed cfg ∅
| observed_step op tokens :
    Observed cfg tokens -> Observed cfg (step cfg op tokens).1.

End ServiceOps.

(** The stores a [TokenStateManager] can hold through its own methods,
    whoever calls them. *)
Inductive Reachable : gmap string TokenState -> Prop :=
| reach_new : Reachable ∅
| reach_update t1 t2 tokens tokenAddress pair snapshot src :
    Reachable tokens ->
    Reachable (updateTokenState t1 t2 tokens tokenAddress pair snapshot src)
| reach_record now tokens tokenAddress tier :
    Reachable tokens -> Reachable (recordAlert now tokens tokenAddress tier)
| reach_cleanup now tokens maxAgeHours :
    Reachable tokens -> Reachable (cleanupOldTokens now tokens maxAgeHours).

(** The snapshots stored for an identity ([[]] when it has no state). *)
Definition storedSnapshots (tokens : gmap string TokenState) (tokenAddress : string)
  : list TokenSnapshot :=
  match tokens !! tokenAddress with
  | Some st => snapshots st
  | None => []
  end.

(** ** The dormancy conditions as the specification words them

    Used only to compare with [isDormant]: the drift and the step are the
    bare quotients, without the guard on the divisor. *)

Definition driftAsWorded (l : list TokenSnapshot) : float :=
  (PrimFloat.abs (price (lastOf l) - price (firstOf l)) / price (firstOf l) * 100)%float.

Definition stepAsWorded (prev curr : TokenSnapshot) : float :=
  ((price curr - price prev) / price prev * 100)%float.

Fixpoint stepsAsWorded (l : list TokenSnapshot) : bool :=
  match l with
  | prev :: (curr :: _) as rest =>
      (stepAsWorded prev curr <=? 10)%float && stepsAsWorded rest
  | _ => true
  end.

Definition dormantAsWorded (l : list TokenSnapshot)
    (volatilityThreshold volumeThreshold : float) : bool :=
  (3 <=? length l)%nat
  && (totalVolume l <? volumeThreshold)%float
  && (driftAsWorded l <? volatilityThreshold)%float
  && stepsAsWorded l.

(** ** ErrorHandler *)

Module ErrorHandler.

Inductive Outcome (T E : Type) :=
| Returned (value : T)
| Thrown (error : E).
Arguments Returned {T E} value.
Arguments Thrown {T E} error.

(** Whether an invocation ended in the [catch] branch. *)
Definition threw {T E} (o : Outcome T E) : bool :=
  match o with
  | Returned _ => false
  | Thrown _ => true
  end.

(** What a call of [retry] does, in order. *)
Inductive Event (E : Type) :=
| Invoke (attempt : Z)
| OnError (error : E) (attempt : Z)
| Warn (attempt : Z) (delay : Z)
| Delay (ms : Z).
Arguments Invoke {E} attempt.
Arguments OnError {E} error attempt.
Arguments Warn {E} attempt delay.
Arguments Delay {E} ms.

Section Retry.

Context {T E : Type}.

(** Truthiness of a thrown value, and the value of
    [new Error('Retry failed with unknown error')]. *)
Variable truthy : E -> bool.
Variable unknownError : E.

(** [fn attempt] is the outcome of the invocation of the operation
    made in iteration [attempt].  [hasOnError] tells whether the
    optional callback was passed; it is a logging callback and
    returns normally. *)
Variable fn : Z -> Outcome T E.
Variable hasOnError : bool.
Variables maxRetries initialDelayMs : Z.

Definition onErrorEvents (error : E) (attempt : Z) : list (Event E) :=
  if hasOnError then [OnError error attempt] else [].

(** [if (attempt < maxRetries) { delay = initialDelayMs * 2^(attempt-1); warn; await delay }] *)
Definition backoffEvents (attempt : Z) : list (Event E) :=
  if attempt <? maxRetries
  then
    let delay := initialDelayMs * 2 ^ (attempt - 1) in
    [Warn attempt delay; Delay delay]
  else [].

(** [throw lastError || new Error(...)] *)
Definition finalThrow (lastError : option E) : E :=
  match lastError with
  | Some e => if truthy e then e else unknownError
  | None => unknownError
  end.

(** The loop [for (attempt = ...; attempt <= maxRetries; attempt++)]
    with [remaining] iterations to go. *)
Fixpoint retryLoop (remaining : nat) (attempt : Z) (lastError : option E)
  : list (Event E) * Outcome T E :=
  match remaining with
  | O => ([], Thrown (finalThrow lastError))
  | S k =>
      match fn attempt with
      | Returned value => ([Invoke attempt], Returned value)
      | Thrown error =>
          let '(events, result) := retryLoop k (attempt + 1) (Some error) in
          (Invoke attempt :: onErrorEvents error attempt ++ backoffEvents attempt ++ events,
           result)
      end
  end.

(** [attempt] runs from [1] while [attempt <= maxRetries]. *)
Definition retry : list (Event E) * Outcome T E :=
  retryLoop (Z.to_nat maxRetries) 1 None.

End Retry.

(** The attempt numbers [first, first + 1, ...], [count] of them. *)
Fixpoint attempts (first : Z) (count : nat) : list Z :=
  match count with
  | O => []
  | S c => first :: attempts (first + 1) c
  end.

(** What the specification says of an attempt that fails: the operation
    is invoked, the hook (if any) is called with the error and the
    attempt number, and, if attempts remain, the call is suspended for
    [baseDelay * 2^(attempt - 1)]. *)
Definition failedAttempt {E} (hasOnError : bool) (maxRetries initialDelayMs : Z)
    (error : E) (attempt : Z) : list (Event E) :=
  [Invoke attempt]
  ++ (if hasOnError then [OnError error attempt] else [])
  ++ (if attempt <? maxRetries
      then [Warn attempt (initialDelayMs * 2 ^ (attempt - 1));
            Delay (initialDelayMs * 2 ^ (attempt - 1))]
      else []).

Definition invocations {E} (events : list (Event E)) : list Z :=
  omap (fun ev => match ev with Invoke a => Some a | _ => None end) events.

Definition delays {E} (events : list (Event E)) : list Z :=
  omap (fun ev => match ev with Delay d => Some d | _ => None end) events.

Definition hookCalls {E} (events : list (Event E)) : list (E * Z) :=
  omap (fun ev => match ev with OnError e a => Some (e, a) | _ => None end) events.

End ErrorHandler.

(** ** DexScreenerService, the remaining methods *)

(** [private readonly MAX_MARKET_CAP = 100000] *)
Definition MAX_MARKET_CAP : float := 100000%float.

(** [filterByMarketCap]: [marketCap > 0 && marketCap < maxMarketCap]. *)
Definition filterByMarketCap (pairs : list TokenPair) (maxMarketCap : float)
  : list TokenPair :=
  List.filter
    (fun pair =>
       let marketCap := Js.optOrZero (fdv pair) in
       (0 <? marketCap)%float && (marketCap <? maxMarketCap)%float)
    pairs.

(** [filterByAge]: a pair without creation timestamp is skipped. *)
Definition filterByAge (now : Z) (pairs : list TokenPair) (minAgeHours : float)
  : list TokenPair :=
  let minAgeMs := (minAgeHours * 60 * 60 * 1000)%float in
  List.filter
    (fun pair =>
       if negb (Js.truthyZ (pairCreatedAt pair)) then false
       else
         let age := now - default 0 (pairCreatedAt pair) in
         (minAgeMs <=? Js.ofZ age)%float)
    pairs.

(** The callback of the [reduce] in [getPrimaryPair]. *)
Definition moreLiquid (prev current : TokenPair) : TokenPair :=
  let prevLiquidity := Js.optOrZero (liquidity_usd prev) in
  let currentLiquidity := Js.optOrZero (liquidity_usd current) in
  if (prevLiquidity <? currentLiquidity)%float then current else prev.

(** [getPrimaryPair], on the pairs [getTokenPairs] returned: [null] on
    the empty list, else [pairs.reduce(...)] started at [pairs[0]]. *)
Definition getPrimaryPair (pairs : list TokenPair) : option TokenPair :=
  match pairs with
  | [] => None
  | first :: rest => Some (fold_left moreLiquid rest first)
  end.

(** [searchPairs], on the SDK's answer ([None] when the response or its
    [pairs] member is missing): the Solana pairs, in order. *)
Definition searchPairs (response : option (list TokenPair)) : list TokenPair :=
  match response with
  | None => []
  | Some pairs => List.filter (fun pair => String.eqb (chainId pair) "solana") pairs
  end.

(** The loop header [for (let i = 0; i < l.length; i += size)] with the
    body's [l.slice(i, i + size)]: the slices, in order.  With
    [size > 0] the loop runs at most [l.length] times. *)
Fixpoint slicesFrom {A : Type} (fuel size i : nat) (l : list A) : list (list A) :=
  match fuel with
  | O => []
  | S fuel' =>
      if (i <? length l)%nat
      then firstn size (skipn i l) :: slicesFrom fuel' size (i + size) l
      else []
  end.

Definition slices {A : Type} (size : nat) (l : list A) : list (list A) :=
  slicesFrom (length l) size 0 l.

(** What [getMultipleTokenPairs] does, in order. *)
Inductive FetchEvent :=
| Request (addresses : string)
| Pause (ms : Z).

(** The body of the loop of [getMultipleTokenPairs] over the slices that
    remain; [fetch k s] is the outcome of the [k]-th call of
    [getPairsByTokenAddresses], made with the address string [s]
    ([Returned None] for a [null] answer). *)
Fixpoint fetchBatches {E : Type}
    (fetch : nat -> string -> ErrorHandler.Outcome (option (list TokenPair)) E)
    (k : nat) (batches : list (list string)) (allPairs : list TokenPair)
  : list FetchEvent * ErrorHandler.Outcome (list TokenPair) E :=
  match batches with
  | [] => ([], ErrorHandler.Returned allPairs)
  | batch :: rest =>
      let addressesString := String.concat "," batch in
      match fetch k addressesString with
      | ErrorHandler.Thrown error => ([Request addressesString], ErrorHandler.Thrown error)
      | ErrorHandler.Returned pairs =>
          let allPairs := allPairs ++ default [] pairs in
          let pause := match rest with [] => [] | _ => [Pause 200] end in
          let '(events, result) := fetchBatches fetch (S k) rest allPairs in
          (Request addressesString :: pause ++ events, result)
      end
  end.

Definition getMultipleTokenPairs {E : Type}
    (fetch : nat -> string -> ErrorHandler.Outcome (option (list TokenPair)) E)
    (tokenAddresses : list string)
  : list FetchEvent * ErrorHandler.Outcome (list TokenPair) E :=
  fetchBatches fetch 0 (slices 30 tokenAddresses) [].

Definition requestsOf (events : list FetchEvent) : list string :=
  omap (fun ev => match ev with Request s => Some s | _ => None end) events.

Definition pausesOf (events : list FetchEvent) : list Z :=
  omap (fun ev => match ev with Pause ms => Some ms | _ => None end) events.

(** The outcomes of the provider calls that the batches would get, were
    they all made: the [k]-th call is made with the [k]-th address
    string. *)
Fixpoint outcomesFrom {E : Type}
    (fetch : nat -> string -> ErrorHandler.Outcome (option (list TokenPair)) E)
    (k : nat) (batches : list (list string))
  : list (ErrorHandler.Outcome (option (list TokenPair)) E) :=
  match batches with
  | [] => []
  | batch :: rest => fetch k (String.concat "," batch) :: outcomesFrom fetch (S k) rest
  end.

(** What [if (pairs && pairs.length > 0) allPairs.push(...pairs)] appends
    for an answer. *)
Definition answered {E : Type} (o : ErrorHandler.Outcome (option (list TokenPair)) E)
  : list TokenPair :=
  match o with
  | ErrorHandler.Returned pairs => default [] pairs
  | ErrorHandler.Thrown _ => []
  end.

(** ** RateLimiter

    The member [requests : number[]] is the state; [maxRequests] and
    [windowMs] are the constructor's arguments. *)

Module RateLimiter.

(** [this.requests.filter((timestamp) => now - timestamp < this.windowMs)] *)
Definition prune (windowMs now : Z) (requests : list Z) : list Z :=
  List.filter (fun timestamp => now - timestamp <? windowMs) requests.

Definition canMakeRequest (maxRequests windowMs now : Z) (requests : list Z)
  : list Z * bool :=
  let requests := prune windowMs now requests in
  (requests, Z.of_nat (length requests) <? maxRequests).


Definition getRemainingRequests (maxRequests windowMs now : Z) (requests : list Z)
  : list Z * Z :=
  let requests := prune windowMs now requests in
  (requests, Z.max 0 (maxRequests - Z.of_nat (length requests))).

(** [Math.min(...this.requests)]; [None] stands for the [Infinity] of an
    empty argument list. *)
Definition oldestRequest (requests : list Z) : option Z :=
  match requests with
  | [] => None
  | first :: rest => Some (fold_left Z.min rest first)
  end.

(** [waitForAvailability].  Each turn of the [while] loop reads the clock
    twice, in [canMakeRequest] and in the computation of [waitTime]:
    [readings] lists these pairs, turn by turn.  The result is the pruned
    log and the delays awaited ([None] for an infinite one), or [None]
    when the loop is still running after the last reading. *)
Fixpoint waitForAvailability (maxRequests windowMs : Z) (readings : list (Z * Z))
    (requests : list Z) : option (list Z * list (option Z)) :=
  match readings with
  | [] => None
  | (nowCheck, nowCompute) :: later =>
      let '(requests, ok) := canMakeRequest maxRequests windowMs nowCheck requests in
      if ok then Some (requests, [])
      else
        let slept :=
          match oldestRequest requests with
          | None => [None]
          | Some oldest =>
              let waitTime := windowMs - (nowCompute - oldest) + 100 in
              if 0 <? waitTime then [Some waitTime] else []
          end in
        match waitForAvailability maxRequests windowMs later requests with
        | Some (requests, delays) => Some (requests, slept ++ delays)
        | None => None
        end
  end.






End RateLimiter.

(** ** Config, the setters *)

Module Config.

(** The argument ['25' | '50'] of [setAlertThreshold]. *)
Inductive ThresholdTier := threshold25 | threshold50.

Definition withPaused (cfg : BotConfig) (paused : bool) : BotConfig :=
  {| alertThreshold25 := alertThreshold25 cfg; alertThreshold50 := alertThreshold50 cfg;
     minTokenAgeHours := minTokenAgeHours cfg; maxMarketCap := maxMarketCap cfg;
     minLiquidityUsd := minLiquidityUsd cfg; isPaused := paused;
     pollingIntervalMs := pollingIntervalMs cfg;
     dormantVolatilityThreshold := dormantVolatilityThreshold cfg;
     dormantVolumeThreshold := dormantVolumeThreshold cfg;
     baselinePeriodMinutes := baselinePeriodMinutes cfg;
     alertCooldownMs := alertCooldownMs cfg |}.

Definition pause (cfg : BotConfig) : BotConfig := withPaused cfg true.
Definition resume (cfg : BotConfig) : BotConfig := withPaused cfg false.

(** [setMinTokenAge]: [None] is the thrown
    ['Minimum token age must be non-negative']. *)
Definition setMinTokenAge (hours : float) (cfg : BotConfig) : option BotConfig :=
  if (hours <? 0)%float then None
  else
    Some {| alertThreshold25 := alertThreshold25 cfg; alertThreshold50 := alertThreshold50 cfg;
            minTokenAgeHours := hours; maxMarketCap := maxMarketCap cfg;
            minLiquidityUsd := minLiquidityUsd cfg; isPaused := isPaused cfg;
            pollingIntervalMs := pollingIntervalMs cfg;
            dormantVolatilityThreshold := dormantVolatilityThreshold cfg;
            dormantVolumeThreshold := dormantVolumeThreshold cfg;
            baselinePeriodMinutes := baselinePeriodMinutes cfg;
            alertCooldownMs := alertCooldownMs cfg |}.

Definition setAlertThreshold (tier : ThresholdTier) (enabled : bool) (cfg : BotConfig)
  : BotConfig :=
  match tier with
  | threshold25 =>
      {| alertThreshold25 := enabled; alertThreshold50 := alertThreshold50 cfg;
         minTokenAgeHours := minTokenAgeHours cfg; maxMarketCap := maxMarketCap cfg;
         minLiquidityUsd := minLiquidityUsd cfg; isPaused := isPaused cfg;
         pollingIntervalMs := pollingIntervalMs cfg;
         dormantVolatilityThreshold := dormantVolatilityThreshold cfg;
         dormantVolumeThreshold := dormantVolumeThreshold cfg;
         baselinePeriodMinutes := baselinePeriodMinutes cfg;
         alertCooldownMs := alertCooldownMs cfg |}
  | threshold50 =>
      {| alertThreshold25 := alertThreshold25 cfg; alertThreshold50 := enabled;
         minTokenAgeHours := minTokenAgeHours cfg; maxMarketCap := maxMarketCap cfg;
         minLiquidityUsd := minLiquidityUsd cfg; isPaused := isPaused cfg;
         pollingIntervalMs := pollingIntervalMs cfg;
         dormantVolatilityThreshold := dormantVolatilityThreshold cfg;
         dormantVolumeThreshold := dormantVolumeThreshold cfg;
         baselinePeriodMinutes := baselinePeriodMinutes cfg;
         alertCooldownMs := alertCooldownMs cfg |}
  end.

(** The calls the command handlers make on the configuration. *)
Inductive Call :=
| CallPause
| CallResume
| CallSetAlertThreshold (tier : ThresholdTier) (enabled : bool)
| CallSetMinTokenAge (hours : float).

(** A call and the configuration it leaves; a throwing [setMinTokenAge]
    leaves it as it was. *)
Definition call (c : Call) (cfg : BotConfig) : BotConfig :=
  match c with
  | CallPause => pause cfg
  | CallResume => resume cfg
  | CallSetAlertThreshold tier enabled => setAlertThreshold tier enabled cfg
  | CallSetMinTokenAge hours => default cfg (setMinTokenAge hours cfg)
  end.

Definition calls (cs : list Call) (cfg : BotConfig) : BotConfig :=
  fold_left (fun cfg c => call c cfg) cs cfg.

End Config.

(** ** TokenUniverseManager.discoverTokens and the discovery cycle *)

Section Discovery.

Variable parseFloat : string -> float.

(** The loop [for (const pair of eligiblePairs)] of one search phase:
    an address is added when the pair's source is the one searched for
    and the address is not tracked yet. *)
Fixpoint addDiscovered (wanted : Source) (eligiblePairs : list TokenPair)
    (trackedTokens : gset string) (discoveredTokens : list string)
  : gset string * list string :=
  match eligiblePairs with
  | [] => (trackedTokens, discoveredTokens)
  | p :: rest =>
      let tokenAddress := address (baseToken p) in
      if bool_decide (getTokenSource p = Some wanted)
         && negb (isTracked trackedTokens tokenAddress)
      then addDiscovered wanted rest (addToken trackedTokens tokenAddress)
             (discoveredTokens ++ [tokenAddress])
      else addDiscovered wanted rest trackedTokens discoveredTokens
  end.

(** One [try { ... } catch] phase; [found] is the outcome of
    [this.dexScreenerService.searchPairs(query)], [None] when it throws. *)
Definition discoverPhase (cfg : BotConfig) (now : Z) (wanted : Source)
    (found : option (list TokenPair))
    (trackedTokens : gset string) (discoveredTokens : list string)
  : gset string * list string :=
  match found with
  | None => (trackedTokens, discoveredTokens)
  | Some pairs =>
      addDiscovered wanted (filterEligiblePairs parseFloat cfg now pairs)
        trackedTokens discoveredTokens
  end.

Definition discoverTokens (cfg : BotConfig) (nowPump nowBonk : Z)
    (foundPump foundBonk : option (list TokenPair)) (trackedTokens : gset string)
  : gset string * list string :=
  let '(trackedTokens, discoveredTokens) :=
    discoverPhase cfg nowPump pumpfun foundPump trackedTokens [] in
  discoverPhase cfg nowBonk bonk foundBonk trackedTokens discoveredTokens.

(** The loop [for (const tokenAddress of existingTokens)] of the
    service's discovery cycle: each visit is an address with the clock
    reading and the provider outcome of its [updateTokenEligibility];
    the count is [updatedCount]. *)
Fixpoint revalidateAll (cfg : BotConfig)
    (visits : list (string * Z * option (list TokenPair))) (svc : Service)
  : Service * nat :=
  match visits with
  | [] => (svc, 0%nat)
  | (tokenAddress, now, fetched) :: rest =>
      let '(svc, stillEligible) := revalidate parseFloat cfg now fetched tokenAddress svc in
      let '(svc, updatedCount) := revalidateAll cfg rest svc in
      (svc, if stillEligible then updatedCount else S updatedCount)
  end.

End Discovery.

(** ** Orderings used to state the invariants *)

(** The snapshots are in non-decreasing order of timestamp. *)
Definition chronological (l : list TokenSnapshot) : Prop :=
  StronglySorted (fun s1 s2 => timestamp s1 <= timestamp s2) l.

(** Every stored sequence is chronological and ends no later than [t]. *)
Definition orderedUpTo (t : Z) (tokens : gmap string TokenState) : Prop :=
  forall a st, tokens !! a = Some st ->
    chronological (snapshots st)
    /\ Forall (fun s => timestamp s <= t) (snapshots st).

(** The snapshot clock of the evaluations in [ops] never goes back,
    starting from [t]. *)
Fixpoint risingFrom (t : Z) (ops : list Op) : Prop :=
  match ops with
  | [] => True
  | Evaluate clk _ :: rest => t <= clkSnapshot clk /\ risingFrom (clkSnapshot clk) rest
  | Cleanup _ _ :: rest => risingFrom t rest
  end.

(** An evaluation whose snapshot shows no activity. *)
Definition quietPoll (parseFloat : string -> float) (op : Op) : Prop :=
  match op with
  | Evaluate clk p => showsActivity (snapshotOf parseFloat (clkSnapshot clk) p) = false
  | Cleanup _ _ => False
  end.

(** The clock readings of a call lie in a span shorter than [span] that
    starts at [lo]. *)
Definition withinSpan (lo span : Z) (clk : Clock) : Prop :=
  lo <= clkSnapshot clk /\ lo <= clkRecord clk /\ clkCooldown clk < lo + span.

(** What an alert is about. *)
Definition alertKey (alert : SpikeAlert) : string * Tier :=
  (alertTokenAddress alert, alertTier alert).

(** ** The revalidation pass, visit by visit *)

Definition visitAddress (visit : string * Z * option (list TokenPair)) : string :=
  visit.1.1.

(** The provider call of the visit threw. *)
Definition visitFailed (visit : string * Z * option (list TokenPair)) : bool :=
  match visit.2 with None => true | Some _ => false end.

(** The provider answered and none of the pairs is eligible. *)
Definition visitDrops (parseFloat : string -> float) (cfg : BotConfig)
    (visit : string * Z * option (list TokenPair)) : bool :=
  match visit.2 with
  | Some pairs => negb (0 <? length (filterEligiblePairs parseFloat cfg visit.1.2 pairs))%nat
  | None => false
  end.

(** ** Facts on binary64 comparisons *)

Section FloatFacts.

Local Open Scope float_scope.

Lemma SFcompare_antisym (x y : spec_float) :
  SFcompare y x = option_map CompOpp (SFcompare x y).
Proof.
  destruct x as [sx|sx| |sx mx ex], y as [sy|sy| |sy my ey]; simpl;
    try (destruct sx); try (destruct sy); simpl; try reflexivity.
  all: f_equal; rewrite (Z.compare_antisym ex ey);
    destruct (ex ?= ey)%Z; simpl; try reflexivity.
  all: rewrite !Pos.compare_cont_spec; simpl;
    rewrite (Pos.compare_antisym mx my);
    destruct (mx ?= my)%positive; reflexivity.
Qed.

Lemma SFcompare_None (x y : spec_float) :
  SFcompare x y = None -> x = S754_nan \/ y = S754_nan.
Proof.
  destruct x as [sx|sx| |sx mx ex], y as [sy|sy| |sy my ey]; simpl;
    intros H; try discriminate H; auto.
Qed.

Lemma is_nan_false (x : float) : is_nan x = false -> Prim2SF x <> S754_nan.
Proof.
  unfold is_nan. rewrite FloatAxioms.eqb_spec. intros H Hx. rewrite Hx in H. discriminate H.
Qed.

(** [x < y] excludes [y <= x]. *)
Lemma ltb_not_leb (x y : float) : (x <? y) = true -> (y <=? x) = false.
Proof.
  rewrite FloatAxioms.ltb_spec, FloatAxioms.leb_spec. unfold SFltb, SFleb.
  rewrite (SFcompare_antisym (Prim2SF x) (Prim2SF y)).
  destruct (SFcompare (Prim2SF x) (Prim2SF y)) as [[]|]; simpl; congruence.
Qed.

(** On numbers, the failure of [y <= x] is [x < y]. *)
Lemma not_leb_ltb (x y : float) :
  is_nan x = false -> is_nan y = false -> (y <=? x) = false -> (x <? y) = true.
Proof.
  intros Hx%is_nan_false Hy%is_nan_false.
  rewrite FloatAxioms.ltb_spec, FloatAxioms.leb_spec. unfold SFltb, SFleb.
  rewrite (SFcompare_antisym (Prim2SF x) (Prim2SF y)).
  destruct (SFcompare (Prim2SF x) (Prim2SF y)) as [[]|] eqn:Hc; simpl; try congruence.
  destruct (SFcompare_None _ _ Hc); contradiction.
Qed.

Lemma leb_not_ltb (x y : float) : (x <=? y) = true -> (y <? x) = false.
Proof.
  intros H. destruct (y <? x) eqn:Hlt; [|reflexivity].
  apply ltb_not_leb in Hlt. congruence.
Qed.

(** A change of at least 25 (percent) is an activity: its magnitude
    exceeds 1. *)
Lemma leb25_active (x : float) : (25 <=? x) = true -> (1 <? abs x) = true.
Proof.
  rewrite FloatAxioms.leb_spec, FloatAxioms.ltb_spec, FloatAxioms.abs_spec.
  change (Prim2SF 25) with (S754_finite false 7036874417766400 (-48)).
  change (Prim2SF 1) with (S754_finite false 4503599627370496 (-52)).
  destruct (Prim2SF x) as [s|s| |s m e];
    cbv beta iota delta [SFleb SFltb SFcompare SFabs];
    try congruence; try (destruct s; congruence).
  destruct s; [congruence|].
  destruct (Z.compare_spec (-48) e) as [He|He|He]; [| |congruence]; intros _.
  - subst e. reflexivity.
  - destruct (Z.compare_spec (-52) e) as [He'|He'|He']; [lia|reflexivity|lia].
Qed.

Lemma leb50_leb25 (x : float) : (50 <=? x) = true -> (25 <=? x) = true.
Proof.
  rewrite !FloatAxioms.leb_spec.
  change (Prim2SF 25) with (S754_finite false 7036874417766400 (-48)).
  change (Prim2SF 50) with (S754_finite false 7036874417766400 (-47)).
  destruct (Prim2SF x) as [s|s| |s m e];
    cbv beta iota delta [SFleb SFcompare];
    try congruence; try (destruct s; congruence).
  destruct s; [congruence|].
  destruct (Z.compare_spec (-47) e) as [He|He|He]; [| |congruence]; intros _.
  - subst e. reflexivity.
  - destruct (Z.compare_spec (-48) e) as [He'|He'|He']; [lia|reflexivity|lia].
Qed.

End FloatFacts.

(** ** TokenStateManager: what each method does to the store *)

Section StoreFacts.

Implicit Types (tokens : gmap string TokenState) (st : TokenState).

Lemma pushSnapshot_length l snapshot :
  (length l <= maxSnapshotsPerToken)%nat ->
  (length (pushSnapshot l snapshot) <= maxSnapshotsPerToken)%nat.
Proof.
  intros Hl. unfold pushSnapshot.
  destruct (Nat.ltb_spec maxSnapshotsPerToken (length (l ++ [snapshot]))) as [Hgt|Hle].
  - rewrite length_tl, length_app. simpl. lia.
  - exact Hle.
Qed.

Lemma pushSnapshot_room l snapshot :
  (length l < maxSnapshotsPerToken)%nat -> pushSnapshot l snapshot = l ++ [snapshot].
Proof.
  intros Hl. unfold pushSnapshot.
  destruct (Nat.ltb_spec maxSnapshotsPerToken (length (l ++ [snapshot]))) as [Hgt|Hle];
    [|reflexivity].
  rewrite length_app in Hgt. simpl in Hgt. lia.
Qed.

Lemma pushSnapshot_full l snapshot :
  length l = maxSnapshotsPerToken -> pushSnapshot l snapshot = tl l ++ [snapshot].
Proof.
  intros Hl. unfold pushSnapshot.
  destruct (Nat.ltb_spec maxSnapshotsPerToken (length (l ++ [snapshot]))) as [Hgt|Hle].
  - destruct l as [|x l]; [discriminate Hl|reflexivity].
  - rewrite length_app in Hle. simpl in Hle. lia.
Qed.

Lemma updateTokenState_lookup t1 t2 tokens a pair snapshot src :
  exists st',
    updateTokenState t1 t2 tokens a pair snapshot src !! a = Some st'
    /\ snapshots st' = pushSnapshot (storedSnapshots tokens a) snapshot
    /\ source st' = source (priorState t1 t2 tokens a pair src)
    /\ lastAlertTimestamp st' = lastAlertTimestamp (priorState t1 t2 tokens a pair src)
    /\ lastSeenActive st' =
         (if showsActivity snapshot then timestamp snapshot
          else lastSeenActive (priorState t1 t2 tokens a pair src)).
Proof.
  unfold updateTokenState, priorState, storedSnapshots.
  eexists. split; [apply lookup_insert_eq|].
  destruct (tokens !! a) as [st|]; [unfold backfillSource; destruct (source st), src|];
    destruct (showsActivity snapshot); simpl; auto.
Qed.

Lemma updateTokenState_other t1 t2 tokens a b pair snapshot src :
  a <> b -> updateTokenState t1 t2 tokens a pair snapshot src !! b = tokens !! b.
Proof. intros Hne. unfold updateTokenState. apply lookup_insert_ne, Hne. Qed.

Lemma recordAlert_lookup now tokens a tier st :
  tokens !! a = Some st ->
  recordAlert now tokens a tier !! a
  = Some (withLastAlert st (setStamp (lastAlertTimestamp st) tier now)).
Proof. intros H. unfold recordAlert. rewrite H. apply lookup_insert_eq. Qed.

Lemma recordAlert_other now tokens a b tier :
  a <> b -> recordAlert now tokens a tier !! b = tokens !! b.
Proof.
  intros Hne. unfold recordAlert.
  destruct (tokens !! a); [apply lookup_insert_ne, Hne|reflexivity].
Qed.

Lemma recordAlert_snapshots now tokens a b tier :
  storedSnapshots (recordAlert now tokens a tier) b = storedSnapshots tokens b.
Proof.
  unfold storedSnapshots. destruct (decide (a = b)) as [->|Hne].
  - destruct (tokens !! b) as [st|] eqn:Hb.
    + rewrite (recordAlert_lookup _ _ _ _ _ Hb). reflexivity.
    + unfold recordAlert. rewrite Hb, Hb. reflexivity.
  - rewrite (recordAlert_other _ _ _ _ _ Hne). reflexivity.
Qed.

Lemma cleanupOldTokens_lookup now tokens maxAgeHours a st :
  cleanupOldTokens now tokens maxAgeHours !! a = Some st ->
  tokens !! a = Some st.
Proof.
  unfold cleanupOldTokens. intros H.
  apply map_lookup_filter_Some in H. apply H.
Qed.

Lemma cleanupOldTokens_keeps now tokens maxAgeHours a st :
  tokens !! a = Some st ->
  now - maxAgeHours * 60 * 60 * 1000 <= lastSeenActive st ->
  cleanupOldTokens now tokens maxAgeHours !! a = Some st.
Proof.
  intros Ha Hfresh. unfold cleanupOldTokens.
  apply map_lookup_filter_Some. split; [exact Ha|]. simpl. lia.
Qed.

(** The capacity bound is an invariant of the manager. *)
Lemma reachable_bounded tokens :
  Reachable tokens ->
  forall a, (length (storedSnapshots tokens a) <= maxSnapshotsPerToken)%nat.
Proof.
  induction 1 as [|t1 t2 tokens a0 pair snapshot src _ IH
                  |now tokens a0 tier _ IH|now tokens h _ IH]; intros a.
  - unfold storedSnapshots. rewrite lookup_empty. simpl. lia.
  - destruct (decide (a0 = a)) as [->|Hne].
    + destruct (updateTokenState_lookup t1 t2 tokens a pair snapshot src)
        as (st' & Hst' & Hsn & _).
      unfold storedSnapshots at 1. rewrite Hst', Hsn.
      apply pushSnapshot_length, IH.
    + unfold storedSnapshots at 1.
      rewrite (updateTokenState_other _ _ _ _ _ _ _ _ Hne). apply IH.
  - rewrite recordAlert_snapshots. apply IH.
  - unfold storedSnapshots at 1.
    destruct (cleanupOldTokens now tokens h !! a) as [st|] eqn:Hc; [|simpl; lia].
    apply cleanupOldTokens_lookup in Hc.
    specialize (IH a). unfold storedSnapshots in IH. rewrite Hc in IH. exact IH.
Qed.

End StoreFacts.

(** ** Capacity of the snapshot sequence *)

(** C6.  In every store the manager can hold, an [updateTokenState] call
    leaves at most [maxSnapshotsPerToken] = 144 snapshots under every
    identity; under the updated identity the new sequence is the old one
    with the snapshot appended, minus its oldest element when the old one
    was full; the sequences of the other identities are the same. *)
Theorem snapshots_capacity_fifo
    (tokens : gmap string TokenState) (t1 t2 : Z) (a : string)
    (pair : TokenPair) (snapshot : TokenSnapshot) (src : option Source) :
  Reachable tokens ->
  let tokens' := updateTokenState t1 t2 tokens a pair snapshot src in
  let old := storedSnapshots tokens a in
  (forall b, (length (storedSnapshots tokens' b) <= 144)%nat)
  /\ storedSnapshots tokens' a
     = (if (length old <? 144)%nat then old ++ [snapshot] else tl old ++ [snapshot])
  /\ (forall b, b <> a -> storedSnapshots tokens' b = storedSnapshots tokens b).
Proof.
  intros Hreach tokens' old. split; [|split].
  - apply (reachable_bounded tokens'). apply reach_update, Hreach.
  - destruct (updateTokenState_lookup t1 t2 tokens a pair snapshot src)
      as (st' & Hst' & Hsn & _).
    unfold storedSnapshots at 1. fold tokens' in Hst'. rewrite Hst', Hsn. fold old.
    pose proof (reachable_bounded tokens Hreach a) as Hbound. fold old in Hbound.
    change maxSnapshotsPerToken with 144%nat in Hbound.
    destruct (Nat.ltb_spec (length old) 144) as [Hlt|Hge].
    + apply pushSnapshot_room. exact Hlt.
    + apply pushSnapshot_full. change maxSnapshotsPerToken with 144%nat. lia.
  - intros b Hne. unfold storedSnapshots, tokens'.
    rewrite updateTokenState_other by congruence. reflexivity.
Qed.

Lemma snapshots_capacity_fifo_witness :
  let pair := Sample.pairOn "pumpfun" "1.0" 0 0 5000 in
  let a := address Sample.token in
  let s1 := Sample.quietSnapshot Sample.t0 1 in
  let s2 := Sample.quietSnapshot (Sample.t0 + 10000) 1 in
  let tokens := updateTokenState Sample.t0 Sample.t0 ∅ a pair s1 (Some pumpfun) in
  let tokens' := updateTokenState Sample.t0 Sample.t0 tokens a pair s2 (Some pumpfun) in
  Reachable tokens
  /\ (forall b, (length (storedSnapshots tokens' b) <= 144)%nat)
  /\ storedSnapshots tokens' a = [s1; s2].
Proof.
  intros pair a s1 s2 tokens tokens'.
  assert (Hreach : Reachable tokens) by (apply reach_update, reach_new).
  split; [exact Hreach|].
  destruct (snapshots_capacity_fifo tokens Sample.t0 Sample.t0 a pair s2 (Some pumpfun) Hreach)
    as (Hbound & Hfifo & _).
  split; [exact Hbound|exact Hfifo].
Defined.

(** At capacity the oldest snapshot leaves and the order is kept. *)
Example pushSnapshot_evicts_oldest :
  let mk := fun i => Sample.quietSnapshot (Z.of_nat i) 1 in
  pushSnapshot (List.map mk (seq 0 144)) (mk 144%nat) = List.map mk (seq 1 144).
Proof. vm_compute. reflexivity. Qed.

(** ** SpikeDetector: the paths through [checkForSpike] *)

Section DetectorFacts.

Variable parseFloat : string -> float.
Implicit Types (tokens : gmap string TokenState) (cfg : BotConfig) (clk : Clock).

Local Abbreviation check := (checkForSpike parseFloat).
Local Abbreviation dormancyGate := (dormancyGate parseFloat).
Local Abbreviation tierGate := (tierGate parseFloat).

Lemma checkForSpike_unverified cfg clk pair tokens :
  getTokenSource pair = None -> check cfg clk pair tokens = (tokens, None).
Proof. intros H. unfold checkForSpike. rewrite H. reflexivity. Qed.

Lemma checkForSpike_fired cfg clk pair tokens alert :
  (check cfg clk pair tokens).2 = Some alert ->
  is_Some (getTokenSource pair)
  /\ meetsBasicCriteria parseFloat cfg pair = true
  /\ dormancyGate cfg clk pair tokens = true
  /\ tierGate cfg clk pair tokens = Some (alertTier alert)
  /\ (check cfg clk pair tokens).1
     = recordAlert (clkRecord clk) (storeAtGates parseFloat clk pair tokens)
         (address (baseToken pair)) (alertTier alert)
  /\ alertTokenAddress alert = address (baseToken pair).
Proof.
  unfold checkForSpike, dormancyGate, tierGate, storeAtGates.
  destruct (getTokenSource pair) as [src|]; [|discriminate].
  destruct (meetsBasicCriteria parseFloat cfg pair); [|discriminate]. simpl negb. cbv iota.
  destruct (isDormant _ _ _ _ _ _); [|discriminate]. simpl negb. cbv iota.
  destruct (selectTier _ _ _ _ _) as [tier|]; [|discriminate].
  simpl. intros [= <-]. simpl. eauto 10.
Qed.

Lemma checkForSpike_quiet cfg clk pair tokens :
  (check cfg clk pair tokens).2 = None ->
  (check cfg clk pair tokens).1 = tokens
  \/ (check cfg clk pair tokens).1 = storeAtGates parseFloat clk pair tokens.
Proof.
  unfold checkForSpike, storeAtGates.
  destruct (getTokenSource pair) as [src|]; [|left; reflexivity].
  destruct (meetsBasicCriteria parseFloat cfg pair); [|right; reflexivity].
  simpl negb. cbv iota.
  destruct (isDormant _ _ _ _ _ _); [|right; reflexivity]. simpl negb. cbv iota.
  destruct (selectTier _ _ _ _ _) as [tier|]; [discriminate|right; reflexivity].
Qed.

Lemma checkForSpike_gates_passed cfg clk pair tokens :
  is_Some (getTokenSource pair) ->
  meetsBasicCriteria parseFloat cfg pair = true ->
  dormancyGate cfg clk pair tokens = true ->
  alertTier <$> (check cfg clk pair tokens).2 = tierGate cfg clk pair tokens.
Proof.
  unfold checkForSpike, dormancyGate, tierGate, storeAtGates.
  intros [src ->] -> ->. simpl negb. cbv iota.
  destruct (selectTier _ _ _ _ _) as [tier|]; reflexivity.
Qed.

(** Recording a snapshot leaves the cooldown stamps as they are. *)
Lemma isInCooldown_updateTokenState now t1 t2 tokens a b pair snapshot src tier cd :
  isInCooldown now (updateTokenState t1 t2 tokens a pair snapshot src) b tier cd
  = isInCooldown now tokens b tier cd.
Proof.
  unfold isInCooldown. destruct (decide (a = b)) as [->|Hne].
  - destruct (updateTokenState_lookup t1 t2 tokens b pair snapshot src)
      as (st' & -> & _ & _ & -> & _).
    unfold priorState. destruct (tokens !! b) as [st|]; [|destruct tier; reflexivity].
    unfold backfillSource. destruct (source st), src; reflexivity.
  - rewrite updateTokenState_other by exact Hne. reflexivity.
Qed.

Lemma selectTier_armed cfg now tokens a pc tier :
  selectTier cfg now tokens a pc = Some tier ->
  isInCooldown now tokens a tier (alertCooldownMs cfg) = false.
Proof.
  unfold selectTier.
  destruct (alertThreshold50 cfg && (50 <=? pc)%float
            && negb (isInCooldown now tokens a tier50 (alertCooldownMs cfg))) eqn:H50.
  - intros [= <-]. apply andb_prop in H50 as [_ H]. apply negb_true_iff, H.
  - destruct (alertThreshold25 cfg && (25 <=? pc)%float && (pc <? 50)%float
              && negb (isInCooldown now tokens a tier25 (alertCooldownMs cfg))) eqn:H25;
      [|discriminate].
    intros [= <-]. apply andb_prop in H25 as [_ H]. apply negb_true_iff, H.
Qed.

Lemma selectTier_spike cfg now tokens a pc tier :
  selectTier cfg now tokens a pc = Some tier -> (25 <=? pc)%float = true.
Proof.
  unfold selectTier.
  destruct (alertThreshold50 cfg && (50 <=? pc)%float
            && negb (isInCooldown now tokens a tier50 (alertCooldownMs cfg))) eqn:H50.
  - intros _. apply andb_prop in H50 as [H _]. apply andb_prop in H as [_ H].
    apply leb50_leb25, H.
  - destruct (alertThreshold25 cfg && (25 <=? pc)%float && (pc <? 50)%float
              && negb (isInCooldown now tokens a tier25 (alertCooldownMs cfg))) eqn:H25;
      [|discriminate].
    intros _. apply andb_prop in H25 as [H _]. apply andb_prop in H as [H _].
    apply andb_prop in H as [_ H]. exact H.
Qed.

End DetectorFacts.

(** ** The hard gates of [checkForSpike] *)

(** C3.  A pair whose liquidity is below the configured floor never
    yields an alert, whatever the stored history, the clock and the size
    of the price move. *)
Theorem liquidity_floor_is_hard_gate
    (parseFloat : string -> float) (cfg : BotConfig) (clk : Clock)
    (pair : TokenPair) (tokens : gmap string TokenState) :
  (Js.optOrZero (liquidity_usd pair) <? minLiquidityUsd cfg)%float = true ->
  (checkForSpike parseFloat cfg clk pair tokens).2 = None.
Proof.
  intros Hliq. unfold checkForSpike.
  destruct (getTokenSource pair) as [src|]; [|reflexivity].
  assert (Hgate : meetsBasicCriteria parseFloat cfg pair = false).
  { unfold meetsBasicCriteria. rewrite Hliq.
    destruct (_ || _); [reflexivity|]. destruct (_ <=? _)%float; reflexivity. }
  rewrite Hgate. reflexivity.
Qed.

(** Scenario E: liquidity 1,500 under the 2,000 floor.  The same pair with
    liquidity 5,000 does fire (scenario A), so only the floor stops it. *)
Lemma liquidity_floor_is_hard_gate_witness :
  let below := Sample.pairOn "pumpfun" "1.0" 30 0 1500 in
  let above := Sample.pairOn "pumpfun" "1.0" 30 0 5000 in
  let clk := atInstant Sample.t0 in
  (checkForSpike Sample.parseDecimal Sample.config clk below Sample.quietHistory).2 = None
  /\ dormancyGate Sample.parseDecimal Sample.config clk below Sample.quietHistory = true
  /\ alertTier <$> (checkForSpike Sample.parseDecimal Sample.config clk above Sample.quietHistory).2
     = Some tier25.
Proof.
  intros below above clk. split; [|split].
  - apply (liquidity_floor_is_hard_gate Sample.parseDecimal Sample.config clk below Sample.quietHistory).
    vm_compute. reflexivity.
  - vm_compute. reflexivity.
  - vm_compute. reflexivity.
Defined.

(** ** Tier selection *)

(** C5.  With both tiers enabled and armed, an evaluation that passes the
    source, eligibility and dormancy gates alerts on [tier50] exactly
    when [priceChange5m >= 50], on [tier25] exactly when
    [25 <= priceChange5m < 50], and not at all otherwise: the tier-50
    test comes first and decides whenever it holds.  In particular 50.0
    gives [tier50] and 24.999 gives no alert. *)
Theorem tier_selection_boundaries
    (parseFloat : string -> float) (cfg : BotConfig) (clk : Clock)
    (pair : TokenPair) (tokens : gmap string TokenState) :
  let a := address (baseToken pair) in
  let change := priceChange5m (snapshotOf parseFloat (clkSnapshot clk) pair) in
  let fired := alertTier <$> (checkForSpike parseFloat cfg clk pair tokens).2 in
  is_Some (getTokenSource pair) ->
  meetsBasicCriteria parseFloat cfg pair = true ->
  dormancyGate parseFloat cfg clk pair tokens = true ->
  alertThreshold25 cfg = true ->
  alertThreshold50 cfg = true ->
  isInCooldown (clkCooldown clk) tokens a tier25 (alertCooldownMs cfg) = false ->
  isInCooldown (clkCooldown clk) tokens a tier50 (alertCooldownMs cfg) = false ->
  fired = (if (50 <=? change)%float then Some tier50
           else if ((25 <=? change) && (change <? 50))%float then Some tier25
           else None)
  /\ (change = 50%float -> fired = Some tier50)
  /\ (change = 24.999%float -> fired = None)
  /\ ((50 <=? change)%float = true -> fired = Some tier50).
Proof.
  intros a change fired Hsrc Hcrit Hdorm H25 H50 Harm25 Harm50.
  assert (Hfired : fired =
    (if (50 <=? change)%float then Some tier50
     else if ((25 <=? change) && (change <? 50))%float then Some tier25
     else None)).
  { unfold fired. rewrite (checkForSpike_gates_passed parseFloat cfg clk pair tokens Hsrc Hcrit Hdorm).
    unfold tierGate, selectTier, storeAtGates.
    rewrite !isInCooldown_updateTokenState.
    fold a. fold change. rewrite H25, H50, Harm25, Harm50. simpl.
    rewrite !andb_true_r. reflexivity. }
  split; [exact Hfired|]. rewrite Hfired. split; [|split].
  - intros ->. reflexivity.
  - intros ->. reflexivity.
  - intros ->. reflexivity.
Qed.

Lemma tier_selection_boundaries_witness :
  let clk := atInstant Sample.t0 in
  let at50 := Sample.pairOn "pumpfun" "1.0" 50 0 5000 in
  let below25 := Sample.pairOn "bonkswap" "1.0" 24.999 0 5000 in
  alertTier <$> (checkForSpike Sample.parseDecimal Sample.config clk at50 Sample.quietHistory).2
  = Some tier50
  /\ alertTier <$> (checkForSpike Sample.parseDecimal Sample.config clk below25 Sample.quietHistory).2
     = None.
Proof.
  intros clk at50 below25. split.
  - apply (tier_selection_boundaries Sample.parseDecimal Sample.config clk at50 Sample.quietHistory);
      vm_compute; eauto.
  - apply (tier_selection_boundaries Sample.parseDecimal Sample.config clk below25 Sample.quietHistory);
      vm_compute; eauto.
Defined.

(** ** The source of a state *)

Section SourceFacts.

Variable parseFloat : string -> float.
Implicit Types (tokens : gmap string TokenState) (cfg : BotConfig) (clk : Clock).

Local Abbreviation check := (checkForSpike parseFloat).

(** The three stores a call of [checkForSpike] can return. *)
Lemma checkForSpike_store cfg clk pair tokens :
  (getTokenSource pair = None /\ (check cfg clk pair tokens).1 = tokens)
  \/ (is_Some (getTokenSource pair)
      /\ ((check cfg clk pair tokens).1 = storeAtGates parseFloat clk pair tokens
          \/ exists tier,
               (check cfg clk pair tokens).1
               = recordAlert (clkRecord clk) (storeAtGates parseFloat clk pair tokens)
                   (address (baseToken pair)) tier)).
Proof.
  destruct (getTokenSource pair) as [src|] eqn:Hsrc.
  - right. split; [eauto|].
    destruct ((check cfg clk pair tokens).2) as [alert|] eqn:Hres.
    + right. exists (alertTier alert).
      apply (checkForSpike_fired parseFloat cfg clk pair tokens alert Hres).
    + destruct (checkForSpike_quiet parseFloat cfg clk pair tokens Hres) as [H|H];
        [|left; exact H].
      left. unfold checkForSpike in *. rewrite Hsrc in *. unfold storeAtGates.
      rewrite Hsrc.
      destruct (negb (meetsBasicCriteria parseFloat cfg pair)); [reflexivity|].
      destruct (negb (isDormant _ _ _ _ _ _)); [reflexivity|].
      destruct (selectTier _ _ _ _ _); [discriminate Hres|reflexivity].
  - left. split; [reflexivity|].
    rewrite (checkForSpike_unverified parseFloat cfg clk pair tokens Hsrc). reflexivity.
Qed.

Lemma recordAlert_inv now tokens a b tier st' :
  recordAlert now tokens a tier !! b = Some st' ->
  exists st, tokens !! b = Some st
    /\ source st' = source st
    /\ lastSeenActive st' = lastSeenActive st
    /\ (a <> b \/ tier <> tier25 -> stamp25 (lastAlertTimestamp st') = stamp25 (lastAlertTimestamp st))
    /\ (a <> b \/ tier <> tier50 -> stamp50 (lastAlertTimestamp st') = stamp50 (lastAlertTimestamp st)).
Proof.
  destruct (decide (a = b)) as [->|Hne].
  - destruct (tokens !! b) as [st|] eqn:Hb.
    + rewrite (recordAlert_lookup _ _ _ _ _ Hb). intros [= <-]. exists st.
      repeat split; try reflexivity; intros [H|H]; try congruence;
        destruct tier; simpl; congruence.
    + unfold recordAlert. rewrite Hb, Hb. discriminate.
  - rewrite recordAlert_other by exact Hne. intros H. exists st'. auto.
Qed.

(** The source of the state found under [b] after the snapshot of the
    call is recorded. *)
Lemma storeAtGates_source clk pair tokens b st' :
  is_Some (getTokenSource pair) ->
  storeAtGates parseFloat clk pair tokens !! b = Some st' ->
  match tokens !! b with
  | Some st =>
      source st' = match source st with
                   | Some s => Some s
                   | None => if decide (address (baseToken pair) = b)
                             then getTokenSource pair else None
                   end
  | None => address (baseToken pair) = b /\ source st' = getTokenSource pair
  end.
Proof.
  intros [src Hsrc]. unfold storeAtGates. rewrite Hsrc.
  destruct (decide (address (baseToken pair) = b)) as [<-|Hne].
  - destruct (updateTokenState_lookup (clkFirstSeen clk) (clkActive clk) tokens
                (address (baseToken pair)) pair
                (snapshotOf parseFloat (clkSnapshot clk) pair) (Some src))
      as (st1 & -> & _ & Hs & _).
    intros [= <-]. rewrite Hs. unfold priorState.
    destruct (tokens !! address (baseToken pair)) as [st|]; [|split; reflexivity].
    unfold backfillSource. destruct (source st) eqn:E; simpl; congruence.
  - rewrite updateTokenState_other by exact Hne. intros ->.
    destruct (source st'); reflexivity.
Qed.

End SourceFacts.

(** C7.  A pair whose venue hint resolves to neither origin is returned
    without an alert and with the store exactly as it was; every state of
    every store the service can hold has a source; and no operation of
    the service, nor any [updateTokenState] call whatever source it is
    passed, changes a source that is set. *)
Theorem unverified_source_never_stored (parseFloat : string -> float) (cfg : BotConfig) :
  (forall clk pair tokens,
     getTokenSource pair = None ->
     checkForSpike parseFloat cfg clk pair tokens = (tokens, None))
  /\ (forall tokens,
        Observed parseFloat cfg tokens ->
        forall a st, tokens !! a = Some st -> is_Some (source st))
  /\ (forall op tokens a st st' s,
        tokens !! a = Some st -> source st = Some s ->
        (step parseFloat cfg op tokens).1 !! a = Some st' ->
        source st' = Some s)
  /\ (forall t1 t2 tokens a pair snapshot src st s,
        tokens !! a = Some st -> source st = Some s ->
        exists st', updateTokenState t1 t2 tokens a pair snapshot src !! a = Some st'
                    /\ source st' = Some s).
Proof.
  split; [|split; [|split]].
  4:{ intros t1 t2 tokens a pair snapshot src st s Ha Hs.
      destruct (updateTokenState_lookup t1 t2 tokens a pair snapshot src)
        as (st' & Hst' & _ & Hsrc & _).
      exists st'. split; [exact Hst'|]. rewrite Hsrc. unfold priorState. rewrite Ha.
      unfold backfillSource. rewrite Hs. exact Hs. }
  - intros clk pair tokens. apply checkForSpike_unverified.
  - intros tokens Hobs. induction Hobs as [|op tokens _ IH]; intros a st Ha.
    + rewrite lookup_empty in Ha. discriminate Ha.
    + destruct op as [clk pair|now h]; simpl in Ha.
      * destruct (checkForSpike_store parseFloat cfg clk pair tokens)
          as [[_ Heq]|[Hsrc [Heq|[tier Heq]]]]; rewrite Heq in Ha.
        -- eapply IH, Ha.
        -- pose proof (storeAtGates_source parseFloat clk pair tokens a st Hsrc Ha) as Hs.
           destruct (tokens !! a) as [st0|] eqn:H0.
           ++ destruct (IH a st0 H0) as [s0 Hs0]. rewrite Hs0 in Hs. rewrite Hs. eauto.
           ++ destruct Hs as [_ ->]. exact Hsrc.
        -- apply recordAlert_inv in Ha as (st1 & Ha & -> & _).
           pose proof (storeAtGates_source parseFloat clk pair tokens a st1 Hsrc Ha) as Hs.
           destruct (tokens !! a) as [st0|] eqn:H0.
           ++ destruct (IH a st0 H0) as [s0 Hs0]. rewrite Hs0 in Hs. rewrite Hs. eauto.
           ++ destruct Hs as [_ ->]. exact Hsrc.
      * apply cleanupOldTokens_lookup in Ha. eapply IH, Ha.
  - intros op tokens a st st' s Ha Hs Ha'.
    destruct op as [clk pair|now h]; simpl in Ha'.
    + destruct (checkForSpike_store parseFloat cfg clk pair tokens)
        as [[_ Heq]|[Hsrc [Heq|[tier Heq]]]]; rewrite Heq in Ha'.
      * congruence.
      * pose proof (storeAtGates_source parseFloat clk pair tokens a st' Hsrc Ha') as H.
        rewrite Ha, Hs in H. exact H.
      * apply recordAlert_inv in Ha' as (st1 & Ha' & -> & _).
        pose proof (storeAtGates_source parseFloat clk pair tokens a st1 Hsrc Ha') as H.
        rewrite Ha, Hs in H. exact H.
    + apply cleanupOldTokens_lookup in Ha'. congruence.
Qed.

Lemma unverified_source_never_stored_witness :
  let clk := atInstant Sample.t0 in
  let unverified := Sample.pairOn "raydium" "9.9" 80 0 5000 in
  let viaPump := Sample.pairOn "pumpfun" "1.0" 0 0 5000 in
  let viaBonk := Sample.pairOn "bonkswap" "1.0" 0 0 5000 in
  let a := address Sample.token in
  checkForSpike Sample.parseDecimal Sample.config clk unverified Sample.quietHistory
  = (Sample.quietHistory, None)
  /\ (forall st,
        (step Sample.parseDecimal Sample.config (Evaluate clk viaPump) ∅).1 !! a = Some st ->
        is_Some (source st))
  /\ (forall st',
        (step Sample.parseDecimal Sample.config (Evaluate clk viaBonk) Sample.quietHistory).1 !! a
        = Some st' ->
        source st' = Some pumpfun).
Proof.
  intros clk unverified viaPump viaBonk a.
  destruct (unverified_source_never_stored Sample.parseDecimal Sample.config)
    as (Hgate & Hinv & Hkeep & _).
  split; [|split].
  - apply Hgate. reflexivity.
  - intros st. apply Hinv. apply observed_step, observed_start.
  - intros st'. eapply Hkeep; reflexivity.
Defined.

(** ** Re-validation of a tracked identity *)

(** C9.  [updateTokenEligibility], run by the service, leaves the
    [TokenStateManager] exactly as it was and leaves every other identity
    of the tracked set as it was.  When the provider answers, the
    identity is tracked afterwards exactly when at least one returned
    pair is eligible (so it is removed exactly when none is), and the
    returned flag says so; when the provider call throws, the tracked set
    is unchanged and the flag is [false]. *)
Theorem revalidate_touches_membership_only
    (parseFloat : string -> float) (cfg : BotConfig) (now : Z)
    (fetched : option (list TokenPair)) (a : string) (svc : Service) :
  let after := (revalidate parseFloat cfg now fetched a svc).1 in
  let flag := (revalidate parseFloat cfg now fetched a svc).2 in
  stateManager after = stateManager svc
  /\ (forall b, b <> a -> ((b ∈ universe after) <-> (b ∈ universe svc)))
  /\ match fetched with
     | Some pairs =>
         ((a ∈ universe after) <-> filterEligiblePairs parseFloat cfg now pairs <> [])
         /\ ((a ∉ universe after) <-> filterEligiblePairs parseFloat cfg now pairs = [])
         /\ (flag = true <-> filterEligiblePairs parseFloat cfg now pairs <> [])
     | None => universe after = universe svc /\ flag = false
     end.
Proof.
  unfold revalidate, updateTokenEligibility, isTracked, addToken, removeToken.
  destruct fetched as [pairs|]; simpl.
  - destruct (filterEligiblePairs parseFloat cfg now pairs) as [|p ps] eqn:Hf; simpl;
      [|case_bool_decide as Hin; simpl];
      (split; [reflexivity|]); repeat split;
      set_unfold; intuition congruence.
  - split; [reflexivity|]. split; [intros b Hb; reflexivity|]. split; reflexivity.
Qed.

Lemma revalidate_touches_membership_only_witness :
  let a := address Sample.token in
  let svc := {| universe := {[ a ]} ∪ {[ "OtherMint" ]}; stateManager := Sample.quietHistory |} in
  let thin := Sample.pairOn "pumpfun" "1.0" 0 0 1500 in
  let after := (revalidate Sample.parseDecimal Sample.config Sample.t0 (Some [thin]) a svc).1 in
  stateManager after = Sample.quietHistory
  /\ (a ∉ universe after)
  /\ ("OtherMint" ∈ universe after).
Proof.
  intros a svc thin after.
  destruct (revalidate_touches_membership_only Sample.parseDecimal Sample.config Sample.t0
              (Some [thin]) a svc) as (Hstates & Hothers & _ & Hgone & _).
  split; [exact Hstates|]. split.
  - apply Hgone. vm_compute. reflexivity.
  - apply Hothers; [discriminate|]. unfold svc. simpl. set_solver.
Defined.

(** ** Dormancy *)

Section DormancyFacts.

Local Open Scope float_scope.

Lemma is_zero_not_positive (x : float) : is_zero x = true -> (0 <? x) = false.
Proof.
  unfold is_zero, PrimFloat.zero. rewrite FloatAxioms.eqb_spec, FloatAxioms.ltb_spec.
  unfold SFeqb, SFltb. rewrite (SFcompare_antisym (Prim2SF x) (Prim2SF 0)).
  destruct (SFcompare (Prim2SF x) (Prim2SF 0)) as [[]|]; simpl; congruence.
Qed.

Lemma candleChange_zero_base (prev curr : TokenSnapshot) :
  is_zero (price prev) = true -> candleChange prev curr = 0.
Proof. intros H. unfold candleChange. rewrite (is_zero_not_positive _ H). reflexivity. Qed.

Lemma priceChange1h_zero_base (l : list TokenSnapshot) :
  is_zero (price (firstOf l)) = true -> priceChange1h l = 0.
Proof. intros H. unfold priceChange1h. rewrite (is_zero_not_positive _ H). reflexivity. Qed.

(** The loop of requirement 3 finds no candle above 10 exactly when no
    two neighbours of the window form one. *)
Lemma noCandleAbove10_spec (l : list TokenSnapshot) :
  noCandleAbove10 l = true <->
  forall (i : nat) prev curr,
    l !! i = Some prev -> l !! S i = Some curr -> (10 <? candleChange prev curr) = false.
Proof.
  induction l as [|x l IH]; [split; [intros _ i ? ? H; discriminate H|reflexivity]|].
  destruct l as [|y l].
  - split; [|reflexivity]. intros _ [|i] prev curr H1 H2; discriminate H2.
  - change (noCandleAbove10 (x :: y :: l))
      with (if 10 <? candleChange x y then false else noCandleAbove10 (y :: l)).
    split.
    + intros H [|i] prev curr H1 H2.
      * injection H1 as <-. injection H2 as <-.
        destruct (10 <? candleChange x y); [discriminate H|reflexivity].
      * destruct (10 <? candleChange x y); [discriminate H|].
        exact (proj1 IH H i prev curr H1 H2).
    + intros H. rewrite (H 0%nat x y eq_refl eq_refl).
      apply IH. intros i prev curr H1 H2. exact (H (S i) prev curr H1 H2).
  Qed.

End DormancyFacts.

(** C10.  [isDormant] returns a verdict on degenerate prices: a window
    whose first price is zero has drift 0, a step from a zero price is 0,
    and so a window of at least three snapshots whose prices are all zero
    is dormant as soon as its cumulative volume is below the volume
    threshold (the volatility threshold being positive). *)
Theorem zero_prices_are_dormant
    (now : Z) (tokens : gmap string TokenState) (a : string)
    (volatilityThreshold volumeThreshold : float) (minutes : Z) :
  let w := getSnapshotsInWindow now tokens a minutes in
  (is_zero (price (firstOf w)) = true -> priceChange1h w = 0%float)
  /\ (forall prev curr, is_zero (price prev) = true -> candleChange prev curr = 0%float)
  /\ ((3 <= length w)%nat ->
      (forall s, In s w -> is_zero (price s) = true) ->
      (totalVolume w <? volumeThreshold)%float = true ->
      (0 <? volatilityThreshold)%float = true ->
      isDormant now tokens a volatilityThreshold volumeThreshold minutes = true).
Proof.
  intros w. split; [apply priceChange1h_zero_base|]. split; [apply candleChange_zero_base|].
  intros Hlen Hzero Hvol Hthr. unfold isDormant. fold w.
  destruct (Nat.ltb_spec (length w) 3) as [Hlt|_]; [lia|].
  rewrite (ltb_not_leb _ _ Hvol).
  assert (Hfirst : is_zero (price (firstOf w)) = true).
  { apply Hzero. destruct w as [|x w']; [simpl in Hlen; lia|left; reflexivity]. }
  rewrite (priceChange1h_zero_base w Hfirst), (ltb_not_leb _ _ Hthr).
  apply noCandleAbove10_spec. intros i prev curr Hprev _.
  rewrite candleChange_zero_base; [reflexivity|].
  apply Hzero. apply list_elem_of_In, list_elem_of_lookup. eauto.
Qed.

Lemma zero_prices_are_dormant_witness :
  let flat := Sample.storeWith
                [Sample.quietSnapshot (Sample.t0 - 600000) 0;
                 Sample.quietSnapshot (Sample.t0 - 400000) 0;
                 Sample.quietSnapshot (Sample.t0 - 200000) 0] noStamps in
  isDormant Sample.t0 flat (address Sample.token) 5 1000 60 = true.
Proof.
  intros flat.
  apply (zero_prices_are_dormant Sample.t0 flat (address Sample.token) 5 1000 60).
  - vm_compute. lia.
  - vm_compute. intros s [<-|[<-|[<-|[]]]]; reflexivity.
  - vm_compute. reflexivity.
  - vm_compute. reflexivity.
Defined.

(** C4 as worded fails.  The three requirements with the bare quotients
    differ from [isDormant] on a window that starts at price zero: the
    price goes 0, 0, 1, the quotient by the first price is infinite, and
    the window is dormant all the same. *)
Lemma isDormant_not_as_worded :
  let rising := Sample.storeWith
                  [Sample.quietSnapshot (Sample.t0 - 600000) 0;
                   Sample.quietSnapshot (Sample.t0 - 400000) 0;
                   Sample.quietSnapshot (Sample.t0 - 200000) 1] noStamps in
  let w := getSnapshotsInWindow Sample.t0 rising (address Sample.token) 60 in
  (3 <= length w)%nat
  /\ ~ (isDormant Sample.t0 rising (address Sample.token) 5 1000 60 = true
        <-> dormantAsWorded w 5 1000 = true).
Proof.
  intros rising w. split; [vm_compute; lia|].
  intros [Hcode _].
  assert (H : dormantAsWorded w 5 1000 = true) by (apply Hcode; vm_compute; reflexivity).
  vm_compute in H. discriminate H.
Qed.

(** C4 (amended).  A window of fewer than three snapshots is not dormant.
    A window of at least three snapshots, whose cumulative volume and
    drift and the two thresholds are numbers, is dormant exactly when its
    cumulative volume is strictly below the volume threshold, its drift
    is strictly below the volatility threshold, and no step between
    neighbours exceeds 10; the drift is [|(last - first) / first| * 100]
    when the first price is positive and 0 otherwise, and a step is
    [(curr - prev) / prev * 100] when the previous price is positive and
    0 otherwise. *)
Theorem isDormant_characterised
    (now : Z) (tokens : gmap string TokenState) (a : string)
    (volatilityThreshold volumeThreshold : float) (minutes : Z) :
  let w := getSnapshotsInWindow now tokens a minutes in
  ((length w < 3)%nat ->
   isDormant now tokens a volatilityThreshold volumeThreshold minutes = false)
  /\ ((3 <= length w)%nat ->
      is_nan volumeThreshold = false -> is_nan (totalVolume w) = false ->
      is_nan volatilityThreshold = false -> is_nan (priceChange1h w) = false ->
      (isDormant now tokens a volatilityThreshold volumeThreshold minutes = true
       <-> (totalVolume w <? volumeThreshold)%float = true
           /\ (priceChange1h w <? volatilityThreshold)%float = true
           /\ forall (i : nat) prev curr,
                w !! i = Some prev -> w !! S i = Some curr ->
                (10 <? candleChange prev curr)%float = false)).
Proof.
  intros w. unfold isDormant. fold w. split.
  - intros Hlt. destruct (Nat.ltb_spec (length w) 3) as [_|Hge]; [reflexivity|lia].
  - intros Hlen Hn1 Hn2 Hn3 Hn4.
    destruct (Nat.ltb_spec (length w) 3) as [Hlt|_]; [lia|].
    rewrite <- noCandleAbove10_spec. split.
    + destruct (volumeThreshold <=? totalVolume w)%float eqn:Hvol; [discriminate|].
      destruct (volatilityThreshold <=? priceChange1h w)%float eqn:Hdrift; [discriminate|].
      intros Hcandles. repeat split; [| |exact Hcandles]; apply not_leb_ltb; assumption.
    + intros (Hvol & Hdrift & Hcandles).
      rewrite (ltb_not_leb _ _ Hvol), (ltb_not_leb _ _ Hdrift). exact Hcandles.
Qed.

Lemma isDormant_characterised_witness :
  let w := getSnapshotsInWindow Sample.t0 Sample.quietHistory (address Sample.token) 60 in
  isDormant Sample.t0 Sample.quietHistory (address Sample.token) 5 1000 60 = true
  <-> (totalVolume w <? 1000)%float = true
      /\ (priceChange1h w <? 5)%float = true
      /\ forall (i : nat) prev curr,
           w !! i = Some prev -> w !! S i = Some curr ->
           (10 <? candleChange prev curr)%float = false.
Proof.
  intros w.
  apply (isDormant_characterised Sample.t0 Sample.quietHistory (address Sample.token) 5 1000 60).
  - vm_compute. lia.
  - vm_compute. reflexivity.
  - vm_compute. reflexivity.
  - vm_compute. reflexivity.
  - vm_compute. reflexivity.
Defined.

(** ** ErrorHandler.retry *)

Section RetryFacts.

Import ErrorHandler.

Context {T E : Type}.
Variable truthy : E -> bool.
Variable unknownError : E.
Variable fn : Z -> Outcome T E.
Variable hasOnError : bool.
Variables maxRetries initialDelayMs : Z.

Local Abbreviation loop := (retryLoop truthy unknownError fn hasOnError maxRetries initialDelayMs).
Local Abbreviation block := (failedAttempt hasOnError maxRetries initialDelayMs).

Lemma invocations_app (l1 l2 : list (Event E)) :
  invocations (l1 ++ l2) = invocations l1 ++ invocations l2.
Proof. apply omap_app. Qed.

Lemma hookCalls_app (l1 l2 : list (Event E)) :
  hookCalls (l1 ++ l2) = hookCalls l1 ++ hookCalls l2.
Proof. apply omap_app. Qed.

Lemma delays_app (l1 l2 : list (Event E)) :
  delays (l1 ++ l2) = delays l1 ++ delays l2.
Proof. apply omap_app. Qed.

Lemma attempts_In first count j :
  In j (attempts first count) <-> first <= j < first + Z.of_nat count.
Proof.
  revert first. induction count as [|c IH]; intros first; simpl.
  - lia.
  - rewrite IH. lia.
Qed.

Lemma attempts_snoc first count :
  attempts first (S count) = attempts first count ++ [first + Z.of_nat count].
Proof.
  revert first. induction count as [|c IH]; intros first.
  - simpl. f_equal. lia.
  - change (attempts first (S (S c))) with (first :: attempts (first + 1) (S c)).
    rewrite IH. simpl. do 3 f_equal. lia.
Qed.

(** The operation is invoked at most once per iteration. *)
Lemma retryLoop_invocations remaining attempt lastError :
  (length (invocations (loop remaining attempt lastError).1) <= remaining)%nat.
Proof.
  revert attempt lastError. induction remaining as [|k IH]; intros attempt lastError; simpl.
  - lia.
  - destruct (fn attempt) as [v|e]; simpl; [lia|].
    specialize (IH (attempt + 1) (Some e)).
    destruct (loop k (attempt + 1) (Some e)) as [events result]. simpl in *.
    unfold invocations in *. rewrite !omap_app.
    unfold onErrorEvents, backoffEvents.
    destruct hasOnError, (attempt <? maxRetries); simpl; lia.
Qed.

(** [k] failing iterations, then the rest of the loop. *)
Lemma retryLoop_failures (err : Z -> E) k :
  forall n attempt lastError,
    (forall j, attempt <= j < attempt + Z.of_nat k -> fn j = Thrown (err j)) ->
    loop (k + n) attempt lastError
    = (flat_map (fun j => block (err j) j) (attempts attempt k)
         ++ (loop n (attempt + Z.of_nat k)
               (if k is O then lastError else Some (err (attempt + Z.of_nat k - 1)))).1,
       (loop n (attempt + Z.of_nat k)
          (if k is O then lastError else Some (err (attempt + Z.of_nat k - 1)))).2).
Proof.
  induction k as [|k IH]; intros n attempt lastError Hfail.
  - change (Z.of_nat 0) with 0. rewrite Z.add_0_r. simpl.
    destruct (loop n attempt lastError); reflexivity.
  - change (loop (S k + n) attempt lastError)
      with (match fn attempt with
            | Returned value => ([Invoke attempt], Returned value)
            | Thrown error =>
                let '(events, result) := loop (k + n) (attempt + 1) (Some error) in
                (Invoke attempt :: onErrorEvents hasOnError error attempt
                   ++ backoffEvents maxRetries initialDelayMs attempt ++ events, result)
            end).
    rewrite (Hfail attempt) by lia.
    rewrite (IH n (attempt + 1) (Some (err attempt))) by (intros j Hj; apply Hfail; lia).
    replace (attempt + 1 + Z.of_nat k) with (attempt + Z.of_nat (S k)) by lia.
    replace (if k is O then Some (err attempt)
             else Some (err (attempt + Z.of_nat (S k) - 1)))
      with (Some (err (attempt + Z.of_nat (S k) - 1))).
    2:{ destruct k; [f_equal; f_equal; lia|reflexivity]. }
    simpl flat_map. unfold failedAttempt at 1, onErrorEvents, backoffEvents.
    simpl. rewrite <- !app_assoc. reflexivity.
Qed.

Lemma invocations_failures (err : Z -> E) first count :
  invocations (flat_map (fun j => block (err j) j) (attempts first count))
  = attempts first count.
Proof.
  revert first. induction count as [|c IH]; intros first; [reflexivity|].
  simpl. unfold invocations in *. rewrite !omap_app, IH.
  destruct hasOnError, (first <? maxRetries); reflexivity.
Qed.

Lemma hookCalls_failures (err : Z -> E) first count :
  hookCalls (flat_map (fun j => block (err j) j) (attempts first count))
  = if hasOnError then List.map (fun j => (err j, j)) (attempts first count) else [].
Proof.
  revert first. induction count as [|c IH]; intros first; [destruct hasOnError; reflexivity|].
  simpl. unfold hookCalls in *. rewrite !omap_app, IH.
  destruct hasOnError, (first <? maxRetries); reflexivity.
Qed.

(** Two operations that fail at the same attempts are made to wait the
    same times, whatever their errors are. *)
Lemma retryLoop_delays_same_failures (fn' : Z -> Outcome T E) remaining :
  forall attempt lastError lastError',
    (forall j, threw (fn j) = threw (fn' j)) ->
    delays (loop remaining attempt lastError).1
    = delays (retryLoop truthy unknownError fn' hasOnError maxRetries initialDelayMs
                remaining attempt lastError').1.
Proof.
  induction remaining as [|k IH]; intros attempt lastError lastError' Hsame; [reflexivity|].
  simpl. specialize (Hsame attempt) as Hj.
  destruct (fn attempt) as [v|e], (fn' attempt) as [v'|e']; try discriminate Hj;
    [reflexivity|].
  specialize (IH (attempt + 1) (Some e) (Some e') Hsame).
  destruct (loop k (attempt + 1) (Some e)) as [events result].
  destruct (retryLoop truthy unknownError fn' hasOnError maxRetries initialDelayMs
              k (attempt + 1) (Some e')) as [events' result'].
  simpl in *.
  change (Invoke attempt :: ?l) with ([Invoke attempt] ++ l).
  rewrite !delays_app, IH.
  unfold onErrorEvents. destruct hasOnError; reflexivity.
Qed.

(** The waits of failing attempts, all of which leave attempts to go. *)
Lemma delays_failures (err : Z -> E) first count :
  first + Z.of_nat count <= maxRetries ->
  delays (flat_map (fun j => block (err j) j) (attempts first count))
  = List.map (fun j => initialDelayMs * 2 ^ (j - 1)) (attempts first count).
Proof.
  revert first. induction count as [|c IH]; intros first Hle; [reflexivity|].
  simpl. unfold delays in *. rewrite !omap_app, IH by lia.
  destruct (Z.ltb_spec first maxRetries) as [_|Hge]; [|lia].
  destruct hasOnError; reflexivity.
Qed.

End RetryFacts.

(** C8.  [retry] invokes the operation at most [maxRetries] times.  If
    the first [k] attempts fail and attempt [k + 1 <= maxRetries]
    succeeds, its value is returned and nothing follows that invocation.
    If all [maxRetries >= 1] attempts fail, the last error is thrown.
    In both cases each failed attempt is followed by the hook (when one
    is passed) and, when attempts remain, by a wait of
    [initialDelayMs * 2^(attempt - 1)]; two operations that fail at the
    same attempts wait the same times, whatever their errors. *)
Theorem retry_behaviour {T E : Type}
    (truthy : E -> bool) (unknownError : E) (fn : Z -> ErrorHandler.Outcome T E)
    (hasOnError : bool) (maxRetries initialDelayMs : Z) :
  let run := ErrorHandler.retry truthy unknownError fn hasOnError maxRetries initialDelayMs in
  let failed := fun (err : Z -> E) (j : Z) =>
    ErrorHandler.failedAttempt hasOnError maxRetries initialDelayMs (err j) j in
  let backoff := fun j : Z => initialDelayMs * 2 ^ (j - 1) in
  (length (ErrorHandler.invocations run.1) <= Z.to_nat maxRetries)%nat
  /\ (forall (err : Z -> E) (k : nat) (v : T),
        Z.of_nat k < maxRetries ->
        (forall j, 1 <= j <= Z.of_nat k -> fn j = ErrorHandler.Thrown (err j)) ->
        fn (Z.of_nat k + 1) = ErrorHandler.Returned v ->
        run.2 = ErrorHandler.Returned v
        /\ run.1 = flat_map (failed err) (ErrorHandler.attempts 1 k)
                   ++ [ErrorHandler.Invoke (Z.of_nat k + 1)]
        /\ ErrorHandler.invocations run.1 = ErrorHandler.attempts 1 (S k)
        /\ ErrorHandler.hookCalls run.1
           = (if hasOnError
              then List.map (fun j => (err j, j)) (ErrorHandler.attempts 1 k) else [])
        /\ ErrorHandler.delays run.1 = List.map backoff (ErrorHandler.attempts 1 k))
  /\ (forall (err : Z -> E),
        1 <= maxRetries ->
        (forall j, 1 <= j <= maxRetries -> fn j = ErrorHandler.Thrown (err j)) ->
        truthy (err maxRetries) = true ->
        run.2 = ErrorHandler.Thrown (err maxRetries)
        /\ run.1 = flat_map (failed err) (ErrorHandler.attempts 1 (Z.to_nat maxRetries))
        /\ ErrorHandler.invocations run.1 = ErrorHandler.attempts 1 (Z.to_nat maxRetries)
        /\ ErrorHandler.hookCalls run.1
           = (if hasOnError
              then List.map (fun j => (err j, j))
                     (ErrorHandler.attempts 1 (Z.to_nat maxRetries))
              else [])
        /\ ErrorHandler.delays run.1
           = List.map backoff (ErrorHandler.attempts 1 (Z.to_nat maxRetries - 1)))
  /\ (forall fn' : Z -> ErrorHandler.Outcome T E,
        (forall j, ErrorHandler.threw (fn j) = ErrorHandler.threw (fn' j)) ->
        ErrorHandler.delays run.1
        = ErrorHandler.delays
            (ErrorHandler.retry truthy unknownError fn' hasOnError maxRetries
               initialDelayMs).1).
Proof.
  intros run failed backoff. unfold run, ErrorHandler.retry. split; [|split; [|split]].
  4:{ intros fn' Hsame. apply retryLoop_delays_same_failures. exact Hsame. }
  - apply retryLoop_invocations.
  - intros err k v Hk Hfail Hok.
    replace (Z.to_nat maxRetries) with (k + S (Z.to_nat maxRetries - k - 1))%nat by lia.
    rewrite (retryLoop_failures truthy unknownError fn hasOnError maxRetries initialDelayMs err k)
      by (intros j Hj; apply Hfail; lia).
    simpl ErrorHandler.retryLoop. replace (1 + Z.of_nat k) with (Z.of_nat k + 1) by lia.
    rewrite Hok. simpl fst. simpl snd. split; [reflexivity|]. split; [reflexivity|].
    rewrite invocations_app, hookCalls_app, delays_app.
    rewrite invocations_failures, hookCalls_failures, delays_failures by lia.
    change (ErrorHandler.invocations [ErrorHandler.Invoke (Z.of_nat k + 1)])
      with [Z.of_nat k + 1].
    change (ErrorHandler.hookCalls [@ErrorHandler.Invoke E (Z.of_nat k + 1)])
      with (@nil (E * Z)).
    change (ErrorHandler.delays [@ErrorHandler.Invoke E (Z.of_nat k + 1)]) with (@nil Z).
    rewrite !app_nil_r. split; [|split; reflexivity].
    rewrite attempts_snoc. do 2 f_equal. lia.
  - intros err Hmax Hfail Htruthy.
    pose proof (retryLoop_failures truthy unknownError fn hasOnError maxRetries
                  initialDelayMs err (Z.to_nat maxRetries) 0 1 None) as Hrun.
    rewrite Nat.add_0_r in Hrun. rewrite Hrun by (intros j Hj; apply Hfail; lia).
    clear Hrun. simpl ErrorHandler.retryLoop. simpl fst. simpl snd. rewrite app_nil_r.
    destruct (Z.to_nat maxRetries) as [|m] eqn:Hm; [lia|].
    replace (1 + Z.of_nat (S m) - 1) with maxRetries by lia.
    unfold ErrorHandler.finalThrow. rewrite Htruthy.
    split; [reflexivity|]. split; [reflexivity|].
    rewrite invocations_failures, hookCalls_failures.
    split; [reflexivity|]. split; [reflexivity|].
    replace (S m - 1)%nat with m by lia.
    rewrite attempts_snoc, flat_map_app, delays_app.
    rewrite delays_failures by lia.
    simpl flat_map. unfold failed, ErrorHandler.failedAttempt.
    destruct (Z.ltb_spec (1 + Z.of_nat m) maxRetries) as [Hlt|_]; [lia|].
    destruct hasOnError; simpl; rewrite app_nil_r; reflexivity.
Qed.

Lemma retry_behaviour_witness :
  let truthy := fun e : Z => negb (e =? 0) in
  let flaky := fun j : Z =>
    if j <? 3 then ErrorHandler.Thrown (500 + j) else ErrorHandler.Returned "pairs"%string in
  let down := fun j : Z => @ErrorHandler.Thrown string Z (500 + j) in
  let recovered := ErrorHandler.retry truthy (-1) flaky true 3 1000 in
  let exhausted := ErrorHandler.retry truthy (-1) down true 3 1000 in
  (recovered.2 = ErrorHandler.Returned "pairs"%string
   /\ ErrorHandler.invocations recovered.1 = [1; 2; 3]
   /\ ErrorHandler.delays recovered.1 = [1000; 2000])
  /\ (exhausted.2 = ErrorHandler.Thrown 503
      /\ ErrorHandler.hookCalls exhausted.1 = [(501, 1); (502, 2); (503, 3)]
      /\ ErrorHandler.delays exhausted.1 = [1000; 2000]).
Proof.
  intros truthy flaky down recovered exhausted. split.
  - destruct (retry_behaviour truthy (-1) flaky true 3 1000) as (_ & Hrecover & _ & _).
    destruct (Hrecover (fun j => 500 + j) 2%nat "pairs"%string) as (Hres & _ & Hinv & _ & Hdel).
    + lia.
    + intros j Hj. unfold flaky. destruct (Z.ltb_spec j 3); [reflexivity|lia].
    + reflexivity.
    + split; [exact Hres|]. split; [exact Hinv|exact Hdel].
  - destruct (retry_behaviour truthy (-1) down true 3 1000) as (_ & _ & Hexhaust & _).
    destruct (Hexhaust (fun j => 500 + j)) as (Hres & _ & _ & Hhook & Hdel).
    + lia.
    + intros j Hj. reflexivity.
    + reflexivity.
    + split; [exact Hres|]. split; [exact Hhook|exact Hdel].
Defined.

(** ** Cooldown *)

Section CooldownFacts.

Variable parseFloat : string -> float.
Variable cfg : BotConfig.
Variables (a : string) (tier : Tier) (T L : Z).
Hypothesis T_truthy : T <> 0.

Implicit Types (tokens : gmap string TokenState) (clk : Clock).

Local Abbreviation check := (checkForSpike parseFloat cfg).
Local Abbreviation cooling := (cooling a tier T L).

Lemma recordAlert_stamps now tokens b tier' st' :
  recordAlert now tokens b tier' !! a = Some st' ->
  exists st, tokens !! a = Some st
    /\ lastSeenActive st' = lastSeenActive st
    /\ (b = a /\ tier' = tier -> getStamp (lastAlertTimestamp st') tier = Some now)
    /\ (~ (b = a /\ tier' = tier) ->
        getStamp (lastAlertTimestamp st') tier = getStamp (lastAlertTimestamp st) tier).
Proof.
  destruct (decide (b = a)) as [->|Hne].
  - destruct (tokens !! a) as [st|] eqn:Ha.
    + rewrite (recordAlert_lookup _ _ _ _ _ Ha). intros [= <-]. exists st.
      split; [reflexivity|]. split; [reflexivity|]. split.
      * intros [_ ->]. destruct tier; reflexivity.
      * intros Hn. destruct tier, tier'; try reflexivity; exfalso; apply Hn; auto.
    + unfold recordAlert. rewrite Ha, Ha. discriminate.
  - rewrite recordAlert_other by exact Hne. intros H. exists st'.
    split; [exact H|]. split; [reflexivity|]. split; [intros [? _]; contradiction|reflexivity].
Qed.

Lemma cooling_isInCooldown tokens now :
  cooling tokens -> now < T + alertCooldownMs cfg ->
  isInCooldown now tokens a tier (alertCooldownMs cfg) = true.
Proof.
  intros (st & Ha & Hstamp & _) Hnow. unfold isInCooldown. rewrite Ha, Hstamp. simpl.
  destruct (Z.eqb_spec T 0) as [H0|_]; [contradiction|]. simpl.
  apply Z.ltb_lt. lia.
Qed.

Lemma storeAtGates_cooling clk pair tokens :
  cooling tokens -> L <= clkSnapshot clk ->
  cooling (storeAtGates parseFloat clk pair tokens).
Proof.
  intros (st & Ha & Hstamp & Hactive) Hsnap. unfold cooling, storeAtGates.
  destruct (decide (address (baseToken pair) = a)) as [Heq|Hne].
  - rewrite Heq.
    destruct (updateTokenState_lookup (clkFirstSeen clk) (clkActive clk) tokens a pair
                (snapshotOf parseFloat (clkSnapshot clk) pair) (getTokenSource pair))
      as (st1 & Hst1 & _ & _ & Hst & Hact).
    exists st1. split; [exact Hst1|]. unfold priorState in Hst, Hact. rewrite Ha in Hst, Hact.
    assert (Hb : forall src, lastAlertTimestamp (backfillSource st src) = lastAlertTimestamp st
                             /\ lastSeenActive (backfillSource st src) = lastSeenActive st).
    { intros src. unfold backfillSource. destruct (source st), src; split; reflexivity. }
    destruct (Hb (getTokenSource pair)) as [Hb1 Hb2]. rewrite Hb1 in Hst. rewrite Hb2 in Hact.
    split; [rewrite Hst; exact Hstamp|]. rewrite Hact.
    destruct (showsActivity _); [exact Hsnap|exact Hactive].
  - exists st. rewrite updateTokenState_other by exact Hne. auto.
Qed.

(** One operation inside the window: the pair stays cooling and the
    operation does not alert on it. *)
Lemma step_keeps_cooling op tokens :
  cooling tokens -> inCooldownWindow cfg T L op ->
  cooling (step parseFloat cfg op tokens).1
  /\ forall alert', (step parseFloat cfg op tokens).2 = Some alert' ->
       ~ (alertTokenAddress alert' = a /\ alertTier alert' = tier).
Proof.
  intros Hcool Hwin. destruct op as [clk pair|now h]; simpl in *.
  - destruct Hwin as [Hnow Hsnap].
    pose proof (storeAtGates_cooling clk pair tokens Hcool Hsnap) as Hgates.
    destruct ((check clk pair tokens).2) as [alert'|] eqn:Hres.
    + destruct (checkForSpike_fired parseFloat cfg clk pair tokens alert' Hres)
        as (_ & _ & _ & Htier & Hstore & Haddr).
      assert (Hnot : ~ (address (baseToken pair) = a /\ alertTier alert' = tier)).
      { intros [Ha Ht]. apply selectTier_armed in Htier.
        unfold storeAtGates in Htier. rewrite isInCooldown_updateTokenState in Htier.
        rewrite Ha, Ht in Htier.
        rewrite (cooling_isInCooldown tokens _ Hcool Hnow) in Htier. discriminate Htier. }
      split.
      * rewrite Hstore. destruct Hgates as (st1 & Hst1 & Hstamp1 & Hact1).
        destruct (recordAlert (clkRecord clk) (storeAtGates parseFloat clk pair tokens)
                    (address (baseToken pair)) (alertTier alert') !! a) as [st2|] eqn:Hst2.
        -- destruct (recordAlert_stamps _ _ _ _ _ Hst2) as (st1' & Hst1' & Hact & _ & Hkeep).
           rewrite Hst1 in Hst1'. injection Hst1' as <-.
           exists st2. split; [exact Hst2|]. split; [|lia].
           rewrite (Hkeep Hnot). exact Hstamp1.
        -- exfalso. unfold recordAlert in Hst2.
           destruct (storeAtGates parseFloat clk pair tokens !! address (baseToken pair))
             eqn:Hp; [|congruence].
           destruct (decide (address (baseToken pair) = a)) as [Heq|Hne].
           ++ rewrite Heq in Hst2. rewrite lookup_insert_eq in Hst2. discriminate Hst2.
           ++ rewrite lookup_insert_ne in Hst2 by exact Hne. congruence.
      * intros alert'' [= <-]. rewrite Haddr. exact Hnot.
    + split; [|discriminate].
      destruct (checkForSpike_quiet parseFloat cfg clk pair tokens Hres) as [-> | ->];
        assumption.
  - split; [|discriminate]. destruct Hcool as (st & Ha & Hstamp & Hactive).
    exists st. split; [|auto]. apply cleanupOldTokens_keeps; [exact Ha|lia].
Qed.

Lemma run_keeps_cooling ops tokens :
  cooling tokens -> Forall (inCooldownWindow cfg T L) ops ->
  forall alert', In alert' (run parseFloat cfg ops tokens).2 ->
    ~ (alertTokenAddress alert' = a /\ alertTier alert' = tier).
Proof.
  revert tokens. induction ops as [|op ops IH]; intros tokens Hcool Hall alert' Hin.
  - destruct Hin.
  - apply Forall_cons in Hall as [Hop Hrest].
    destruct (step_keeps_cooling op tokens Hcool Hop) as [Hnext Hsilent].
    simpl in Hin.
    destruct (step parseFloat cfg op tokens) as [tokens1 fired] eqn:Hstep. simpl in *.
    specialize (IH tokens1 Hnext Hrest).
    destruct (run parseFloat cfg ops tokens1) as [tokens2 alerts]. simpl in *.
    destruct fired as [alert0|]; [|exact (IH alert' Hin)].
    destruct Hin as [<-|Hin]; [apply Hsilent; reflexivity|exact (IH alert' Hin)].
Qed.

End CooldownFacts.

(** C1.  When an evaluation alerts on [(identity, tier)] and its
    [recordAlert] reads the clock at [T], the store it returns already
    carries [lastAlertTimestamp[tier] = T]; and whatever operations
    follow while the clock read by the cooldown check stays below
    [T + alertCooldownMs] (evaluations of any pairs, in any number, and
    cleanup passes whose idle cutoff does not reach the alerting
    snapshot), none of them alerts on that identity and tier again. *)
Theorem cooldown_suppresses_repeat
    (parseFloat : string -> float) (cfg : BotConfig) (clk : Clock)
    (pair : TokenPair) (tokens : gmap string TokenState)
    (alert : SpikeAlert) (ops : list Op) (L : Z) :
  let a := address (baseToken pair) in
  let tier := alertTier alert in
  let T := clkRecord clk in
  let fired := checkForSpike parseFloat cfg clk pair tokens in
  fired.2 = Some alert ->
  T <> 0 ->
  L <= clkSnapshot clk ->
  Forall (inCooldownWindow cfg T L) ops ->
  (exists st, fired.1 !! a = Some st /\ getStamp (lastAlertTimestamp st) tier = Some T)
  /\ (forall alert', In alert' (run parseFloat cfg ops fired.1).2 ->
        ~ (alertTokenAddress alert' = a /\ alertTier alert' = tier)).
Proof.
  intros a tier T fired Hfired HT HL Hops.
  destruct (checkForSpike_fired parseFloat cfg clk pair tokens alert Hfired)
    as (_ & _ & _ & Htier & Hstore & _).
  fold fired a tier in Hstore. fold tier in Htier.
  assert (Hcool : cooling a tier T L fired.1).
  { destruct (updateTokenState_lookup (clkFirstSeen clk) (clkActive clk) tokens a pair
                (snapshotOf parseFloat (clkSnapshot clk) pair) (getTokenSource pair))
      as (st1 & Hst1 & _ & _ & _ & Hact).
    apply selectTier_spike, leb25_active in Htier.
    unfold showsActivity in Hact. rewrite Htier, orb_true_r in Hact.
    pose proof (recordAlert_lookup T _ a tier st1 Hst1) as Hrec.
    rewrite Hstore. unfold cooling.
    eexists. split; [exact Hrec|]. simpl. split; [destruct tier; reflexivity|].
    rewrite Hact. simpl. exact HL. }
  split.
  - destruct Hcool as (st & Hst & Hstamp & _). eauto.
  - apply (run_keeps_cooling parseFloat cfg a tier T L HT ops fired.1 Hcool Hops).
Qed.

(** Scenario C, first half: the tier-25 alert at [t0], then the same
    spike two minutes and twenty-nine minutes later, with a cleanup pass
    (24-hour horizon) in between. *)
Lemma cooldown_suppresses_repeat_witness :
  let spike := Sample.pairOn "pumpfun" "1.0" 30 0 5000 in
  let a := address Sample.token in
  let fired := checkForSpike Sample.parseDecimal Sample.config (atInstant Sample.t0)
                 spike Sample.quietHistory in
  let ops := [Evaluate (atInstant (Sample.t0 + 120000)) spike;
              Cleanup (Sample.t0 + 300000) 24;
              Evaluate (atInstant (Sample.t0 + 1740000)) spike] in
  exists alert,
    fired.2 = Some alert
    /\ alertTier alert = tier25
    /\ forall alert', In alert' (run Sample.parseDecimal Sample.config ops fired.1).2 ->
         ~ (alertTokenAddress alert' = a /\ alertTier alert' = tier25).
Proof.
  intros spike a fired ops.
  destruct fired.2 as [alert|] eqn:Hf; [|vm_compute in Hf; discriminate Hf].
  exists alert. split; [reflexivity|].
  assert (Ht : alertTier alert = tier25).
  { vm_compute in Hf. injection Hf as <-. reflexivity. }
  split; [exact Ht|]. rewrite <- Ht.
  apply (cooldown_suppresses_repeat Sample.parseDecimal Sample.config (atInstant Sample.t0)
           spike Sample.quietHistory alert ops Sample.t0 Hf).
  - vm_compute. discriminate.
  - vm_compute. discriminate.
  - repeat constructor; vm_compute; discriminate.
Defined.

(** Scenario C, second half: at minute 31 the pair is armed again. *)
Example cooldown_elapsed_rearms :
  let spike := Sample.pairOn "pumpfun" "1.0" 30 0 5000 in
  let ops := [Evaluate (atInstant Sample.t0) spike;
              Evaluate (atInstant (Sample.t0 + 120000)) spike;
              Evaluate (atInstant (Sample.t0 + 1860000)) spike] in
  List.map (fun al => (alertTier al, alertTimestamp al))
    (run Sample.parseDecimal Sample.config ops Sample.quietHistory).2
  = [(tier25, Sample.t0); (tier25, Sample.t0 + 1860000)].
Proof. vm_compute. reflexivity. Qed.

(** ** The window the dormancy gate reads *)

(** C2 (the code departs from it).  The gate reads the store after the
    incoming snapshot has been recorded.  With two stored snapshots the
    state before the snapshot is not dormant (fewer than three), yet the
    incoming snapshot completes the window and the call alerts; with
    three quiet stored snapshots the state before the snapshot is
    dormant, yet an incoming snapshot priced 1.3 after 1.0 puts a candle
    above 10 into the window and the call, all other gates passed, does
    not alert. *)
Theorem dormancy_gate_reads_incoming_snapshot :
  let a := address Sample.token in
  let clk := atInstant Sample.t0 in
  let dormantBefore := fun tokens =>
    isDormant Sample.t0 tokens a
      (dormantVolatilityThreshold Sample.config) (dormantVolumeThreshold Sample.config)
      (baselinePeriodMinutes Sample.config) in
  let coldStart :=
    Sample.storeWith [Sample.quietSnapshot (Sample.t0 - 400000) 1;
                      Sample.quietSnapshot (Sample.t0 - 200000) 1] noStamps in
  let spike := Sample.pairOn "pumpfun" "1.0" 30 0 5000 in
  let jump := Sample.pairOn "pumpfun" "1.3" 30 0 5000 in
  (dormantBefore coldStart = false
   /\ alertTier <$> (checkForSpike Sample.parseDecimal Sample.config clk spike coldStart).2
      = Some tier25)
  /\ (dormantBefore Sample.quietHistory = true
      /\ meetsBasicCriteria Sample.parseDecimal Sample.config jump = true
      /\ selectTier Sample.config Sample.t0 Sample.quietHistory a 30 = Some tier25
      /\ (checkForSpike Sample.parseDecimal Sample.config clk jump Sample.quietHistory).2
         = None)
  /\ In (snapshotOf Sample.parseDecimal Sample.t0 jump)
        (getSnapshotsInWindow Sample.t0
           (storeAtGates Sample.parseDecimal clk jump Sample.quietHistory) a 60).
Proof.
  intros a clk dormantBefore coldStart spike jump.
  split; [split; vm_compute; reflexivity|].
  split; [repeat split; vm_compute; reflexivity|].
  vm_compute. do 3 right. left. reflexivity.
Qed.

(** Whatever the store, the window the gate reads contains the snapshot
    of the call itself, as soon as that snapshot is not older than the
    window's cutoff. *)
Lemma gate_window_contains_incoming
    (parseFloat : string -> float) (cfg : BotConfig) (clk : Clock)
    (pair : TokenPair) (tokens : gmap string TokenState) :
  clkWindow clk - baselinePeriodMinutes cfg * 60 * 1000 <= clkSnapshot clk ->
  In (snapshotOf parseFloat (clkSnapshot clk) pair)
     (getSnapshotsInWindow (clkWindow clk) (storeAtGates parseFloat clk pair tokens)
        (address (baseToken pair)) (baselinePeriodMinutes cfg)).
Proof.
  intros Hfresh. unfold getSnapshotsInWindow, storeAtGates.
  destruct (updateTokenState_lookup (clkFirstSeen clk) (clkActive clk) tokens
              (address (baseToken pair)) pair
              (snapshotOf parseFloat (clkSnapshot clk) pair) (getTokenSource pair))
    as (st' & -> & -> & _).
  apply filter_In. split; [|apply Z.leb_le; exact Hfresh].
  unfold pushSnapshot.
  set (old := storedSnapshots tokens (address (baseToken pair))).
  destruct (Nat.ltb_spec maxSnapshotsPerToken (length (old ++ [snapshotOf parseFloat (clkSnapshot clk) pair])))
    as [Hfull|_]; [|apply in_or_app; right; left; reflexivity].
  destruct old as [|x old']; [simpl in Hfull; unfold maxSnapshotsPerToken in Hfull; lia|].
  simpl. apply in_or_app. right. left. reflexivity.
Qed.

(** ** Scenarios of the specification, evaluated *)

Example parseDecimal_reads_decimal : Sample.parseDecimal "1.02" = 1.02%float.
Proof. vm_compute. reflexivity. Qed.

Example getTokenSource_pump :
  getTokenSource (Sample.pairOn "PumpSwap" "1.0" 30 0 5000) = Some pumpfun.
Proof. reflexivity. Qed.

Example getTokenSource_unverified :
  getTokenSource (Sample.pairOn "raydium" "1.0" 30 0 5000) = None.
Proof. reflexivity. Qed.

(** On a quiet history the requirements as worded and [isDormant] agree. *)
Example dormantAsWorded_quiet :
  dormantAsWorded
    (getSnapshotsInWindow Sample.t0 Sample.quietHistory (address Sample.token) 60) 5 1000
  = true.
Proof. vm_compute. reflexivity. Qed.

(** Scenario B: a change of 62 alerts on [tier50]. *)
Example scenario_tier50_priority :
  alertTier <$>
    (checkForSpike Sample.parseDecimal Sample.config (atInstant Sample.t0)
       (Sample.pairOn "pumpfun" "1.0" 62 0 5000) Sample.quietHistory).2
  = Some tier50.
Proof. vm_compute. reflexivity. Qed.

Section MoreFloatFacts.
Local Open Scope float_scope.

Lemma SFcompare_Lt_trans (x y z : spec_float) :
  SFcompare x y = Some Lt -> SFcompare y z = Some Lt -> SFcompare x z = Some Lt.
Proof.
  destruct x as [sx|sx| |sx mx ex], y as [sy|sy| |sy my ey], z as [sz|sz| |sz mz ez];
    cbv beta iota delta [SFcompare];
    try destruct sx; try destruct sy; try destruct sz; try congruence.
  all: rewrite ?Pos.compare_cont_spec; unfold Pos.switch_Eq.
  all: destruct (Z.compare_spec ex ey), (Z.compare_spec ey ez), (Z.compare_spec ex ez);
    try congruence; try lia; subst.
  all: destruct (Pos.compare_spec mx my), (Pos.compare_spec my mz), (Pos.compare_spec mx mz);
    simpl; try congruence; try lia.
Qed.

Lemma ltb_trans (x y z : float) :
  (x <? y) = true -> (y <? z) = true -> (x <? z) = true.
Proof.
  rewrite !FloatAxioms.ltb_spec. unfold SFltb.
  destruct (SFcompare (Prim2SF x) (Prim2SF y)) as [[]|] eqn:H1; try discriminate.
  destruct (SFcompare (Prim2SF y) (Prim2SF z)) as [[]|] eqn:H2; try discriminate.
  rewrite (SFcompare_Lt_trans _ _ _ H1 H2). reflexivity.
Qed.

Lemma ltb_irrefl (x : float) : (x <? x) = false.
Proof.
  destruct (x <? x) eqn:H; [|reflexivity].
  pose proof (ltb_not_leb _ _ H) as H'. 
  rewrite FloatAxioms.ltb_spec in H. rewrite FloatAxioms.leb_spec in H'.
  unfold SFltb, SFleb in *.
  destruct (SFcompare (Prim2SF x) (Prim2SF x)) as [[]|]; congruence.
Qed.

Lemma ltb_zero_not_eqb (x : float) : (0 <? x) = true -> (x =? 0) = false.
Proof.
  rewrite FloatAxioms.ltb_spec, FloatAxioms.eqb_spec. unfold SFltb, SFeqb.
  rewrite (SFcompare_antisym (Prim2SF 0) (Prim2SF x)).
  destruct (SFcompare (Prim2SF 0) (Prim2SF x)) as [[]|]; simpl; congruence.
Qed.

End MoreFloatFacts.

(** ** TokenStateManager: windows, stamps, cleanup *)

Section ManagerFacts.

Variable parseFloat : string -> float.
Implicit Types (tokens : gmap string TokenState) (cfg : BotConfig) (clk : Clock).

Lemma chronological_push (l : list TokenSnapshot) (s : TokenSnapshot) :
  chronological l -> Forall (fun x => timestamp x <= timestamp s) l ->
  chronological (pushSnapshot l s)
  /\ Forall (fun x => timestamp x <= timestamp s) (pushSnapshot l s).
Proof.
  intros Hsorted Hbound.
  assert (Hall : chronological (l ++ [s])
                 /\ Forall (fun x => timestamp x <= timestamp s) (l ++ [s])).
  { split.
    - unfold chronological in *. induction Hsorted as [|x l Hs IH Hx]; simpl.
      + constructor; constructor.
      + apply Forall_cons in Hbound as [Hxs Hl]. constructor; [apply IH, Hl|].
        apply Forall_app. split; [exact Hx|]. constructor; [exact Hxs|constructor].
    - apply Forall_app. split; [exact Hbound|]. constructor; [lia|constructor]. }
  unfold pushSnapshot. destruct (_ <? _)%nat; [|exact Hall].
  destruct Hall as [Hs Hb]. destruct (l ++ [s]) as [|x r]; simpl; [split; assumption|].
  apply StronglySorted_inv in Hs as [Hs _]. apply Forall_cons in Hb as [_ Hb].
  split; assumption.
Qed.

(** On a chronological sequence the filter of the window keeps a suffix. *)
Lemma window_of_chronological (cutoff : Z) (l : list TokenSnapshot) :
  chronological l ->
  exists n, List.filter (fun s => cutoff <=? timestamp s) l = skipn n l.
Proof.
  unfold chronological. induction 1 as [|x l Hs IH Hx].
  - exists 0%nat. reflexivity.
  - simpl. destruct (Z.leb_spec cutoff (timestamp x)) as [Hin|Hout].
    + exists 0%nat. simpl. f_equal.
      apply forallb_filter_id. apply forallb_forall. intros y Hy.
      rewrite Forall_forall in Hx. specialize (Hx y (proj2 (list_elem_of_In _ _) Hy)).
      apply Z.leb_le. lia.
    + destruct IH as [n Hn]. exists (S n). exact Hn.
Qed.

Lemma orderedUpTo_weaken t t' tokens :
  t <= t' -> orderedUpTo t tokens -> orderedUpTo t' tokens.
Proof.
  intros Hle H a st Ha. destruct (H a st Ha) as [Hs Hb]. split; [exact Hs|].
  eapply Forall_impl; [exact Hb|]. simpl. intros; lia.
Qed.

Lemma orderedUpTo_recordAlert now t tokens a tier :
  orderedUpTo t tokens -> orderedUpTo t (recordAlert now tokens a tier).
Proof.
  intros H b st' Hb. unfold recordAlert in Hb.
  destruct (tokens !! a) as [st|] eqn:Ha; [|exact (H b st' Hb)].
  destruct (decide (a = b)) as [->|Hne].
  - rewrite lookup_insert_eq in Hb. injection Hb as <-. simpl. exact (H b st Ha).
  - rewrite lookup_insert_ne in Hb by exact Hne. exact (H b st' Hb).
Qed.

Lemma orderedUpTo_update t1 t2 t tokens a pair snapshot src :
  orderedUpTo t tokens -> t <= timestamp snapshot ->
  orderedUpTo (timestamp snapshot) (updateTokenState t1 t2 tokens a pair snapshot src).
Proof.
  intros H Hle b st' Hb. destruct (decide (a = b)) as [->|Hne].
  - destruct (updateTokenState_lookup t1 t2 tokens b pair snapshot src)
      as (st1 & Hst1 & Hsn & _).
    rewrite Hst1 in Hb. injection Hb as <-. rewrite Hsn.
    apply chronological_push; unfold storedSnapshots;
      destruct (tokens !! b) as [st|] eqn:Hst; try constructor.
    + apply (H b st Hst).
    + destruct (H b st Hst) as [_ Hb]. eapply Forall_impl; [exact Hb|]. simpl. intros; lia.
  - rewrite updateTokenState_other in Hb by exact Hne.
    apply (orderedUpTo_weaken t _ tokens Hle H b st' Hb).
Qed.

Lemma orderedUpTo_step cfg t op tokens :
  orderedUpTo t tokens -> risingFrom t [op] ->
  orderedUpTo (match op with Evaluate clk _ => clkSnapshot clk | Cleanup _ _ => t end)
    (step parseFloat cfg op tokens).1.
Proof.
  intros H Hop. destruct op as [clk p|now h]; simpl in *.
  - destruct Hop as [Hle _].
    assert (Hgates : orderedUpTo (clkSnapshot clk) (storeAtGates parseFloat clk p tokens)).
    { apply (orderedUpTo_update _ _ t); [exact H|exact Hle]. }
    destruct (checkForSpike_store parseFloat cfg clk p tokens)
      as [[_ ->]|[_ [->|[tier ->]]]].
    + apply (orderedUpTo_weaken t); assumption.
    + exact Hgates.
    + apply orderedUpTo_recordAlert, Hgates.
  - intros a st Ha. apply cleanupOldTokens_lookup in Ha. exact (H a st Ha).
Qed.

Lemma orderedUpTo_run cfg ops :
  forall t tokens, orderedUpTo t tokens -> risingFrom t ops ->
  exists t', orderedUpTo t' (run parseFloat cfg ops tokens).1.
Proof.
  induction ops as [|op ops IH]; intros t tokens H Hops.
  - exists t. exact H.
  - assert (Hop : risingFrom t [op]) by (destruct op; simpl in *; tauto).
    pose proof (orderedUpTo_step cfg t op tokens H Hop) as Hstep.
    simpl. destruct (step parseFloat cfg op tokens) as [tokens1 fired]. simpl in Hstep.
    assert (Hrest : risingFrom (match op with Evaluate clk _ => clkSnapshot clk
                                            | Cleanup _ _ => t end) ops)
      by (destruct op; simpl in *; tauto).
    destruct (IH _ tokens1 Hstep Hrest) as [t' Ht'].
    destruct (run parseFloat cfg ops tokens1) as [tokens2 alerts]. simpl in *.
    exists t'. exact Ht'.
Qed.

End ManagerFacts.

(** X1.  Along any run of evaluations and cleanup passes whose snapshot
    clock never goes back, starting from the empty store, the snapshots
    stored under every identity are in non-decreasing order of timestamp,
    and every window [getSnapshotsInWindow] returns is a contiguous
    suffix of the stored sequence. *)
Theorem windows_are_suffixes
    (parseFloat : string -> float) (cfg : BotConfig) (ops : list Op) (t0 : Z)
    (now : Z) (a : string) (windowMinutes : Z) :
  risingFrom t0 ops ->
  let tokens := (run parseFloat cfg ops ∅).1 in
  chronological (storedSnapshots tokens a)
  /\ exists n, getSnapshotsInWindow now tokens a windowMinutes
               = skipn n (storedSnapshots tokens a).
Proof.
  intros Hops tokens.
  assert (Hstart : orderedUpTo t0 ∅) by (intros b st Hb; rewrite lookup_empty in Hb; discriminate).
  destruct (orderedUpTo_run parseFloat cfg ops t0 ∅ Hstart Hops) as [t' Hord].
  fold tokens in Hord.
  assert (Hchron : chronological (storedSnapshots tokens a)).
  { unfold storedSnapshots. destruct (tokens !! a) as [st|] eqn:Ha; [|constructor].
    apply (Hord a st Ha). }
  split; [exact Hchron|].
  unfold getSnapshotsInWindow, storedSnapshots in *.
  destruct (tokens !! a) as [st|]; [|exists 0%nat; reflexivity].
  apply window_of_chronological, Hchron.
Qed.

Lemma windows_are_suffixes_witness :
  let spike := Sample.pairOn "pumpfun" "1.0" 30 0 5000 in
  let ops := [Evaluate (atInstant Sample.t0) spike;
              Cleanup (Sample.t0 + 5) 24;
              Evaluate (atInstant (Sample.t0 + 4000000)) spike] in
  let tokens := (run Sample.parseDecimal Sample.config ops ∅).1 in
  chronological (storedSnapshots tokens (address Sample.token))
  /\ exists n, getSnapshotsInWindow (Sample.t0 + 4000000) tokens (address Sample.token) 60
               = skipn n (storedSnapshots tokens (address Sample.token)).
Proof.
  intros spike ops tokens.
  apply (windows_are_suffixes Sample.parseDecimal Sample.config ops Sample.t0).
  vm_compute. repeat split; discriminate.
Defined.

(** X2.  [recordAlert] followed by [isInCooldown]: on a known token, a
    stamp written at [T] makes the pair cool down exactly while
    [now - T < cooldownMs], and the answers for every other identity or
    tier are what they were; on an unknown token [recordAlert] does
    nothing and [isInCooldown] answers [false]. *)
Theorem recordAlert_then_isInCooldown
    (tokens : gmap string TokenState) (a : string) (tier : Tier) (T now cooldownMs : Z) :
  (is_Some (tokens !! a) -> T <> 0 ->
   isInCooldown now (recordAlert T tokens a tier) a tier cooldownMs
   = (now - T <? cooldownMs))
  /\ (forall b tier', (b, tier') <> (a, tier) ->
        isInCooldown now (recordAlert T tokens a tier) b tier' cooldownMs
        = isInCooldown now tokens b tier' cooldownMs)
  /\ (tokens !! a = None ->
        recordAlert T tokens a tier = tokens
        /\ isInCooldown now tokens a tier cooldownMs = false).
Proof.
  split; [|split].
  - intros [st Ha] HT. unfold isInCooldown.
    rewrite (recordAlert_lookup T tokens a tier st Ha). simpl.
    destruct tier; simpl; destruct (Z.eqb_spec T 0); try contradiction; reflexivity.
  - intros b tier' Hne. unfold isInCooldown.
    destruct (decide (a = b)) as [<-|Hab].
    + destruct (tokens !! a) as [st|] eqn:Ha.
      * rewrite (recordAlert_lookup T tokens a tier st Ha). simpl.
        destruct tier, tier'; try reflexivity; exfalso; apply Hne; reflexivity.
      * unfold recordAlert. rewrite Ha, Ha. reflexivity.
    + rewrite recordAlert_other by exact Hab. reflexivity.
  - intros Ha. unfold recordAlert, isInCooldown. rewrite Ha. split; reflexivity.
Qed.

Lemma recordAlert_then_isInCooldown_witness :
  let a := address Sample.token in
  let tokens := recordAlert Sample.t0 Sample.quietHistory a tier25 in
  isInCooldown (Sample.t0 + 1799999) tokens a tier25 1800000 = true
  /\ isInCooldown (Sample.t0 + 1800000) tokens a tier25 1800000 = false
  /\ isInCooldown (Sample.t0 + 1) tokens a tier50 1800000 = false.
Proof.
  intros a tokens.
  destruct (recordAlert_then_isInCooldown Sample.quietHistory a tier25 Sample.t0
              (Sample.t0 + 1799999) 1800000) as (Hin & _ & _).
  destruct (recordAlert_then_isInCooldown Sample.quietHistory a tier25 Sample.t0
              (Sample.t0 + 1800000) 1800000) as (Hout & _ & _).
  destruct (recordAlert_then_isInCooldown Sample.quietHistory a tier25 Sample.t0
              (Sample.t0 + 1) 1800000) as (_ & Hother & _).
  split; [|split].
  - unfold tokens. rewrite Hin; [reflexivity|vm_compute; eauto|vm_compute; discriminate].
  - unfold tokens. rewrite Hout; [reflexivity|vm_compute; eauto|vm_compute; discriminate].
  - unfold tokens. rewrite (Hother a tier50) by discriminate. reflexivity.
Defined.

Lemma cleanupOldTokens_at (tokens : gmap string TokenState) (now maxAgeHours : Z) (a : string) :
  cleanupOldTokens now tokens maxAgeHours !! a
  = match tokens !! a with
    | Some st =>
        if lastSeenActive st <? now - maxAgeHours * 60 * 60 * 1000 then None else Some st
    | None => None
    end.
Proof.
  unfold cleanupOldTokens.
  destruct (tokens !! a) as [st|] eqn:Ha.
  - destruct (Z.ltb_spec (lastSeenActive st) (now - maxAgeHours * 60 * 60 * 1000))
      as [Hold|Hfresh].
    + apply map_lookup_filter_None. right. intros st' Hst'. simpl.
      rewrite Ha in Hst'. injection Hst' as <-. lia.
    + apply map_lookup_filter_Some. split; [exact Ha|]. simpl. lia.
  - apply map_lookup_filter_None. left. exact Ha.
Qed.

(** X3.  [cleanupOldTokens] keeps exactly the states whose
    [lastSeenActive] is not before the cutoff and keeps them as they are;
    a pass followed by a pass with a later (or equal) cutoff is the later
    pass alone, so a pass repeated at the same instant changes nothing
    more. *)
Theorem cleanupOldTokens_spec
    (tokens : gmap string TokenState) (now maxAgeHours : Z) :
  (forall a,
     cleanupOldTokens now tokens maxAgeHours !! a
     = match tokens !! a with
       | Some st =>
           if lastSeenActive st <? now - maxAgeHours * 60 * 60 * 1000 then None else Some st
       | None => None
       end)
  /\ (forall now' maxAgeHours',
        now - maxAgeHours * 60 * 60 * 1000 <= now' - maxAgeHours' * 60 * 60 * 1000 ->
        cleanupOldTokens now' (cleanupOldTokens now tokens maxAgeHours) maxAgeHours'
        = cleanupOldTokens now' tokens maxAgeHours')
  /\ (getTokenCount (cleanupOldTokens now tokens maxAgeHours) <= getTokenCount tokens)%nat.
Proof.
  pose proof cleanupOldTokens_at as Hlookup.
  split; [intros a; apply Hlookup|]. split.
  - intros now' h' Hle. apply map_eq. intros a. rewrite !Hlookup.
    destruct (tokens !! a) as [st|]; [|reflexivity].
    destruct (Z.ltb_spec (lastSeenActive st) (now - maxAgeHours * 60 * 60 * 1000)) as [Hold|Hfresh];
      [|reflexivity].
    destruct (Z.ltb_spec (lastSeenActive st) (now' - h' * 60 * 60 * 1000)); [reflexivity|lia].
  - unfold getTokenCount, cleanupOldTokens. apply map_size_filter.
Qed.

Lemma cleanupOldTokens_spec_witness :
  let a := address Sample.token in
  let hour := 3600000 in
  cleanupOldTokens (Sample.t0 + hour) Sample.quietHistory 24 !! a = Sample.quietHistory !! a
  /\ cleanupOldTokens (Sample.t0 + 25 * hour)
       (cleanupOldTokens (Sample.t0 + hour) Sample.quietHistory 24) 24 !! a = None.
Proof.
  intros a hour.
  destruct (cleanupOldTokens_spec Sample.quietHistory (Sample.t0 + hour) 24)
    as (Hlookup & Htwice & _).
  split.
  - rewrite Hlookup. reflexivity.
  - rewrite Htwice by (vm_compute; discriminate).
    destruct (cleanupOldTokens_spec Sample.quietHistory (Sample.t0 + 25 * hour) 24)
      as (Hlater & _).
    rewrite Hlater. reflexivity.
Defined.

Section StampFacts.

Variable parseFloat : string -> float.
Implicit Types (tokens : gmap string TokenState) (cfg : BotConfig) (clk : Clock).

(** What recording the snapshot of a call leaves of a known state. *)
Lemma storeAtGates_known clk pair tokens a st :
  tokens !! a = Some st ->
  exists st1,
    storeAtGates parseFloat clk pair tokens !! a = Some st1
    /\ lastAlertTimestamp st1 = lastAlertTimestamp st
    /\ firstSeen st1 = firstSeen st
    /\ createdAt st1 = createdAt st
    /\ lastSeenActive st1
       = (if bool_decide (address (baseToken pair) = a)
             && showsActivity (snapshotOf parseFloat (clkSnapshot clk) pair)
          then clkSnapshot clk else lastSeenActive st).
Proof.
  intros Ha. unfold storeAtGates, updateTokenState.
  case_bool_decide as Heq.
  - rewrite Heq, lookup_insert_eq. unfold priorState. rewrite Ha.
    eexists. split; [reflexivity|].
    unfold backfillSource.
    destruct (source st), (getTokenSource pair), (showsActivity _); simpl; auto.
  - rewrite lookup_insert_ne by exact Heq. exists st. simpl. auto.
Qed.

End StampFacts.



(** ** SpikeDetector: what an evaluation can and cannot do *)

Section EvaluationFacts.

Variable parseFloat : string -> float.
Implicit Types (tokens : gmap string TokenState) (cfg : BotConfig) (clk : Clock).

Local Abbreviation check := (checkForSpike parseFloat).

(** An alert takes a change of at least 25, which is an activity. *)
Lemma fired_shows_activity cfg clk pair tokens alert :
  (check cfg clk pair tokens).2 = Some alert ->
  showsActivity (snapshotOf parseFloat (clkSnapshot clk) pair) = true.
Proof.
  intros Hres.
  destruct (checkForSpike_fired parseFloat cfg clk pair tokens alert Hres)
    as (_ & _ & _ & Htier & _).
  apply selectTier_spike, leb25_active in Htier.
  unfold showsActivity. rewrite Htier. apply orb_true_r.
Qed.

Lemma quiet_step cfg op tokens a st :
  tokens !! a = Some st -> quietPoll parseFloat op ->
  (step parseFloat cfg op tokens).2 = None
  /\ exists st', (step parseFloat cfg op tokens).1 !! a = Some st'
                 /\ lastSeenActive st' = lastSeenActive st.
Proof.
  intros Ha Hquiet. destruct op as [clk p|now h]; [|destruct Hquiet]. simpl in *.
  destruct ((check cfg clk p tokens).2) as [alert|] eqn:Hres.
  - apply fired_shows_activity in Hres. congruence.
  - split; [reflexivity|].
    destruct (checkForSpike_quiet parseFloat cfg clk p tokens Hres) as [-> | ->].
    + eauto.
    + destruct (storeAtGates_known parseFloat clk p tokens a st Ha)
        as (st1 & Hst1 & _ & _ & _ & Hact).
      exists st1. split; [exact Hst1|]. rewrite Hact, Hquiet, andb_false_r. reflexivity.
Qed.

Lemma size_storeAtGates clk pair tokens :
  size (storeAtGates parseFloat clk pair tokens)
  = match tokens !! address (baseToken pair) with
    | Some _ => size tokens
    | None => S (size tokens)
    end.
Proof.
  unfold storeAtGates, updateTokenState. rewrite map_size_insert.
  destruct (tokens !! address (baseToken pair)); reflexivity.
Qed.

Lemma size_recordAlert now tokens a tier : size (recordAlert now tokens a tier) = size tokens.
Proof.
  unfold recordAlert. destruct (tokens !! a) as [st|] eqn:Ha; [|reflexivity].
  apply map_size_insert_Some. eauto.
Qed.

(** What the selected tier says of the change and of the switches. *)
Lemma selectTier_inv cfg now tokens a change tier :
  selectTier cfg now tokens a change = Some tier ->
  match tier with
  | tier50 => alertThreshold50 cfg = true /\ (50 <=? change)%float = true
  | tier25 => alertThreshold25 cfg = true /\ (25 <=? change)%float = true
              /\ (change <? 50)%float = true
  end.
Proof.
  unfold selectTier.
  destruct (alertThreshold50 cfg && (50 <=? change)%float && _) eqn:H50.
  - intros [= <-]. apply andb_prop in H50 as [H50 _].
    apply andb_prop in H50 as [Hen Hge]. auto.
  - destruct (alertThreshold25 cfg && (25 <=? change)%float && (change <? 50)%float && _)
      eqn:H25; [|discriminate].
    intros [= <-]. apply andb_prop in H25 as [H25 _].
    apply andb_prop in H25 as [H25 Hlt]. apply andb_prop in H25 as [Hen Hge]. auto.
Qed.

Lemma isDormant_local now tokens tokens2 a v1 v2 m :
  tokens2 !! a = tokens !! a ->
  isDormant now tokens2 a v1 v2 m = isDormant now tokens a v1 v2 m.
Proof. intros H. unfold isDormant, getSnapshotsInWindow. rewrite H. reflexivity. Qed.

Lemma isInCooldown_local now tokens tokens2 a tier cd :
  tokens2 !! a = tokens !! a ->
  isInCooldown now tokens2 a tier cd = isInCooldown now tokens a tier cd.
Proof. intros H. unfold isInCooldown. rewrite H. reflexivity. Qed.

Lemma storeAtGates_local clk pair tokens tokens2 :
  tokens2 !! address (baseToken pair) = tokens !! address (baseToken pair) ->
  storeAtGates parseFloat clk pair tokens2 !! address (baseToken pair)
  = storeAtGates parseFloat clk pair tokens !! address (baseToken pair).
Proof.
  intros H. unfold storeAtGates, updateTokenState, priorState.
  rewrite !lookup_insert_eq, H. reflexivity.
Qed.

(** The window read after the snapshot of the call is recorded holds at
    most one snapshot more than the window read before. *)
Lemma window_grows_by_one clk pair tokens now minutes :
  (length (getSnapshotsInWindow now (storeAtGates parseFloat clk pair tokens)
             (address (baseToken pair)) minutes)
   <= S (length (getSnapshotsInWindow now tokens (address (baseToken pair)) minutes)))%nat.
Proof.
  unfold getSnapshotsInWindow, storeAtGates.
  destruct (updateTokenState_lookup (clkFirstSeen clk) (clkActive clk) tokens
              (address (baseToken pair)) pair
              (snapshotOf parseFloat (clkSnapshot clk) pair) (getTokenSource pair))
    as (st' & -> & -> & _).
  unfold storedSnapshots, pushSnapshot.
  set (keep := fun snapshot => now - minutes * 60 * 1000 <=? timestamp snapshot).
  set (s := snapshotOf parseFloat (clkSnapshot clk) pair).
  assert (Hpush : forall l, (length (List.filter keep (l ++ [s])) <= S (length (List.filter keep l)))%nat).
  { intros l. rewrite List.filter_app, length_app. simpl. destruct (keep s); simpl; lia. }
  assert (Htl : forall l : list TokenSnapshot,
            (length (List.filter keep (tl l)) <= length (List.filter keep l))%nat).
  { intros [|x l]; simpl; [lia|]. destruct (keep x); simpl; lia. }
  destruct (tokens !! address (baseToken pair)) as [st|].
  - destruct (_ <? _)%nat.
    + etransitivity; [apply Htl|apply Hpush].
    + apply Hpush.
  - destruct (_ <? _)%nat.
    + etransitivity; [apply Htl|apply (Hpush [])].
    + apply (Hpush []).
Qed.

End EvaluationFacts.

(** X5.  Polling does not reset the idle clock: after any number of
    evaluations whose snapshots show no activity (no 5-minute volume and
    a change of at most 1 in magnitude), no alert has been returned, the
    state of a known identity still carries the [lastSeenActive] it had,
    and so a cleanup pass whose cutoff lies after it deletes the state,
    however recently it was polled. *)
Theorem polling_does_not_reset_idle_clock
    (parseFloat : string -> float) (cfg : BotConfig) (ops : list Op)
    (tokens : gmap string TokenState) (a : string) (st : TokenState) :
  tokens !! a = Some st ->
  Forall (quietPoll parseFloat) ops ->
  let after := run parseFloat cfg ops tokens in
  after.2 = []
  /\ (exists st', after.1 !! a = Some st' /\ lastSeenActive st' = lastSeenActive st)
  /\ (forall now maxAgeHours,
        lastSeenActive st < now - maxAgeHours * 60 * 60 * 1000 ->
        cleanupOldTokens now after.1 maxAgeHours !! a = None).
Proof.
  intros Ha Hops after.
  assert (H : after.2 = []
              /\ exists st', after.1 !! a = Some st' /\ lastSeenActive st' = lastSeenActive st).
  { unfold after. clear after. revert tokens st Ha.
    induction Hops as [|op ops Hop _ IH]; intros tokens st Ha; [simpl; eauto|].
    destruct (quiet_step parseFloat cfg op tokens a st Ha Hop) as (Hnone & st1 & Hst1 & Hact1).
    simpl. destruct (step parseFloat cfg op tokens) as [tokens1 fired]. simpl in *. subst fired.
    destruct (IH tokens1 st1 Hst1) as (Hnil & st2 & Hst2 & Hact2).
    destruct (run parseFloat cfg ops tokens1) as [tokens2 alerts]. simpl in *.
    split; [exact Hnil|]. exists st2. split; [exact Hst2|congruence]. }
  destruct H as (Hnil & st' & Hst' & Hact). split; [exact Hnil|]. split; [eauto|].
  intros now h Hidle.
  rewrite cleanupOldTokens_at, Hst', Hact.
  destruct (Z.ltb_spec (lastSeenActive st) (now - h * 60 * 60 * 1000)); [reflexivity|lia].
Qed.

Lemma polling_does_not_reset_idle_clock_witness :
  let a := address Sample.token in
  let flat := Sample.pairOn "pumpfun" "1.0" 0.5 0 5000 in
  let day := 24 * 3600000 in
  let ops := [Evaluate (atInstant (Sample.t0 + day)) flat;
              Evaluate (atInstant (Sample.t0 + day + 10000)) flat] in
  let after := run Sample.parseDecimal Sample.config ops Sample.quietHistory in
  after.2 = []
  /\ cleanupOldTokens (Sample.t0 + day + 20000) after.1 24 !! a = None.
Proof.
  intros a flat day ops after.
  destruct (polling_does_not_reset_idle_clock Sample.parseDecimal Sample.config ops
              Sample.quietHistory a
              (Sample.stateWith
                 [Sample.quietSnapshot (Sample.t0 - 600000) 1;
                  Sample.quietSnapshot (Sample.t0 - 400000) 1;
                  Sample.quietSnapshot (Sample.t0 - 200000) 1] noStamps))
    as (Hsilent & _ & Hgone).
  - vm_compute. reflexivity.
  - repeat constructor.
  - split; [exact Hsilent|]. apply Hgone. vm_compute. reflexivity.
Defined.

(** X6.  [getTokenCount] after an evaluation: one more when the pair's
    source is verified and its base token had no state, unchanged in
    every other case (an unverified pair, a known token, an alert). *)
Theorem token_count_after_evaluation
    (parseFloat : string -> float) (cfg : BotConfig) (clk : Clock)
    (pair : TokenPair) (tokens : gmap string TokenState) :
  getTokenCount (checkForSpike parseFloat cfg clk pair tokens).1
  = match getTokenSource pair, tokens !! address (baseToken pair) with
    | Some _, None => S (getTokenCount tokens)
    | _, _ => getTokenCount tokens
    end.
Proof.
  unfold getTokenCount.
  destruct (checkForSpike_store parseFloat cfg clk pair tokens)
    as [[Hsrc ->]|[[src Hsrc] [->|[tier ->]]]]; rewrite Hsrc;
    rewrite ?size_recordAlert, ?size_storeAtGates;
    destruct (tokens !! address (baseToken pair)); reflexivity.
Qed.

(** X7.  Every alert is backed by the pair it is returned for: the source
    is the verified source of the pair, the market cap is non-zero and
    not at or above the ceiling, the liquidity is not below the floor,
    the dormancy test passed, the tier matches the reported change
    ([tier50] for a change of at least 50, [tier25] for a change in
    [25, 50)), that tier is enabled and was not cooling down, and the
    alert's figures are those of the snapshot recorded by the call. *)
Theorem alerts_are_sound
    (parseFloat : string -> float) (cfg : BotConfig) (clk : Clock)
    (pair : TokenPair) (tokens : gmap string TokenState) (alert : SpikeAlert) :
  (checkForSpike parseFloat cfg clk pair tokens).2 = Some alert ->
  let snapshot := snapshotOf parseFloat (clkSnapshot clk) pair in
  getTokenSource pair = Some (alertSource alert)
  /\ alertTokenAddress alert = address (baseToken pair)
  /\ (alertTimestamp alert = clkSnapshot clk
      /\ currentPrice alert = price snapshot
      /\ alertMarketCap alert = marketCap snapshot
      /\ alertVolume5m alert = volume5m snapshot
      /\ alertLiquidity alert = liquidity snapshot
      /\ alertPriceChange5m alert = priceChange5m snapshot)
  /\ ((maxMarketCap cfg <=? alertMarketCap alert)%float = false
      /\ (alertMarketCap alert =? 0)%float = false
      /\ (alertLiquidity alert <? minLiquidityUsd cfg)%float = false)
  /\ dormancyGate parseFloat cfg clk pair tokens = true
  /\ match alertTier alert with
     | tier50 => alertThreshold50 cfg = true
                 /\ (50 <=? alertPriceChange5m alert)%float = true
     | tier25 => alertThreshold25 cfg = true
                 /\ (25 <=? alertPriceChange5m alert)%float = true
                 /\ (alertPriceChange5m alert <? 50)%float = true
     end
  /\ isInCooldown (clkCooldown clk) tokens (address (baseToken pair)) (alertTier alert)
       (alertCooldownMs cfg) = false.
Proof.
  intros Hres snapshot.
  destruct (checkForSpike_fired parseFloat cfg clk pair tokens alert Hres)
    as (_ & Hcrit & Hdorm & Htier & _ & Haddr).
  pose proof (selectTier_armed _ _ _ _ _ _ Htier) as Harmed.
  unfold storeAtGates in Harmed. rewrite isInCooldown_updateTokenState in Harmed.
  unfold checkForSpike in Hres. unfold tierGate in Htier.
  destruct (getTokenSource pair) as [src|] eqn:Hsrc; [|discriminate Hres].
  rewrite Hcrit in Hres. unfold dormancyGate, storeAtGates in Hdorm. rewrite Hsrc in Hdorm.
  rewrite Hdorm in Hres. simpl negb in Hres. cbv iota in Hres.
  unfold storeAtGates in Htier. rewrite Hsrc in Htier.
  destruct (selectTier _ _ _ _ _) as [tier|] eqn:Hsel; [|discriminate Hres].
  injection Hres as <-. simpl. fold snapshot.
  split; [reflexivity|]. split; [reflexivity|]. split; [repeat split|].
  split.
  - unfold meetsBasicCriteria in Hcrit. unfold snapshot, snapshotOf. simpl.
    destruct (_ || _) eqn:Hmc; [discriminate Hcrit|].
    apply orb_false_elim in Hmc as [-> ->].
    destruct (_ <=? _)%float; [discriminate Hcrit|].
    destruct (_ <? _)%float; [discriminate Hcrit|]. auto.
  - split.
    + unfold dormancyGate, storeAtGates. rewrite Hsrc. exact Hdorm.
    + clear Htier. simpl in Harmed. split; [|exact Harmed].
      apply selectTier_inv in Hsel. destruct tier; exact Hsel.
Qed.

Lemma alerts_are_sound_witness :
  let spike := Sample.pairOn "bonkswap" "1.0" 62 0 5000 in
  exists alert,
    (checkForSpike Sample.parseDecimal Sample.config (atInstant Sample.t0) spike
       Sample.quietHistory).2 = Some alert
    /\ getTokenSource spike = Some (alertSource alert)
    /\ dormancyGate Sample.parseDecimal Sample.config (atInstant Sample.t0) spike
         Sample.quietHistory = true.
Proof.
  intros spike.
  destruct ((checkForSpike Sample.parseDecimal Sample.config (atInstant Sample.t0) spike
               Sample.quietHistory).2) as [alert|] eqn:Hres;
    [|vm_compute in Hres; discriminate Hres].
  exists alert. split; [reflexivity|].
  destruct (alerts_are_sound Sample.parseDecimal Sample.config (atInstant Sample.t0) spike
              Sample.quietHistory alert Hres) as (Hsrc & _ & _ & _ & Hdorm & _).
  split; [exact Hsrc|exact Hdorm].
Defined.

(** X8.  A tier that is switched off is silent, and a change of 50 or
    more never alerts on [tier25]: with [tier50] switched off such a
    change is not reported at all.  With both tiers off no evaluation
    alerts. *)
Theorem disabled_tiers_are_silent
    (parseFloat : string -> float) (cfg : BotConfig) (clk : Clock)
    (pair : TokenPair) (tokens : gmap string TokenState) :
  let change := priceChange5m (snapshotOf parseFloat (clkSnapshot clk) pair) in
  let off25 := Config.setAlertThreshold Config.threshold25 false cfg in
  let off50 := Config.setAlertThreshold Config.threshold50 false cfg in
  let tierOf := fun c => alertTier <$> (checkForSpike parseFloat c clk pair tokens).2 in
  tierOf off25 <> Some tier25
  /\ tierOf off50 <> Some tier50
  /\ ((50 <=? change)%float = true -> tierOf cfg <> Some tier25)
  /\ ((50 <=? change)%float = true -> tierOf off50 = None)
  /\ tierOf (Config.setAlertThreshold Config.threshold25 false off50) = None.
Proof.
  intros change off25 off50 tierOf.
  assert (Hinv : forall c tier, tierOf c = Some tier ->
            match tier with
            | tier50 => alertThreshold50 c = true /\ (50 <=? change)%float = true
            | tier25 => alertThreshold25 c = true /\ (25 <=? change)%float = true
                        /\ (change <? 50)%float = true
            end).
  { intros c tier Hc. unfold tierOf in Hc.
    destruct ((checkForSpike parseFloat c clk pair tokens).2) as [alert|] eqn:Hres;
      [|discriminate Hc].
    injection Hc as <-.
    destruct (checkForSpike_fired parseFloat c clk pair tokens alert Hres)
      as (_ & _ & _ & Htier & _).
    apply selectTier_inv in Htier. exact Htier. }
  assert (Hnone : forall c, (forall tier, tierOf c <> Some tier) -> tierOf c = None).
  { intros c Hc. destruct (tierOf c) as [tier|]; [destruct (Hc tier eq_refl)|reflexivity]. }
  split; [|split; [|split; [|split]]].
  - intros H. apply Hinv in H as [H _]. discriminate H.
  - intros H. apply Hinv in H as [H _]. discriminate H.
  - intros Hge H. apply Hinv in H as (_ & _ & Hlt).
    apply leb_not_ltb in Hge. congruence.
  - intros Hge. apply Hnone. intros [|] H; apply Hinv in H.
    + destruct H as (_ & _ & Hlt). apply leb_not_ltb in Hge. congruence.
    + destruct H as [H _]. discriminate H.
  - apply Hnone. intros [|] H; apply Hinv in H; destruct H as [H _]; discriminate H.
Qed.

Lemma disabled_tiers_are_silent_witness :
  let surge := Sample.pairOn "pumpfun" "1.0" 62 0 5000 in
  let off50 := Config.setAlertThreshold Config.threshold50 false Sample.config in
  alertTier <$> (checkForSpike Sample.parseDecimal Sample.config (atInstant Sample.t0) surge
                   Sample.quietHistory).2 = Some tier50
  /\ alertTier <$> (checkForSpike Sample.parseDecimal off50 (atInstant Sample.t0) surge
                      Sample.quietHistory).2 = None.
Proof.
  intros surge off50. split; [vm_compute; reflexivity|].
  destruct (disabled_tiers_are_silent Sample.parseDecimal Sample.config (atInstant Sample.t0)
              surge Sample.quietHistory) as (_ & _ & _ & Hsilent & _).
  apply Hsilent. vm_compute. reflexivity.
Defined.

(** X9.  An evaluation is local to the base token of its pair: the
    states of all other identities are left as they are, and the alert
    and the new state of the token depend on nothing but the state the
    token had. *)
Theorem evaluation_is_local
    (parseFloat : string -> float) (cfg : BotConfig) (clk : Clock)
    (pair : TokenPair) (tokens tokens2 : gmap string TokenState) :
  let a := address (baseToken pair) in
  (forall b, b <> a ->
     (checkForSpike parseFloat cfg clk pair tokens).1 !! b = tokens !! b)
  /\ (tokens2 !! a = tokens !! a ->
      (checkForSpike parseFloat cfg clk pair tokens2).2
      = (checkForSpike parseFloat cfg clk pair tokens).2
      /\ (checkForSpike parseFloat cfg clk pair tokens2).1 !! a
         = (checkForSpike parseFloat cfg clk pair tokens).1 !! a).
Proof.
  intros a. split.
  - intros b Hb. unfold a in Hb.
    destruct (checkForSpike_store parseFloat cfg clk pair tokens)
      as [[_ ->]|[_ [->|[tier ->]]]]; [reflexivity| |].
    + unfold storeAtGates. apply updateTokenState_other. congruence.
    + rewrite recordAlert_other by congruence.
      unfold storeAtGates. apply updateTokenState_other. congruence.
  - intros Hsame.
    pose proof (storeAtGates_local parseFloat clk pair tokens tokens2 Hsame) as Hgates.
    unfold checkForSpike. fold a.
    destruct (getTokenSource pair) as [src|] eqn:Hsrc; [|split; [reflexivity|exact Hsame]].
    unfold storeAtGates in Hgates. rewrite Hsrc in Hgates. fold a in Hgates.
    destruct (negb (meetsBasicCriteria parseFloat cfg pair)); [split; [reflexivity|exact Hgates]|].
    rewrite (isDormant_local _ _ _ _ _ _ _ Hgates).
    destruct (negb (isDormant _ _ _ _ _ _)); [split; [reflexivity|exact Hgates]|].
    unfold selectTier. rewrite !(isInCooldown_local _ _ _ _ _ _ Hgates).
    fold (selectTier cfg (clkCooldown clk)
            (updateTokenState (clkFirstSeen clk) (clkActive clk) tokens a pair
               (snapshotOf parseFloat (clkSnapshot clk) pair) (Some src)) a
            (priceChange5m (snapshotOf parseFloat (clkSnapshot clk) pair))).
    destruct (selectTier _ _ _ _ _) as [tier|]; [|split; [reflexivity|exact Hgates]].
    split; [reflexivity|]. simpl. unfold recordAlert. rewrite Hgates.
    destruct (updateTokenState _ _ tokens a pair _ _ !! a) eqn:E; [|congruence].
    rewrite !lookup_insert_eq. reflexivity.
Qed.

Lemma evaluation_is_local_witness :
  let spike := Sample.pairOn "pumpfun" "1.0" 30 0 5000 in
  let other := <["OtherMint" := Sample.stateWith [] noStamps]> Sample.quietHistory in
  (checkForSpike Sample.parseDecimal Sample.config (atInstant Sample.t0) spike other).1
    !! "OtherMint" = other !! "OtherMint"
  /\ (checkForSpike Sample.parseDecimal Sample.config (atInstant Sample.t0) spike other).2
     = (checkForSpike Sample.parseDecimal Sample.config (atInstant Sample.t0) spike
          Sample.quietHistory).2.
Proof.
  intros spike other.
  destruct (evaluation_is_local Sample.parseDecimal Sample.config (atInstant Sample.t0) spike
              Sample.quietHistory other) as (_ & Hsame).
  destruct (evaluation_is_local Sample.parseDecimal Sample.config (atInstant Sample.t0) spike
              other other) as (Hframe & _).
  split.
  - apply Hframe. discriminate.
  - apply Hsame. reflexivity.
Defined.

(** X10.  No alert without two earlier snapshots in the baseline window:
    when the window read before the call holds fewer than two snapshots
    of the token (a new token, or one not polled for the length of the
    window), the evaluation returns no alert, whatever the price does. *)
Theorem alert_needs_two_earlier_snapshots
    (parseFloat : string -> float) (cfg : BotConfig) (clk : Clock)
    (pair : TokenPair) (tokens : gmap string TokenState) :
  (length (getSnapshotsInWindow (clkWindow clk) tokens (address (baseToken pair))
             (baselinePeriodMinutes cfg)) < 2)%nat ->
  (checkForSpike parseFloat cfg clk pair tokens).2 = None.
Proof.
  intros Hfew.
  destruct ((checkForSpike parseFloat cfg clk pair tokens).2) as [alert|] eqn:Hres;
    [|reflexivity].
  destruct (checkForSpike_fired parseFloat cfg clk pair tokens alert Hres)
    as (_ & _ & Hdorm & _).
  unfold dormancyGate, isDormant in Hdorm.
  pose proof (window_grows_by_one parseFloat clk pair tokens (clkWindow clk)
                (baselinePeriodMinutes cfg)) as Hgrow.
  destruct (Nat.ltb_spec
              (length (getSnapshotsInWindow (clkWindow clk)
                         (storeAtGates parseFloat clk pair tokens)
                         (address (baseToken pair)) (baselinePeriodMinutes cfg))) 3)
    as [_|Hge]; [discriminate Hdorm|lia].
Qed.

Lemma alert_needs_two_earlier_snapshots_witness :
  let spike := Sample.pairOn "pumpfun" "1.0" 80 0 5000 in
  (checkForSpike Sample.parseDecimal Sample.config (atInstant Sample.t0) spike ∅).2 = None
  /\ (checkForSpike Sample.parseDecimal Sample.config (atInstant (Sample.t0 + 4000000)) spike
        Sample.quietHistory).2 = None.
Proof.
  intros spike. split.
  - apply alert_needs_two_earlier_snapshots. vm_compute. lia.
  - apply alert_needs_two_earlier_snapshots. vm_compute. lia.
Defined.

(** ** Batches of pairs *)

Section BatchFacts.

Variable parseFloat : string -> float.
Implicit Types (tokens : gmap string TokenState) (cfg : BotConfig) (clk : Clock).

Lemma checkMultiplePairs_run cfg (pairs : list (Clock * TokenPair)) tokens :
  checkMultiplePairs parseFloat cfg pairs tokens
  = run parseFloat cfg (List.map (fun cp => Evaluate cp.1 cp.2) pairs) tokens.
Proof.
  revert tokens. induction pairs as [|[clk p] pairs IH]; intros tokens; [reflexivity|].
  simpl. destruct (checkForSpike parseFloat cfg clk p tokens) as [tokens1 fired].
  rewrite IH. reflexivity.
Qed.

Lemma fired_pair cfg clk pair tokens alert :
  (checkForSpike parseFloat cfg clk pair tokens).2 = Some alert -> alertPair alert = pair.
Proof.
  unfold checkForSpike.
  destruct (getTokenSource pair); [|discriminate].
  destruct (negb (meetsBasicCriteria parseFloat cfg pair)); [discriminate|].
  destruct (negb (isDormant _ _ _ _ _ _)); [discriminate|].
  destruct (selectTier _ _ _ _ _); [|discriminate].
  simpl. intros [= <-]. reflexivity.
Qed.

(** An alert leaves its pair cooling down from the reading of its
    [recordAlert]. *)
Lemma fired_cooling cfg clk pair tokens alert L :
  (checkForSpike parseFloat cfg clk pair tokens).2 = Some alert ->
  L <= clkSnapshot clk ->
  cooling (alertTokenAddress alert) (alertTier alert) (clkRecord clk) L
    (checkForSpike parseFloat cfg clk pair tokens).1.
Proof.
  intros Hres HL.
  pose proof (fired_shows_activity parseFloat cfg clk pair tokens alert Hres) as Hactive.
  destruct (checkForSpike_fired parseFloat cfg clk pair tokens alert Hres)
    as (_ & _ & _ & _ & Hstore & Haddr).
  destruct (updateTokenState_lookup (clkFirstSeen clk) (clkActive clk) tokens
              (address (baseToken pair)) pair
              (snapshotOf parseFloat (clkSnapshot clk) pair) (getTokenSource pair))
    as (st1 & Hst1 & _ & _ & _ & Hact).
  rewrite Hactive in Hact.
  pose proof (recordAlert_lookup (clkRecord clk) _ _ (alertTier alert) st1 Hst1) as Hrec.
  rewrite Hstore, Haddr. unfold cooling.
  eexists. split; [exact Hrec|]. simpl.
  split; [destruct (alertTier alert); reflexivity|]. rewrite Hact. exact HL.
Qed.

End BatchFacts.

(** X11.  The alerts of [checkMultiplePairs] follow the pairs: they come
    in the order of the pairs that raised them, at most one per pair, and
    the store left behind is the one reached by evaluating the pairs one
    after the other. *)
Theorem batch_alerts_follow_pairs
    (parseFloat : string -> float) (cfg : BotConfig)
    (pairs : list (Clock * TokenPair)) (tokens : gmap string TokenState) :
  let batch := checkMultiplePairs parseFloat cfg pairs tokens in
  sublist (alertPair <$> batch.2) (snd <$> pairs)
  /\ (length batch.2 <= length pairs)%nat
  /\ batch.1 = (run parseFloat cfg (List.map (fun cp => Evaluate cp.1 cp.2) pairs) tokens).1.
Proof.
  intros batch.
  assert (Hsub : sublist (alertPair <$> batch.2) (snd <$> pairs)).
  { unfold batch. clear batch. revert tokens.
    induction pairs as [|[clk p] pairs IH]; intros tokens; [constructor|].
    simpl. destruct (checkForSpike parseFloat cfg clk p tokens) as [tokens1 fired] eqn:Hc.
    specialize (IH tokens1).
    destruct (checkMultiplePairs parseFloat cfg pairs tokens1) as [tokens2 alerts].
    simpl in *. destruct fired as [alert|].
    - rewrite fmap_cons.
      rewrite (fired_pair parseFloat cfg clk p tokens alert) by (rewrite Hc; reflexivity).
      apply sublist_skip, IH.
    - apply sublist_cons, IH. }
  split; [exact Hsub|]. split.
  - apply sublist_length in Hsub. rewrite !length_fmap in Hsub. exact Hsub.
  - unfold batch. rewrite checkMultiplePairs_run. reflexivity.
Qed.

(** X12.  Within one batch whose clock readings all lie in a span shorter
    than the cooldown (and after the epoch), no identity is alerted twice
    on the same tier, even when the provider returns several pairs of the
    same token. *)
Theorem batch_alerts_once_per_tier
    (parseFloat : string -> float) (cfg : BotConfig)
    (pairs : list (Clock * TokenPair)) (tokens : gmap string TokenState) (lo : Z) :
  0 < lo ->
  Forall (fun cp => withinSpan lo (alertCooldownMs cfg) cp.1) pairs ->
  NoDup (alertKey <$> (checkMultiplePairs parseFloat cfg pairs tokens).2).
Proof.
  intros Hlo Hspan. revert tokens.
  induction Hspan as [|[clk p] pairs Hclk Hrest IH]; intros tokens; [constructor|].
  simpl. destruct (checkForSpike parseFloat cfg clk p tokens) as [tokens1 fired] eqn:Hc.
  specialize (IH tokens1).
  pose proof (checkMultiplePairs_run parseFloat cfg pairs tokens1) as Hrun.
  destruct (checkMultiplePairs parseFloat cfg pairs tokens1) as [tokens2 alerts].
  simpl in *. destruct fired as [alert|]; [|exact IH].
  rewrite fmap_cons. constructor; [|exact IH].
  destruct Hclk as (Hsnap & Hrec & _).
  assert (Hcool : cooling (alertTokenAddress alert) (alertTier alert) (clkRecord clk) lo tokens1).
  { pose proof (fired_cooling parseFloat cfg clk p tokens alert lo) as H.
    rewrite Hc in H. simpl in H. apply H; [reflexivity|exact Hsnap]. }
  assert (Hops : Forall (inCooldownWindow cfg (clkRecord clk) lo)
                   (List.map (fun cp => Evaluate cp.1 cp.2) pairs)).
  { apply Forall_map. eapply Forall_impl; [exact Hrest|].
    intros [clk' p'] (Hs & _ & Hc'). simpl in *. split; lia. }
  assert (HT : clkRecord clk <> 0) by lia.
  pose proof (run_keeps_cooling parseFloat cfg _ _ _ lo HT _ tokens1 Hcool Hops) as Hsilent.
  rewrite <- Hrun in Hsilent. simpl in Hsilent.
  intros Hin. apply list_elem_of_fmap in Hin as (alert' & Hkey & Hin).
  apply (Hsilent alert' (proj1 (list_elem_of_In _ _) Hin)).
  unfold alertKey in Hkey. injection Hkey as Ha Ht. auto.
Qed.

Lemma batch_alerts_once_per_tier_witness :
  let pool1 := Sample.pairOn "pumpfun" "1.0" 30 0 5000 in
  let pool2 := Sample.pairOn "pumpswap" "1.0" 31 0 9000 in
  let batch := checkMultiplePairs Sample.parseDecimal Sample.config
                 [(atInstant Sample.t0, pool1); (atInstant (Sample.t0 + 1), pool2)]
                 Sample.quietHistory in
  NoDup (alertKey <$> batch.2) /\ length batch.2 = 1%nat.
Proof.
  intros pool1 pool2 batch. split; [|vm_compute; reflexivity].
  apply (batch_alerts_once_per_tier Sample.parseDecimal Sample.config _ Sample.quietHistory
           Sample.t0).
  - vm_compute. reflexivity.
  - repeat constructor; vm_compute; discriminate.
Defined.

(** X13.  What the universe filter lets through, the detector's own
    gates let through as well: a pair that [filterEligiblePairs] keeps
    has a verified source and meets the basic criteria of
    [checkForSpike] under the same configuration. *)
Theorem eligible_pairs_pass_detector_gates
    (parseFloat : string -> float) (cfg : BotConfig) (now : Z)
    (pairs : list TokenPair) (pair : TokenPair) :
  In pair (filterEligiblePairs parseFloat cfg now pairs) ->
  In pair pairs
  /\ is_Some (getTokenSource pair)
  /\ meetsBasicCriteria parseFloat cfg pair = true.
Proof.
  unfold filterEligiblePairs. intros Hin. apply filter_In in Hin as [Hin Hel].
  split; [exact Hin|]. unfold eligible in Hel. unfold meetsBasicCriteria.
  destruct (_ || _); [discriminate Hel|].
  unfold isFromPumpOrBonk in Hel.
  destruct (getTokenSource pair) as [src|]; [|discriminate Hel]. split; [eauto|].
  simpl in Hel. unfold truthyStr, parseFloatOpt in Hel. unfold strOr0.
  destruct (priceUsd pair) as [[|c s]|]; try discriminate Hel. simpl in Hel.
  destruct (parseFloat (String c s) <=? 0)%float; [discriminate Hel|].
  destruct (_ <? minLiquidityUsd cfg)%float; [discriminate Hel|reflexivity].
Qed.

Lemma eligible_pairs_pass_detector_gates_witness :
  let good := Sample.pairOn "pumpfun" "1.0" 0 0 5000 in
  let thin := Sample.pairOn "pumpfun" "1.0" 0 0 1500 in
  In good (filterEligiblePairs Sample.parseDecimal Sample.config Sample.t0 [thin; good])
  /\ meetsBasicCriteria Sample.parseDecimal Sample.config good = true.
Proof.
  intros good thin.
  assert (Hin : In good (filterEligiblePairs Sample.parseDecimal Sample.config Sample.t0
                           [thin; good])) by (vm_compute; left; reflexivity).
  split; [exact Hin|].
  apply (eligible_pairs_pass_detector_gates Sample.parseDecimal Sample.config Sample.t0
           [thin; good] good Hin).
Defined.

(** ** TokenUniverseManager: the tracked set *)

(** X14.  The tracked set is a set: adding an identity twice is adding it
    once and leaves the count as it is, removing it twice is removing it
    once; an added identity is tracked, a removed one is not, and neither
    operation changes whether another identity is tracked. *)
Theorem tracked_set_is_a_set (trackedTokens : gset string) (a : string) :
  addToken (addToken trackedTokens a) a = addToken trackedTokens a
  /\ size (addToken (addToken trackedTokens a) a) = size (addToken trackedTokens a)
  /\ size (addToken trackedTokens a)
     = (if isTracked trackedTokens a then size trackedTokens else S (size trackedTokens))
  /\ removeToken (removeToken trackedTokens a) a = removeToken trackedTokens a
  /\ isTracked (addToken trackedTokens a) a = true
  /\ isTracked (removeToken trackedTokens a) a = false
  /\ (forall b, b <> a ->
        isTracked (addToken trackedTokens a) b = isTracked trackedTokens b
        /\ isTracked (removeToken trackedTokens a) b = isTracked trackedTokens b).
Proof.
  unfold addToken, removeToken, isTracked.
  assert (Htwice : {[a]} ∪ ({[a]} ∪ trackedTokens) = {[a]} ∪ trackedTokens) by set_solver.
  split; [exact Htwice|]. split; [rewrite Htwice; reflexivity|]. split.
  - case_bool_decide as Hin.
    + f_equal. set_solver.
    + rewrite size_union by set_solver. rewrite size_singleton. reflexivity.
  - split; [set_solver|]. split; [apply bool_decide_eq_true; set_solver|].
    split; [apply bool_decide_eq_false; set_solver|].
    intros b Hb. split; apply bool_decide_ext; set_solver.
Qed.

(** One search phase adds exactly the addresses [new]. *)
Lemma addDiscovered_spec (wanted : Source) (pairs : list TokenPair) :
  forall trackedTokens discovered,
  exists new,
    addDiscovered wanted pairs trackedTokens discovered
    = (list_to_set new ∪ trackedTokens, discovered ++ new)
    /\ NoDup new
    /\ (forall a, a ∈ new ->
          (a ∉ trackedTokens)
          /\ exists p, In p pairs /\ address (baseToken p) = a
                       /\ getTokenSource p = Some wanted)
    /\ (forall p, In p pairs -> getTokenSource p = Some wanted ->
          (address (baseToken p) ∈ trackedTokens) \/ (address (baseToken p) ∈ new)).
Proof.
  induction pairs as [|p pairs IH]; intros trackedTokens discovered.
  - exists []. simpl. rewrite app_nil_r. split; [f_equal; set_solver|].
    split; [constructor|]. split; [intros a Ha; inversion Ha|intros p []].
  - simpl. unfold isTracked, addToken.
    case_bool_decide as Hsrc; simpl; [case_bool_decide as Hin; simpl|].
    + destruct (IH trackedTokens discovered) as (new & -> & Hnd & Hnew & Hall).
      exists new. split; [reflexivity|]. split; [exact Hnd|]. split.
      * intros a Ha. destruct (Hnew a Ha) as (Hfresh & q & Hq & Haddr & Hsq).
        split; [exact Hfresh|]. exists q. auto.
      * intros q [<-|Hq] Hsq; [left; exact Hin|apply Hall; assumption].
    + destruct (IH ({[address (baseToken p)]} ∪ trackedTokens)
                  (discovered ++ [address (baseToken p)])) as (new & -> & Hnd & Hnew & Hall).
      exists (address (baseToken p) :: new). split; [|split; [|split]].
      * rewrite <- app_assoc. simpl. f_equal. set_solver.
      * constructor; [|exact Hnd]. intros Ha. destruct (Hnew _ Ha) as [Hfresh _]. set_solver.
      * intros a Ha. apply elem_of_cons in Ha as [->|Ha].
        -- split; [exact Hin|]. exists p. auto.
        -- destruct (Hnew a Ha) as (Hfresh & q & Hq & Haddr & Hsq).
           split; [set_solver|]. exists q. auto.
      * intros q [<-|Hq] Hsq; [right; left|].
        destruct (Hall q Hq Hsq) as [H|H]; [|right; right; exact H].
        apply elem_of_union in H as [H|H]; [|left; exact H].
        right. apply elem_of_singleton in H. rewrite H. left.
    + destruct (IH trackedTokens discovered) as (new & -> & Hnd & Hnew & Hall).
      exists new. split; [reflexivity|]. split; [exact Hnd|]. split.
      * intros a Ha. destruct (Hnew a Ha) as (Hfresh & q & Hq & Haddr & Hsq).
        split; [exact Hfresh|]. exists q. auto.
      * intros q [<-|Hq] Hsq; [contradiction|apply Hall; assumption].
Qed.

(** A phase all of whose candidates are tracked adds nothing. *)
Lemma addDiscovered_nothing (wanted : Source) (pairs : list TokenPair) :
  forall trackedTokens discovered,
    (forall p, In p pairs -> getTokenSource p = Some wanted ->
       address (baseToken p) ∈ trackedTokens) ->
    addDiscovered wanted pairs trackedTokens discovered = (trackedTokens, discovered).
Proof.
  induction pairs as [|p pairs IH]; intros trackedTokens discovered Hall; [reflexivity|].
  simpl. unfold isTracked.
  case_bool_decide as Hsrc; simpl; [case_bool_decide as Hin; simpl|].
  - apply IH. intros q Hq. apply Hall. right. exact Hq.
  - exfalso. apply Hin, Hall; [left; reflexivity|exact Hsrc].
  - apply IH. intros q Hq. apply Hall. right. exact Hq.
Qed.


(** X15.  [discoverTokens] returns the identities it added, each once and
    none of them tracked before; the tracked set afterwards is the old
    one plus these; each comes from an eligible pair of the search whose
    source it verifies (a search that threw contributes nothing and does
    not stop the other); and running it again on the same answers adds
    nothing. *)
Theorem discoverTokens_adds_new_verified_identities
    (parseFloat : string -> float) (cfg : BotConfig) (nowPump nowBonk : Z)
    (foundPump foundBonk : option (list TokenPair)) (trackedTokens : gset string) :
  let result := discoverTokens parseFloat cfg nowPump nowBonk foundPump foundBonk
                  trackedTokens in
  let eligibleOf := fun now found =>
    filterEligiblePairs parseFloat cfg now (default [] found) in
  NoDup result.2
  /\ (forall a, a ∈ result.1 <-> a ∈ trackedTokens \/ a ∈ result.2)
  /\ (forall a, a ∈ result.2 ->
        (a ∉ trackedTokens)
        /\ exists p, address (baseToken p) = a
             /\ ((In p (eligibleOf nowPump foundPump) /\ getTokenSource p = Some pumpfun)
                 \/ (In p (eligibleOf nowBonk foundBonk) /\ getTokenSource p = Some bonk)))
  /\ discoverTokens parseFloat cfg nowPump nowBonk foundPump foundBonk result.1
     = (result.1, []).
Proof.
  intros result eligibleOf.
  assert (Hphase : forall now wanted found t d,
            discoverPhase parseFloat cfg now wanted found t d
            = addDiscovered wanted (eligibleOf now found) t d).
  { intros now wanted [pairs|] t d; reflexivity. }
  unfold result, discoverTokens. rewrite !Hphase.
  destruct (addDiscovered_spec pumpfun (eligibleOf nowPump foundPump) trackedTokens [])
    as (new1 & -> & Hnd1 & Hnew1 & Hall1).
  rewrite !Hphase.
  destruct (addDiscovered_spec bonk (eligibleOf nowBonk foundBonk)
              (list_to_set new1 ∪ trackedTokens) ([] ++ new1))
    as (new2 & -> & Hnd2 & Hnew2 & Hall2).
  simpl. split; [|split; [|split]].
  - apply NoDup_app. split; [exact Hnd1|]. split; [|exact Hnd2].
    intros a Ha1 Ha2. destruct (Hnew2 a Ha2) as [Hfresh _]. set_solver.
  - intros a. rewrite !elem_of_union, !elem_of_list_to_set, elem_of_app. tauto.
  - intros a Ha. apply elem_of_app in Ha as [Ha|Ha].
    + destruct (Hnew1 a Ha) as (Hfresh & p & Hp & Haddr & Hsrc). split; [exact Hfresh|].
      exists p. auto.
    + destruct (Hnew2 a Ha) as (Hfresh & p & Hp & Haddr & Hsrc). split; [set_solver|].
      exists p. auto.
  - rewrite addDiscovered_nothing.
    + rewrite Hphase. apply addDiscovered_nothing.
      intros p Hp Hsrc. destruct (Hall2 p Hp Hsrc); set_solver.
    + intros p Hp Hsrc. destruct (Hall1 p Hp Hsrc); set_solver.
Qed.

Lemma discoverTokens_adds_new_verified_identities_witness :
  let known := Sample.pairOn "pumpfun" "1.0" 0 0 5000 in
  let fresh := {| chainId := "solana"; dexId := Some "LaunchLab-BONK";
                  pairAddress := "Pair2";
                  baseToken := {| address := "Mint2"; symbol := "B2"; name := "Second" |};
                  priceUsd := Some "0.5"; fdv := Some 9000%float;
                  volume_m5 := None; volume_h24 := None;
                  priceChange_m5 := None; priceChange_h24 := None;
                  liquidity_usd := Some 2500%float; pairCreatedAt := None |} in
  let result := discoverTokens Sample.parseDecimal Sample.config Sample.t0 Sample.t0
                  None (Some [known; fresh; fresh]) {[ address Sample.token ]} in
  result.2 = ["Mint2"]
  /\ ("Mint2" ∉ ({[ address Sample.token ]} : gset string)).
Proof.
  intros known fresh result.
  assert (Hres : result.2 = ["Mint2"]) by (vm_compute; reflexivity).
  split; [exact Hres|].
  destruct (discoverTokens_adds_new_verified_identities Sample.parseDecimal Sample.config
              Sample.t0 Sample.t0 None (Some [known; fresh; fresh]) {[ address Sample.token ]})
    as (_ & _ & Hnew & _).
  apply (Hnew "Mint2"). fold result. rewrite Hres. apply list_elem_of_In. left. reflexivity.
Defined.

(** ** The revalidation pass of the discovery cycle *)

Lemma revalidate_visit (parseFloat : string -> float) (cfg : BotConfig)
    (a : string) (now : Z) (fetched : option (list TokenPair)) (svc : Service) :
  a ∈ universe svc ->
  let visit := (a, now, fetched) in
  let r := revalidate parseFloat cfg now fetched a svc in
  stateManager r.1 = stateManager svc
  /\ universe r.1 = (if visitDrops parseFloat cfg visit
                     then universe svc ∖ {[a]} else universe svc)
  /\ r.2 = negb (visitDrops parseFloat cfg visit || visitFailed visit).
Proof.
  intros Ha. unfold revalidate, updateTokenEligibility, visitDrops, visitFailed, isTracked,
    addToken, removeToken.
  destruct fetched as [pairs|]; simpl; [|auto].
  destruct (0 <? length (filterEligiblePairs parseFloat cfg now pairs))%nat; simpl.
  - rewrite bool_decide_eq_true_2 by exact Ha. auto.
  - auto.
Qed.

(** X16.  The pass over the identities tracked when it starts (each
    visited once) never touches the stored states and only removes:
    an identity stays tracked unless its visit got an answer with no
    eligible pair.  [updatedCount] counts these removals and, besides,
    every visit whose provider call threw, although such an identity
    stays tracked; the tracked set shrinks by the removals alone. *)
Theorem revalidation_pass_only_removes
    (parseFloat : string -> float) (cfg : BotConfig)
    (visits : list (string * Z * option (list TokenPair))) (svc : Service) :
  NoDup (map visitAddress visits) ->
  (forall v, In v visits -> visitAddress v ∈ universe svc) ->
  let after := (revalidateAll parseFloat cfg visits svc).1 in
  let updatedCount := (revalidateAll parseFloat cfg visits svc).2 in
  let dropped := List.filter (visitDrops parseFloat cfg) visits in
  stateManager after = stateManager svc
  /\ (forall a, a ∈ universe after <->
                a ∈ universe svc /\ ~ In a (map visitAddress dropped))
  /\ updatedCount = (length dropped + length (List.filter visitFailed visits))%nat
  /\ (size (universe after) + length dropped)%nat = size (universe svc).
Proof.
  revert svc. induction visits as [|[[a now] fetched] rest IH]; intros svc Hnd Hin.
  - simpl. split; [reflexivity|]. split; [tauto|]. split; [reflexivity|lia].
  - change (NoDup (a :: map visitAddress rest)) in Hnd.
    apply NoDup_cons in Hnd as [Hfresh Hnd].
    assert (Ha : a ∈ universe svc) by (apply (Hin (a, now, fetched)); left; reflexivity).
    destruct (revalidate_visit parseFloat cfg a now fetched svc Ha) as (Hst & Huni & Hflag).
    cbn zeta in Hst, Huni, Hflag. cbn [revalidateAll].
    destruct (revalidate parseFloat cfg now fetched a svc) as [svc1 flag] eqn:Hrev.
    simpl in Hst, Huni, Hflag.
    assert (Hin1 : forall v, In v rest -> visitAddress v ∈ universe svc1).
    { intros v Hv. rewrite Huni.
      assert (visitAddress v <> a).
      { intros Heq. apply Hfresh. rewrite <- Heq.
        apply list_elem_of_In, in_map, Hv. }
      assert (visitAddress v ∈ universe svc) by (apply Hin; right; exact Hv).
      destruct (visitDrops parseFloat cfg (a, now, fetched)); set_solver. }
    destruct (IH svc1 Hnd Hin1) as (IHst & IHuni & IHcount & IHsize).
    destruct (revalidateAll parseFloat cfg rest svc1) as [svc2 n] eqn:Hall.
    simpl in IHst, IHuni, IHcount, IHsize. simpl.
    split; [congruence|].
    assert (Hnotin : ~ In a (map visitAddress (List.filter (visitDrops parseFloat cfg) rest))).
    { intros Hx. apply Hfresh. apply list_elem_of_In.
      apply in_map_iff in Hx as (v & Hv & Hx). apply in_map_iff. exists v.
      apply filter_In in Hx as [Hx _]. auto. }
    rewrite Hflag, Huni in *.
    assert (Hexcl : visitDrops parseFloat cfg (a, now, fetched) = true ->
                    visitFailed (a, now, fetched) = false).
    { unfold visitDrops, visitFailed. simpl. destruct fetched; [reflexivity|discriminate]. }
    destruct (visitDrops parseFloat cfg (a, now, fetched)) eqn:Hdrop; simpl.
    + split; [|split].
      * intros b. rewrite IHuni. unfold visitAddress at 2. simpl. set_solver.
      * rewrite (Hexcl eq_refl). lia.
      * assert (size (universe svc ∖ {[a]}) + 1 = size (universe svc))%nat.
        { assert (Heq : {[a]} ∪ universe svc ∖ {[a]} = universe svc).
          { apply set_eq. intros b. destruct (decide (b = a)); set_solver. }
          pose proof (size_union ({[a]} : gset string) (universe svc ∖ {[a]})) as Hs.
          rewrite Heq, size_singleton in Hs. rewrite Hs by set_solver. lia. }
        lia.
    + split; [|split].
      * intros b. rewrite IHuni. tauto.
      * destruct (visitFailed (a, now, fetched)); simpl; lia.
      * exact IHsize.
Qed.

Lemma revalidation_pass_only_removes_witness :
  let a := address Sample.token in
  let svc := {| universe := {[ a ]} ∪ {[ "OtherMint" ]}; stateManager := Sample.quietHistory |} in
  let thin := Sample.pairOn "pumpfun" "1.0" 0 0 1500 in
  let visits := [(a, Sample.t0, Some [thin]); ("OtherMint", Sample.t0, None)] in
  let result := revalidateAll Sample.parseDecimal Sample.config visits svc in
  result.2 = 2%nat /\ (size (universe result.1) + 1)%nat = size (universe svc).
Proof.
  intros a svc thin visits result.
  assert (Hnd : NoDup (map visitAddress visits)).
  { apply NoDup_cons. split; [|apply NoDup_singleton].
    intros H. apply list_elem_of_In in H. destruct H as [H|[]]. discriminate H. }
  assert (Hin : forall v, In v visits -> visitAddress v ∈ universe svc).
  { intros v [<-|[<-|[]]]; unfold visitAddress; simpl; set_solver. }
  destruct (revalidation_pass_only_removes Sample.parseDecimal Sample.config visits svc Hnd Hin)
    as (_ & _ & Hcount & Hsize).
  split; [exact Hcount|exact Hsize].
Defined.

(** ** DexScreenerService: batches of thirty *)

Lemma slicesFrom_spec {A : Type} (size : nat) (l : list A) :
  (0 < size)%nat ->
  forall fuel i, (length l <= i + fuel)%nat ->
    concat (slicesFrom fuel size i l) = skipn i l
    /\ Forall (fun batch => (1 <= length batch <= size)%nat) (slicesFrom fuel size i l)
    /\ (length (slicesFrom fuel size i l) * size < length l - i + size)%nat
    /\ (length l - i <= length (slicesFrom fuel size i l) * size)%nat.
Proof.
  intros Hsize. induction fuel as [|fuel IH]; intros i Hfuel.
  - simpl. rewrite skipn_all2 by lia. split; [reflexivity|]. split; [constructor|]. lia.
  - simpl. destruct (i <? length l)%nat eqn:Hi.
    + apply Nat.ltb_lt in Hi.
      destruct (IH (i + size)%nat) as (Hcat & Hall & Hlo & Hhi); [lia|].
      simpl. rewrite Hcat. split; [|split].
      * rewrite Nat.add_comm, <- skipn_skipn. apply firstn_skipn.
      * constructor; [|exact Hall].
        rewrite length_firstn, length_skipn. lia.
      * destruct (le_lt_dec (length l) (i + size)) as [Hlast|Hmore]; [|lia].
        assert (Hnil : slicesFrom fuel size (i + size) l = []).
        { destruct fuel; simpl; [reflexivity|].
          rewrite (proj2 (Nat.ltb_ge _ _) Hlast). reflexivity. }
        rewrite Hnil. simpl. lia.
    + apply Nat.ltb_ge in Hi. rewrite skipn_all2 by lia.
      split; [reflexivity|]. split; [constructor|]. simpl. lia.
Qed.

Lemma fetchBatches_returned {E : Type}
    (fetch : nat -> string -> ErrorHandler.Outcome (option (list TokenPair)) E)
    (batches : list (list string)) :
  forall k allPairs,
    Forall (fun o => ErrorHandler.threw o = false) (outcomesFrom fetch k batches) ->
    let r := fetchBatches fetch k batches allPairs in
    r.2 = ErrorHandler.Returned
            (allPairs ++ concat (map answered (outcomesFrom fetch k batches)))
    /\ requestsOf r.1 = map (String.concat ",") batches
    /\ pausesOf r.1 = repeat 200 (length batches - 1).
Proof.
  induction batches as [|batch rest IH]; intros k allPairs Hall.
  - simpl. rewrite app_nil_r. auto.
  - simpl in Hall. apply Forall_cons in Hall as [Hhead Hall].
    cbn [fetchBatches outcomesFrom map concat].
    destruct (fetch k (String.concat "," batch)) as [pairs|error]; [|discriminate Hhead].
    destruct (IH (S k) (allPairs ++ default [] pairs) Hall) as (Hres & Hreq & Hpause).
    destruct (fetchBatches fetch (S k) rest (allPairs ++ default [] pairs)) as [events result].
    simpl in Hres, Hreq, Hpause. cbn [fst snd answered].
    split; [rewrite Hres, <- app_assoc; reflexivity|].
    unfold requestsOf, pausesOf in *. cbn [omap list_omap]. 
    rewrite !omap_app, Hreq, Hpause.
    destruct rest as [|next rest]; simpl; [auto|].
    rewrite Nat.sub_0_r. auto.
Qed.

Lemma fetchBatches_thrown {E : Type}
    (fetch : nat -> string -> ErrorHandler.Outcome (option (list TokenPair)) E)
    (batches : list (list string)) :
  forall k allPairs before error after,
    outcomesFrom fetch k batches = before ++ ErrorHandler.Thrown error :: after ->
    Forall (fun o => ErrorHandler.threw o = false) before ->
    let r := fetchBatches fetch k batches allPairs in
    r.2 = ErrorHandler.Thrown error
    /\ requestsOf r.1 = map (String.concat ",") (firstn (S (length before)) batches)
    /\ pausesOf r.1 = repeat 200 (length before).
Proof.
  induction batches as [|batch rest IH]; intros k allPairs before error after Hout Hbefore.
  - destruct before; discriminate Hout.
  - cbn [fetchBatches outcomesFrom] in *.
    destruct before as [|o before].
    + simpl in Hout. injection Hout as Hhead Hrest. rewrite Hhead. simpl. auto.
    + simpl in Hout. injection Hout as Hhead Hrest.
      apply Forall_cons in Hbefore as [Ho Hbefore]. rewrite Hhead.
      destruct o as [pairs|e]; [|discriminate Ho].
      destruct (IH (S k) (allPairs ++ default [] pairs) before error after Hrest Hbefore)
        as (Hres & Hreq & Hpause).
      destruct (fetchBatches fetch (S k) rest (allPairs ++ default [] pairs)) as [events result].
      simpl in Hres, Hreq, Hpause. cbn [fst snd length].
      split; [exact Hres|].
      unfold requestsOf, pausesOf in *. cbn [omap list_omap].
      rewrite !omap_app, Hreq, Hpause.
      destruct rest as [|next rest]; [destruct before; discriminate Hrest|].
      simpl. auto.
Qed.

(** X17.  The loop [for (let i = 0; i < n; i += size)] with
    [slice(i, i + size)] cuts the addresses into consecutive batches:
    put end to end they are the addresses again, in order; every batch
    has between one and [size] addresses; and there are as few batches
    as that allows. *)
Theorem slices_partition_in_order {A : Type} (size : nat) (l : list A) :
  (0 < size)%nat ->
  concat (slices size l) = l
  /\ Forall (fun batch => (1 <= length batch <= size)%nat) (slices size l)
  /\ (length l <= length (slices size l) * size < length l + size)%nat.
Proof.
  intros Hsize. unfold slices.
  destruct (slicesFrom_spec size l Hsize (length l) 0%nat) as (Hcat & Hall & Hlo & Hhi); [lia|].
  split; [exact Hcat|]. split; [exact Hall|]. lia.
Qed.

Lemma slices_partition_in_order_witness :
  concat (slices 2 ["a"; "b"; "c"]) = ["a"; "b"; "c"]
  /\ Forall (fun batch => (1 <= length batch <= 2)%nat) (slices 2 ["a"; "b"; "c"])
  /\ (3 <= length (slices 2 ["a"; "b"; "c"]) * 2 < 3 + 2)%nat.
Proof.
  apply (slices_partition_in_order 2 ["a"; "b"; "c"]). lia.
Defined.

(** X18.  [getMultipleTokenPairs] asks the provider once per batch of at
    most thirty addresses, in order, each time with the batch joined by
    commas.  While the calls return, it waits 200 ms between two calls
    (not after the last) and returns the answers end to end, a missing
    answer counting as empty.  At the first call that throws it stops:
    no later batch is requested and the pairs gathered so far are not
    returned, the error is. *)
Theorem getMultipleTokenPairs_asks_batch_by_batch {E : Type}
    (fetch : nat -> string -> ErrorHandler.Outcome (option (list TokenPair)) E)
    (tokenAddresses : list string) :
  let batches := slices 30 tokenAddresses in
  let outcomes := outcomesFrom fetch 0 batches in
  let r := getMultipleTokenPairs fetch tokenAddresses in
  (Forall (fun o => ErrorHandler.threw o = false) outcomes ->
     r.2 = ErrorHandler.Returned (concat (map answered outcomes))
     /\ requestsOf r.1 = map (String.concat ",") batches
     /\ pausesOf r.1 = repeat 200 (length batches - 1))
  /\ (forall before error after,
        outcomes = before ++ ErrorHandler.Thrown error :: after ->
        Forall (fun o => ErrorHandler.threw o = false) before ->
        r.2 = ErrorHandler.Thrown error
        /\ requestsOf r.1 = map (String.concat ",") (firstn (S (length before)) batches)
        /\ pausesOf r.1 = repeat 200 (length before)).
Proof.
  intros batches outcomes r. split.
  - intros Hall. apply (fetchBatches_returned fetch batches 0%nat [] Hall).
  - intros before error after Hout Hbefore.
    apply (fetchBatches_thrown fetch batches 0%nat [] before error after Hout Hbefore).
Qed.

Lemma getMultipleTokenPairs_asks_batch_by_batch_witness :
  let fetch := fun (k : nat) (_ : string) =>
    if (k =? 0)%nat then ErrorHandler.Returned (Some [Sample.pairOn "pumpfun" "1.0" 0 0 5000])
    else ErrorHandler.Thrown tt in
  let r := getMultipleTokenPairs fetch (repeat "Mint" 31) in
  r.2 = ErrorHandler.Thrown tt
  /\ length (requestsOf r.1) = 2%nat
  /\ pausesOf r.1 = [200].
Proof.
  intros fetch r.
  destruct (getMultipleTokenPairs_asks_batch_by_batch fetch (repeat "Mint" 31)) as [_ Hthrown].
  destruct (Hthrown [ErrorHandler.Returned (Some [Sample.pairOn "pumpfun" "1.0" 0 0 5000])]
              tt []) as (Hres & Hreq & Hpause).
  - vm_compute. reflexivity.
  - repeat constructor.
  - split; [exact Hres|]. split; [|exact Hpause].
    fold r in Hreq. rewrite Hreq. reflexivity.
Defined.

(** ** DexScreenerService: the primary pair and the market-cap filter *)

(** Between numbers the order is total: below [z], or not below [y],
    for any number [y] ... *)
Lemma SFcompare_Lt_split (x y z : spec_float) :
  SFcompare x z = Some Lt -> y <> S754_nan ->
  SFcompare x y = Some Lt \/ SFcompare y z = Some Lt.
Proof.
  destruct x as [sx|sx| |sx mx ex], y as [sy|sy| |sy my ey], z as [sz|sz| |sz mz ez];
    cbv beta iota delta [SFcompare];
    try destruct sx; try destruct sy; try destruct sz;
    intros H Hy; try congruence; auto.
  all: revert H; rewrite ?Pos.compare_cont_spec; unfold Pos.switch_Eq.
  all: destruct (Z.compare_spec ex ey), (Z.compare_spec ey ez), (Z.compare_spec ex ez);
    try congruence; try lia; subst; auto.
  all: destruct (Pos.compare_spec mx my), (Pos.compare_spec my mz), (Pos.compare_spec mx mz);
    simpl; try congruence; try lia; auto.
Qed.

Lemma ltb_split (x y z : float) :
  is_nan y = false -> (x <? z)%float = true ->
  (x <? y)%float = true \/ (y <? z)%float = true.
Proof.
  intros Hy%is_nan_false. rewrite !FloatAxioms.ltb_spec. unfold SFltb.
  destruct (SFcompare (Prim2SF x) (Prim2SF z)) as [[]|] eqn:Hxz; try discriminate.
  intros _. destruct (SFcompare_Lt_split _ _ _ Hxz Hy) as [-> | ->]; auto.
Qed.

Lemma ltb_total_or_eqb (x y : float) :
  is_nan x = false -> is_nan y = false ->
  (x <? y)%float = true \/ (y =? x)%float = true \/ (y <? x)%float = true.
Proof.
  intros Hx%is_nan_false Hy%is_nan_false.
  rewrite !FloatAxioms.ltb_spec, FloatAxioms.eqb_spec. unfold SFltb, SFeqb.
  rewrite (SFcompare_antisym (Prim2SF x) (Prim2SF y)).
  destruct (SFcompare (Prim2SF x) (Prim2SF y)) as [[]|] eqn:Hc; simpl; auto.
  destruct (SFcompare_None _ _ Hc); contradiction.
Qed.

Lemma orZero_not_nan (x : float) : is_nan (Js.orZero x) = false.
Proof.
  unfold Js.orZero. destruct (is_nan x) eqn:Hx; [reflexivity|].
  destruct (is_zero x); [reflexivity|exact Hx].
Qed.

Lemma optOrZero_not_nan (v : option float) : is_nan (Js.optOrZero v) = false.
Proof.
  destruct v as [x|]; [apply orZero_not_nan|reflexivity].
Qed.

(** The [reduce] of [getPrimaryPair], from any accumulator. *)
Lemma moreLiquid_fold (rest : list TokenPair) :
  forall first,
    let liq := fun p => Js.optOrZero (liquidity_usd p) in
    let best := fold_left moreLiquid rest first in
    (best = first /\ forall p, In p rest -> (liq first <? liq p)%float = false)
    \/ (exists before after,
          rest = before ++ best :: after
          /\ (liq first <? liq best)%float = true
          /\ (forall p, In p before -> (liq p <? liq best)%float = true)
          /\ (forall p, In p after -> (liq best <? liq p)%float = false)).
Proof.
  induction rest as [|q rest IH]; intros first liq.
  - left. split; [reflexivity|intros p []].
  - cbn [fold_left].
    assert (Hstep : moreLiquid first q
                    = if (liq first <? liq q)%float then q else first) by reflexivity.
    rewrite Hstep. clear Hstep.
    destruct (liq first <? liq q)%float eqn:Hcmp.
    + right. destruct (IH q) as [[Hbest Hrest]|(before & after & Hsplit & Hlt & Hb & Ha)].
      * exists [], rest. rewrite Hbest. split; [reflexivity|]. split; [exact Hcmp|].
        split; [intros p []|exact Hrest].
      * exists (q :: before), after. split; [simpl; f_equal; exact Hsplit|].
        split; [exact (ltb_trans _ _ _ Hcmp Hlt)|]. split; [|exact Ha].
        intros p [<-|Hp]; [exact Hlt|apply Hb, Hp].
    + destruct (IH first) as [[Hbest Hrest]|(before & after & Hsplit & Hlt & Hb & Ha)].
      * left. split; [exact Hbest|]. intros p [<-|Hp]; [exact Hcmp|apply Hrest, Hp].
      * right. exists (q :: before), after. split; [simpl; f_equal; exact Hsplit|].
        split; [exact Hlt|]. split; [|exact Ha].
        intros p [<-|Hp]; [|apply Hb, Hp].
        destruct (ltb_split (liq first) (liq q) _ (optOrZero_not_nan _) Hlt) as [H|H];
          [fold liq in H; congruence|exact H].
Qed.

(** X19.  [getPrimaryPair] answers [null] exactly on no pairs; otherwise
    it answers one of the pairs, namely the first of those with the
    greatest liquidity: every pair before it has strictly less, no pair
    after it has more (a missing, zero or [NaN] liquidity counting as
    0). *)
Theorem getPrimaryPair_is_first_most_liquid (pairs : list TokenPair) :
  let liq := fun p => Js.optOrZero (liquidity_usd p) in
  match getPrimaryPair pairs with
  | None => pairs = []
  | Some best =>
      exists before after,
        pairs = before ++ best :: after
        /\ (forall p, In p before -> (liq p <? liq best)%float = true)
        /\ (forall p, In p after -> (liq best <? liq p)%float = false)
  end.
Proof.
  intros liq. destruct pairs as [|first rest]; [reflexivity|]. simpl.
  destruct (moreLiquid_fold rest first)
    as [[Hbest Hrest]|(before & after & Hsplit & Hlt & Hb & Ha)].
  - exists [], rest. rewrite Hbest. split; [reflexivity|]. split; [intros p []|exact Hrest].
  - exists (first :: before), after. split; [simpl; f_equal; exact Hsplit|].
    split; [|exact Ha]. intros p [<-|Hp]; [exact Hlt|apply Hb, Hp].
Qed.

(** X20.  [filterByMarketCap] keeps only pairs that pass the market-cap
    gate of [meetsBasicCriteria] and [filterEligiblePairs]
    ([marketCap >= maxMarketCap || marketCap === 0] false); a pair that
    passes that gate is kept by the filter when its valuation is not
    negative and the cap is a number. *)
Theorem filterByMarketCap_agrees_with_gate (pairs : list TokenPair) (cap : float)
    (p : TokenPair) :
  let marketCap := Js.optOrZero (fdv p) in
  let gate := negb ((cap <=? marketCap)%float || (marketCap =? 0)%float) in
  (In p (filterByMarketCap pairs cap) -> In p pairs /\ gate = true)
  /\ (In p pairs -> gate = true -> is_nan cap = false -> (marketCap <? 0)%float = false ->
      In p (filterByMarketCap pairs cap)).
Proof.
  intros marketCap gate. unfold filterByMarketCap. rewrite filter_In.
  fold marketCap. unfold gate. split.
  - intros [Hin Hkeep]. split; [exact Hin|].
    apply andb_prop in Hkeep as [Hpos Hcap].
    rewrite (ltb_not_leb _ _ Hcap), (ltb_zero_not_eqb _ Hpos). reflexivity.
  - intros Hin Hgate Hnan Hneg. split; [exact Hin|].
    apply negb_true_iff, orb_false_iff in Hgate as [Hcap Hzero].
    rewrite (not_leb_ltb marketCap cap (optOrZero_not_nan _) Hnan Hcap), andb_true_r.
    destruct (ltb_total_or_eqb 0 marketCap eq_refl (optOrZero_not_nan _)) as [H|[H|H]];
      congruence.
Qed.

Lemma filterByMarketCap_agrees_with_gate_witness :
  let p := Sample.pairOn "pumpfun" "1.0" 0 0 5000 in
  In p (filterByMarketCap [p] MAX_MARKET_CAP).
Proof.
  intros p.
  destruct (filterByMarketCap_agrees_with_gate [p] MAX_MARKET_CAP p) as [_ Hkept].
  apply Hkept; [left; reflexivity|vm_compute; reflexivity..].
Defined.

(** ** RateLimiter *)

Section RateLimiterFacts.

Variables maxRequests windowMs : Z.

Local Abbreviation within := (fun (now timestamp : Z) => now - timestamp <? windowMs).

Lemma prune_length (now : Z) (requests : list Z) :
  (length (RateLimiter.prune windowMs now requests) <= length requests)%nat.
Proof.
  unfold RateLimiter.prune. induction requests as [|r requests IH]; simpl; [lia|].
  destruct (now - r <? windowMs); simpl; lia.
Qed.


Lemma filter_length_le {A : Type} (f : A -> bool) (l : list A) :
  (length (List.filter f l) <= length l)%nat.
Proof.
  induction l as [|a l IH]; simpl; [lia|]. destruct (f a); simpl; lia.
Qed.

Lemma filter_drops {A : Type} (f : A -> bool) (l : list A) (a : A) :
  In a l -> f a = false -> (length (List.filter f l) < length l)%nat.
Proof.
  induction l as [|b l IH]; intros Hin Hfa; [destruct Hin|].
  simpl. destruct Hin as [->|Hin].
  - rewrite Hfa. pose proof (filter_length_le f l). lia.
  - specialize (IH Hin Hfa). destruct (f b); simpl; lia.
Qed.

Lemma fold_min_in (rest : list Z) :
  forall first, In (fold_left Z.min rest first) (first :: rest).
Proof.
  induction rest as [|r rest IH]; intros first; [left; reflexivity|].
  cbn [fold_left]. destruct (IH (Z.min first r)) as [H|H]; [|right; right; exact H].
  rewrite <- H. destruct (Z.min_spec first r) as [[_ ->]|[_ ->]]; [left|right; left]; reflexivity.
Qed.

Lemma oldestRequest_in (requests : list Z) (oldest : Z) :
  RateLimiter.oldestRequest requests = Some oldest -> In oldest requests.
Proof.
  destruct requests as [|first rest]; [discriminate|].
  intros [= <-]. apply fold_min_in.
Qed.


End RateLimiterFacts.



(** X22.  At one instant [getRemainingRequests] and [canMakeRequest]
    agree: both leave the same pruned log, a request can be made exactly
    when the remaining budget is positive, and the budget is what is
    missing to [maxRequests], never negative. *)
Theorem remaining_budget_agrees_with_check (maxRequests windowMs now : Z)
    (requests : list Z) :
  let asked := RateLimiter.getRemainingRequests maxRequests windowMs now requests in
  let checked := RateLimiter.canMakeRequest maxRequests windowMs now requests in
  asked.1 = checked.1
  /\ checked.2 = (0 <? asked.2)
  /\ 0 <= asked.2
  /\ (checked.2 = true -> asked.2 + Z.of_nat (length asked.1) = maxRequests)
  /\ Forall (fun timestamp => now - timestamp < windowMs) asked.1.
Proof.
  unfold RateLimiter.getRemainingRequests, RateLimiter.canMakeRequest. cbn [fst snd].
  split; [reflexivity|]. split; [|split; [lia|split]].
  - destruct (Z.ltb_spec (Z.of_nat (length (RateLimiter.prune windowMs now requests)))
                maxRequests);
      destruct (Z.ltb_spec 0
                  (Z.max 0 (maxRequests
                            - Z.of_nat (length (RateLimiter.prune windowMs now requests)))));
      lia.
  - intros Hok%Z.ltb_lt. lia.
  - unfold RateLimiter.prune. apply List.Forall_forall. intros timestamp Hin.
    apply filter_In in Hin as [_ Hin]. apply Z.ltb_lt, Hin.
Qed.

(** X23.  [waitForAvailability] on a log of at most [maxRequests >= 1]
    stamps returns at its first or second check, so it sleeps at most
    once, for a finite positive time, provided the clock does not go
    back and the timer fires no earlier than asked; the log it leaves
    has room for a request. *)
Theorem waitForAvailability_sleeps_at_most_once (maxRequests windowMs : Z)
    (nowCheck nowCompute nowCheck' nowCompute' : Z) (later : list (Z * Z))
    (requests : list Z) :
  1 <= maxRequests ->
  Z.of_nat (length requests) <= maxRequests ->
  nowCheck <= nowCompute ->
  (forall oldest,
     RateLimiter.oldestRequest (RateLimiter.prune windowMs nowCheck requests) = Some oldest ->
     nowCompute + Z.max 0 (windowMs - (nowCompute - oldest) + 100) <= nowCheck') ->
  exists requests' delays,
    RateLimiter.waitForAvailability maxRequests windowMs
      ((nowCheck, nowCompute) :: (nowCheck', nowCompute') :: later) requests
    = Some (requests', delays)
    /\ Z.of_nat (length requests') < maxRequests
    /\ (length delays <= 1)%nat
    /\ Forall (fun d => exists ms, d = Some ms /\ 0 < ms) delays.
Proof.
  intros Hmax Hlen Hclock Htimer.
  cbn [RateLimiter.waitForAvailability]. unfold RateLimiter.canMakeRequest at 1.
  set (pruned := RateLimiter.prune windowMs nowCheck requests) in *.
  assert (Hpruned : Z.of_nat (length pruned) <= maxRequests).
  { pose proof (prune_length windowMs nowCheck requests). fold pruned in H. lia. }
  destruct (Z.ltb_spec (Z.of_nat (length pruned)) maxRequests) as [Hroom|Hfull].
  - exists pruned, []. split; [reflexivity|]. split; [exact Hroom|].
    split; [simpl; lia|constructor].
  - destruct (RateLimiter.oldestRequest pruned) as [oldest|] eqn:Hold.
    2:{ destruct pruned; [simpl in Hfull; lia|discriminate Hold]. }
    specialize (Htimer oldest eq_refl).
    pose proof (oldestRequest_in pruned oldest Hold) as Hin.
    assert (Hshorter : (length (RateLimiter.prune windowMs nowCheck' pruned)
                        < length pruned)%nat).
    { apply (filter_drops _ pruned oldest Hin). apply Z.ltb_ge. lia. }
    unfold RateLimiter.canMakeRequest.
    rewrite (proj2 (Z.ltb_lt _ maxRequests)) by lia.
    eexists _, _. split; [reflexivity|]. split; [lia|].
    rewrite app_nil_r.
    destruct (Z.ltb_spec 0 (windowMs - (nowCompute - oldest) + 100)) as [Hpos|Hneg].
    + split; [simpl; lia|]. constructor; [|constructor]. eauto.
    + split; [simpl; lia|constructor].
Qed.

Lemma waitForAvailability_sleeps_at_most_once_witness :
  exists requests' delays,
    RateLimiter.waitForAvailability 2 1000 [(1500, 1501); (2200, 2201)] [1100; 1300]
    = Some (requests', delays)
    /\ Z.of_nat (length requests') < 2
    /\ (length delays <= 1)%nat
    /\ Forall (fun d => exists ms, d = Some ms /\ 0 < ms) delays.
Proof.
  apply (waitForAvailability_sleeps_at_most_once 2 1000 1500 1501 2200 2201 [] [1100; 1300]);
    [lia|simpl; lia|lia|].
  intros oldest [= <-]. vm_compute. discriminate.
Defined.

(** ** Config: what the commands can change *)

Lemma call_frame (c : Config.Call) (cfg : BotConfig) :
  let after := Config.call c cfg in
  maxMarketCap after = maxMarketCap cfg
  /\ minLiquidityUsd after = minLiquidityUsd cfg
  /\ pollingIntervalMs after = pollingIntervalMs cfg
  /\ dormantVolatilityThreshold after = dormantVolatilityThreshold cfg
  /\ dormantVolumeThreshold after = dormantVolumeThreshold cfg
  /\ baselinePeriodMinutes after = baselinePeriodMinutes cfg
  /\ alertCooldownMs after = alertCooldownMs cfg
  /\ ((minTokenAgeHours cfg <? 0)%float = false ->
      (minTokenAgeHours after <? 0)%float = false).
Proof.
  destruct c as [| |[] enabled|hours]; simpl; try tauto.
  unfold Config.setMinTokenAge. destruct (hours <? 0)%float eqn:Hneg; simpl; tauto.
Qed.

(** X24.  Whatever sequence of [pause], [resume], [setAlertThreshold] and
    [setMinTokenAge] calls is made, a throwing [setMinTokenAge] leaving
    the configuration as it was, the market-cap cap, the liquidity
    floor, the polling interval, the dormancy thresholds, the baseline
    period and the cooldown stay as configured, and the minimum token age
    never becomes negative. *)
Theorem config_calls_keep_limits (cs : list Config.Call) (cfg : BotConfig) :
  let after := Config.calls cs cfg in
  maxMarketCap after = maxMarketCap cfg
  /\ minLiquidityUsd after = minLiquidityUsd cfg
  /\ pollingIntervalMs after = pollingIntervalMs cfg
  /\ dormantVolatilityThreshold after = dormantVolatilityThreshold cfg
  /\ dormantVolumeThreshold after = dormantVolumeThreshold cfg
  /\ baselinePeriodMinutes after = baselinePeriodMinutes cfg
  /\ alertCooldownMs after = alertCooldownMs cfg
  /\ ((minTokenAgeHours cfg <? 0)%float = false ->
      (minTokenAgeHours after <? 0)%float = false).
Proof.
  revert cfg. induction cs as [|c cs IH]; intros cfg; [simpl; tauto|].
  unfold Config.calls. cbn [fold_left]. fold (Config.calls cs (Config.call c cfg)).
  pose proof (call_frame c cfg) as Hc. pose proof (IH (Config.call c cfg)) as Hcs.
  cbv zeta in Hc, Hcs |- *.
  destruct Hc as (-> & -> & -> & -> & -> & -> & -> & Hage) in Hcs |- *.
  destruct Hcs as (-> & -> & -> & -> & -> & -> & -> & Hage').
  repeat split; try reflexivity. intros H. exact (Hage' (Hage H)).
Qed.

Lemma config_calls_keep_limits_witness :
  let cs := [Config.CallSetMinTokenAge (-3)%float; Config.CallPause;
             Config.CallSetMinTokenAge 12%float] in
  (minTokenAgeHours (Config.calls cs Sample.config) <? 0)%float = false.
Proof.
  intros cs.
  destruct (config_calls_keep_limits cs Sample.config) as (_ & _ & _ & _ & _ & _ & _ & Hage).
  apply Hage. vm_compute. reflexivity.
Defined.

(** ** The monitor cycle: one request per batch *)

Lemma slices_single {A : Type} (size : nat) (batch : list A) :
  (1 <= length batch <= size)%nat -> slices size batch = [batch].
Proof.
  intros Hlen. unfold slices. destruct (length batch) as [|n] eqn:Hn; [lia|].
  cbn [slicesFrom]. rewrite Hn. change (0 <? S n)%nat with true. change (skipn 0 batch) with batch.
  rewrite firstn_all2 by lia. f_equal. rewrite Nat.add_0_l.
  destruct n; cbn [slicesFrom]; [reflexivity|].
  rewrite Hn, (proj2 (Nat.ltb_ge _ _)) by lia. reflexivity.
Qed.

(** X25.  The monitor cycle cuts the tracked addresses into batches of
    thirty and hands each to [getMultipleTokenPairs], which batches by
    thirty again: for each batch of the cycle the inner loop runs once,
    so the call makes exactly one provider request, with all the batch's
    addresses, and no pause, and returns that answer or throws that
    error. *)
Theorem monitor_batch_is_one_request {E : Type}
    (fetch : nat -> string -> ErrorHandler.Outcome (option (list TokenPair)) E)
    (trackedTokens : list string) :
  Forall (fun batch =>
            let r := getMultipleTokenPairs fetch batch in
            requestsOf r.1 = [String.concat "," batch]
            /\ pausesOf r.1 = []
            /\ r.2 = match fetch 0%nat (String.concat "," batch) with
                     | ErrorHandler.Returned pairs => ErrorHandler.Returned (default [] pairs)
                     | ErrorHandler.Thrown error => ErrorHandler.Thrown error
                     end)
    (slices 30 trackedTokens).
Proof.
  destruct (slicesFrom_spec 30 trackedTokens ltac:(lia) (length trackedTokens) 0%nat)
    as (_ & Hall & _); [lia|]. fold (slices 30 trackedTokens) in Hall.
  eapply Forall_impl; [exact Hall|].
  intros batch Hlen. cbv beta in Hlen. cbv zeta.
  unfold getMultipleTokenPairs. rewrite (slices_single 30 batch Hlen).
  cbn [fetchBatches]. destruct (fetch 0%nat (String.concat "," batch)); simpl; auto.
Qed.
